(** * claude-analytics: session grouping, sync, streaks, proficiency and
      achievements, embedded from the TypeScript sources.

    Conventions of the embedding.
    - A JavaScript [Date] is its epoch-millisecond value, a [Z]; the ISO-8601
      text the store keeps for a date is identified with that value
      ([toISOString] and [new Date(text)] are inverse on millisecond dates).
    - Integer-valued JavaScript numbers (counts, durations, token counters) are
      [Z] or [nat]; quantities the code computes with fractional arithmetic
      (ratios, scores) are IEEE-754 binary64 [float]s.
    - A SQLite table with a primary key is a [gmap] from the key to the row;
      a missing table is [None].
    - An optional property ([sessionId?: string]) is an [option]. *)

From Stdlib Require Import ZArith Floats.
From stdpp Require Import base option list list_numbers sorting strings pretty gmap fin_maps.

Local Open Scope Z_scope.

(** * Part I: the embedding *)

(** ** Data model (types/index.ts) *)

Module HistoryEntry.
(** [HistoryEntrySchema]: [timestamp] is a whole number of epoch
    milliseconds in the range of [Date]; [pastedContents] is kept as the list
    of its keys, the only part of it the program reads. *)
Record t : Type := mk {
  display : string;
  pastedContents : option (list string);
  timestamp : Z;
  project : string;
  sessionId : option string;
}.
End HistoryEntry.

Module Session.
Record t : Type := mk {
  sessionId : string;
  project : string;
  startTime : Z;
  endTime : Z;
  promptCount : nat;
  duration : Z;
  firstPrompt : string;
  lastPrompt : string;
}.
End Session.

(** ** parsers/history-parser.ts *)

Module HistoryParser.
(** [[...entries].sort((a, b) => a.timestamp - b.timestamp)]: the sort is
    stable, so an entry goes in front of the entries already placed whose
    timestamp is not smaller. *)
Fixpoint insertByTimestamp (e : HistoryEntry.t) (l : list HistoryEntry.t)
  : list HistoryEntry.t :=
  match l with
  | [] => [e]
  | x :: l' =>
      if HistoryEntry.timestamp e <=? HistoryEntry.timestamp x
      then e :: x :: l'
      else x :: insertByTimestamp e l'
  end.

Definition sortByTimestamp (entries : list HistoryEntry.t)
  : list HistoryEntry.t :=
  foldr insertByTimestamp [] entries.

(** The loop's accumulator [currentSession]. *)
Record CurrentSession : Type := mkCurrent {
  cs_sessionId : option string;
  cs_project : string;
  cs_startTime : Z;
  cs_endTime : Z;
  cs_prompts : list HistoryEntry.t;
}.

(** [`auto-${sessions.length}`] *)
Definition autoId (n : nat) : string := "auto-" +:+ pretty n.

(** [currentSession.sessionId || `auto-${sessions.length}`]: an absent and
    an empty identifier are both falsy. *)
Definition sessionIdOr (sid : option string) (n : nat) : string :=
  match sid with
  | Some id => if bool_decide (id = "") then autoId n else id
  | None => autoId n
  end.

(** The [if (currentSession && currentSession.prompts.length > 0)
    sessions.push({...})] block, used inside the loop and after it. *)
Definition pushSession (sessions : list Session.t) (c : CurrentSession)
  : list Session.t :=
  match cs_prompts c with
  | [] => sessions
  | p0 :: _ =>
      sessions ++
      [ Session.mk
          (sessionIdOr (cs_sessionId c) (length sessions))
          (cs_project c)
          (cs_startTime c)
          (cs_endTime c)
          (length (cs_prompts c))
          (cs_endTime c - cs_startTime c)
          (HistoryEntry.display p0)
          (HistoryEntry.display (List.last (cs_prompts c) p0)) ]
  end.

Definition shouldStartNew (cur : option CurrentSession)
    (entry : HistoryEntry.t) (sessionGapMs : Z) : bool :=
  match cur with
  | None => true
  | Some c =>
      negb (bool_decide (HistoryEntry.sessionId entry = cs_sessionId c))
      || negb (bool_decide (HistoryEntry.project entry = cs_project c))
      || (sessionGapMs <? HistoryEntry.timestamp entry - cs_endTime c)
  end.

(** State of the loop: the [sessions] array and [currentSession]. *)
Definition LoopState : Type := (list Session.t * option CurrentSession)%type.

(** One iteration of [for (const entry of sorted)]. *)
Definition step (sessionGapMs : Z) (st : LoopState) (entry : HistoryEntry.t)
  : LoopState :=
  let '(sessions, cur) := st in
  if shouldStartNew cur entry sessionGapMs then
    ( match cur with
      | Some c => pushSession sessions c
      | None => sessions
      end,
      Some (mkCurrent (HistoryEntry.sessionId entry)
                      (HistoryEntry.project entry)
                      (HistoryEntry.timestamp entry)
                      (HistoryEntry.timestamp entry)
                      [entry]) )
  else
    match cur with
    | Some c =>
        ( sessions,
          Some (mkCurrent (cs_sessionId c) (cs_project c) (cs_startTime c)
                          (HistoryEntry.timestamp entry)
                          (cs_prompts c ++ [entry])) )
    | None => (sessions, cur)
    end.

Definition finish (st : LoopState) : list Session.t :=
  match st.2 with
  | Some c => pushSession st.1 c
  | None => st.1
  end.

Definition groupIntoSessions (entries : list HistoryEntry.t)
    (sessionGapMs : Z) : list Session.t :=
  match entries with
  | [] => []
  | _ => finish (foldl (step sessionGapMs) ([], None) (sortByTimestamp entries))
  end.

(** The default value of [sessionGapMs]: 30 minutes. *)
Definition defaultSessionGapMs : Z := 30 * 60 * 1000.

(** Where each entry ends up.  The accumulator an entry joins is pushed at
    index [sessions.length] as of the end of the iteration that handled the
    entry (nothing is pushed before that accumulator is).  So the index of
    the output session counting the [i]-th entry in timestamp order is read
    off the loop states.  [GroupFacts] shows that the session of that index
    has the entry's project and identifier ([placement_session]), spans its
    timestamp ([placement_times]) and counts exactly the entries placed in it
    ([placement_count]). *)
Fixpoint placementsFrom (sessionGapMs : Z) (st : LoopState)
    (sorted : list HistoryEntry.t) : list nat :=
  match sorted with
  | [] => []
  | e :: rest =>
      let st' := step sessionGapMs st e in
      length st'.1 :: placementsFrom sessionGapMs st' rest
  end.

Definition placements (entries : list HistoryEntry.t) (sessionGapMs : Z)
  : list nat :=
  placementsFrom sessionGapMs ([], None) (sortByTimestamp entries).
End HistoryParser.

(** ** utils/skill-taxonomy.ts *)

Module SkillTaxonomy.
Inductive Category : Type := framework | language | tool | platform | concept.

Record SkillDefinition : Type := mkSkill {
  name : string;
  category : Category;
  detectionPatterns : list string;
  relatedSkills : list string;
  learningPath : list string;
}.

Definition SKILL_TAXONOMY : list SkillDefinition := [
  (* JavaScript/TypeScript frameworks *)
  mkSkill "Next.js" framework ["next"; "nextjs"; "next.js"]
    ["React"; "TypeScript"; "Node.js"]
    ["React"; "Next.js"; "Next.js Advanced"];
  mkSkill "React" framework ["react"; "react-"]
    ["JavaScript"; "TypeScript"; "JSX"]
    ["JavaScript"; "React"; "React Hooks"; "React Advanced"];
  mkSkill "Vue" framework ["vue"; "nuxt"]
    ["JavaScript"; "TypeScript"]
    ["JavaScript"; "Vue"; "Vue 3"; "Nuxt"];
  mkSkill "Angular" framework ["angular"; "@angular"]
    ["TypeScript"; "RxJS"]
    ["TypeScript"; "Angular"; "Angular Advanced"];
  mkSkill "Svelte" framework ["svelte"; "sveltekit"]
    ["JavaScript"; "TypeScript"]
    ["JavaScript"; "Svelte"; "SvelteKit"];
  (* Backend frameworks *)
  mkSkill "Express" framework ["express"]
    ["Node.js"; "JavaScript"]
    ["Node.js"; "Express"; "REST APIs"];
  mkSkill "Fastify" framework ["fastify"]
    ["Node.js"; "JavaScript"]
    ["Node.js"; "Fastify"; "High Performance APIs"];
  mkSkill "NestJS" framework ["nest"; "@nestjs"]
    ["TypeScript"; "Node.js"]
    ["TypeScript"; "NestJS"; "Microservices"];
  mkSkill "Rails" framework ["rails"; "ruby-on-rails"]
    ["Ruby"; "ActiveRecord"; "PostgreSQL"]
    ["Ruby"; "Rails"; "Rails Advanced"];
  (* Languages *)
  mkSkill "TypeScript" language ["typescript"; ".ts"; "tsconfig"]
    ["JavaScript"; "Node.js"]
    ["JavaScript"; "TypeScript"; "TypeScript Advanced"];
  mkSkill "JavaScript" language ["javascript"; ".js"; "node"]
    ["HTML"; "CSS"]
    ["JavaScript"; "ES6+"; "Async/Await"];
  mkSkill "Python" language ["python"; ".py"; "pip"]
    ["Django"; "Flask"; "FastAPI"]
    ["Python"; "Python OOP"; "Python Advanced"];
  mkSkill "Ruby" language ["ruby"; ".rb"; "gemfile"]
    ["Rails"]
    ["Ruby"; "Ruby OOP"; "Rails"];
  mkSkill "Go" language ["golang"; "go.mod"; "/go/"]
    ["Microservices"; "Docker"]
    ["Go"; "Go Concurrency"; "Go Advanced"];
  mkSkill "Rust" language ["rust"; "cargo"; ".rs"]
    ["Systems Programming"]
    ["Rust"; "Rust Ownership"; "Rust Advanced"];
  (* Tools and build systems *)
  mkSkill "Git" tool ["git"; ".git"; "github"]
    ["Version Control"]
    ["Git Basics"; "Git Branching"; "Git Advanced"];
  mkSkill "Docker" tool ["docker"; "dockerfile"; "container"]
    ["DevOps"; "Kubernetes"]
    ["Docker"; "Docker Compose"; "Kubernetes"];
  mkSkill "Webpack" tool ["webpack"; "webpack.config"]
    ["JavaScript"; "Build Tools"]
    ["Webpack"; "Webpack Optimization"];
  mkSkill "Vite" tool ["vite"; "vite.config"]
    ["JavaScript"; "Build Tools"]
    ["Vite"; "Vite Advanced"];
  (* Databases *)
  mkSkill "PostgreSQL" platform ["postgres"; "postgresql"; "psql"]
    ["SQL"; "Database Design"]
    ["SQL"; "PostgreSQL"; "Database Optimization"];
  mkSkill "MongoDB" platform ["mongo"; "mongodb"]
    ["NoSQL"; "Database Design"]
    ["MongoDB"; "Mongoose"; "MongoDB Advanced"];
  mkSkill "Redis" platform ["redis"]
    ["Caching"; "In-Memory Databases"]
    ["Redis"; "Redis Advanced"];
  (* Cloud platforms *)
  mkSkill "AWS" platform ["aws"; "amazon-web-services"; "s3"; "ec2"; "lambda"]
    ["Cloud"; "DevOps"]
    ["AWS Basics"; "AWS Services"; "AWS Architecture"];
  mkSkill "Vercel" platform ["vercel"]
    ["Next.js"; "Deployment"]
    ["Vercel"; "Edge Functions"];
  (* Testing *)
  mkSkill "Vitest" tool ["vitest"]
    ["Testing"; "JavaScript"]
    ["Testing Basics"; "Vitest"; "Advanced Testing"];
  mkSkill "Jest" tool ["jest"]
    ["Testing"; "JavaScript"]
    ["Testing Basics"; "Jest"; "Advanced Testing"];
  (* Concepts *)
  mkSkill "AI/ML" concept ["ai"; "ml"; "machine-learning"; "neural"; "llm"]
    ["Python"; "TensorFlow"; "PyTorch"]
    ["ML Basics"; "Deep Learning"; "Production ML"];
  mkSkill "Web Audio" concept ["audio"; "tone.js"; "web-audio"; "sound"; "music"]
    ["JavaScript"; "Signal Processing"]
    ["Web Audio API"; "Audio Processing"; "Music Theory"];
  mkSkill "Claude Code" tool ["claude"; "claude-code"; "anthropic"]
    ["AI-Assisted Development"; "Prompt Engineering"]
    ["Claude Basics"; "Prompt Optimization"; "Claude Advanced"]
].

(** [String.prototype.toLowerCase] on one character.  Strings are sequences
    of 8-bit characters here; the letters A to Z are mapped to a to z and
    every other character is left as it is, which is what [toLowerCase] does
    on ASCII text. *)
Definition lowerChar (c : Ascii.ascii) : Ascii.ascii :=
  let n := Ascii.N_of_ascii c in
  if ((65 <=? n) && (n <=? 90))%N then Ascii.ascii_of_N (n + 32) else c.

Fixpoint toLowerCase (s : string) : string :=
  match s with
  | EmptyString => EmptyString
  | String c s' => String (lowerChar c) (toLowerCase s')
  end.

(** [s.startsWith(pat)] *)
Fixpoint startsWith (s pat : string) : bool :=
  match pat, s with
  | EmptyString, _ => true
  | String _ _, EmptyString => false
  | String p pat', String c s' => bool_decide (p = c) && startsWith s' pat'
  end.

(** [s.includes(pat)]: [pat] occurs in [s] at some position. *)
Fixpoint includes (s pat : string) : bool :=
  startsWith s pat
  || match s with
     | EmptyString => false
     | String _ s' => includes s' pat
     end.

(** The inner loop [for (const pattern of skill.detectionPatterns)]: [true]
    when some pattern is found, at which point the source pushes the skill
    name and breaks. *)
Fixpoint anyPatternIn (lowerPath : string) (patterns : list string) : bool :=
  match patterns with
  | [] => false
  | pattern :: rest =>
      if includes lowerPath (toLowerCase pattern) then true
      else anyPatternIn lowerPath rest
  end.

(** The outer loop [for (const skill of SKILL_TAXONOMY)], threading the
    [detected] array. *)
Fixpoint detectLoop (lowerPath : string) (skills : list SkillDefinition)
    (detected : list string) : list string :=
  match skills with
  | [] => detected
  | skill :: rest =>
      detectLoop lowerPath rest
        (if anyPatternIn lowerPath (detectionPatterns skill)
         then detected ++ [name skill]
         else detected)
  end.

Definition detectSkillsFromPath (projectPath : string) : list string :=
  let lowerPath := toLowerCase projectPath in
  detectLoop lowerPath SKILL_TAXONOMY [].
End SkillTaxonomy.

(** ** utils/skill-proficiency.ts: the score and the level *)

Module SkillProficiency.
Import PrimFloat.
Local Open Scope float_scope.
Local Set Warnings "-inexact-float".

Inductive Level : Type := beginner | intermediate | advanced | expert.

(** The argument of [calculateProficiencyScore]. *)
Record Metrics : Type := mkMetrics {
  usageCount : float;
  daysSinceFirstUse : float;
  consistency : float;
  depth : float;
}.

(** [Math.min(a, b)]: NaN when either argument is NaN, and the negative zero
    when the arguments are the two zeros. *)
Definition Math_min (a b : float) : float :=
  if is_nan a || is_nan b then nan
  else if a <? b then a
  else if b <? a then b
  else if get_sign a then a else b.

Section WithLog10.
(** [Math.log10], which ECMAScript leaves implementation-approximated. *)
Variable log10 : float → float.

Definition calculateProficiencyScore (metrics : Metrics) : float :=
  let usageScore := Math_min 100 (log10 (usageCount metrics + 1) * 40) in
  let timeScore := Math_min 100 ((daysSinceFirstUse metrics / 365) * 50) in
  let consistencyScore := consistency metrics in
  let depthScore := depth metrics in
  usageScore * 0.4 + timeScore * 0.2 + consistencyScore * 0.2 + depthScore * 0.2.

(** The score as the specification writes it. *)
Definition specifiedScore (metrics : Metrics) : float :=
  0.4 * Math_min 100 (log10 (usageCount metrics + 1) * 40)
  + 0.2 * Math_min 100 ((daysSinceFirstUse metrics / 365) * 50)
  + 0.2 * consistency metrics
  + 0.2 * depth metrics.

End WithLog10.

Definition getProficiencyLevel (score : float) : Level :=
  if 80 <=? score then expert
  else if 60 <=? score then advanced
  else if 30 <=? score then intermediate
  else beginner.
End SkillProficiency.

(** ** database/schema.ts

    Rows are keyed by their primary key in a [gmap], so a row record lists
    the remaining columns.  [datetime('now')] column defaults take the clock
    reading [now] passed to the operation. *)

Module SessionRow.
Record t : Type := mk {
  project : string;
  start_time : Z;
  end_time : Z;
  prompt_count : Z;
  duration_ms : Z;
  first_prompt : option string;
  last_prompt : option string;
  created_at : Z;
}.
End SessionRow.

Module PromptRow.
Record t : Type := mk {
  id : Z;
  session_id : string;
  project : string;
  display : string;
  timestamp : Z;
  pasted_contents_count : Z;
  created_at : Z;
}.
End PromptRow.

Module ProjectRow.
Record t : Type := mk {
  first_seen : Z;
  last_active : Z;
  total_prompts : Z;
  total_sessions : Z;
  total_duration_ms : Z;
  lines_added : Z;
  lines_removed : Z;
  total_cost : float;
  input_tokens : Z;
  output_tokens : Z;
  cache_creation_tokens : Z;
  cache_read_tokens : Z;
  updated_at : Z;
}.
End ProjectRow.

Module MetadataRow.
(** The one value the program keeps here is the ISO text of the last sync
    time, identified with its millisecond value. *)
Record t : Type := mk {
  value : Z;
  updated_at : Z;
}.
End MetadataRow.

Module Metadata.
(** The values the program puts in an achievement's [metadata]: integers and
    texts.  The JSON text kept in the [metadata] column is identified with
    the list of entries it encodes. *)
Inductive MetaValue : Type :=
  | MInt (n : Z)
  | MText (s : string).
Definition t : Type := list (string * MetaValue).
End Metadata.

Module AchievementRow.
Record t : Type := mk {
  type : string;
  title : string;
  description : string;
  icon : string;
  unlocked_at : Z;
  metadata : option Metadata.t;
}.
End AchievementRow.

Module Schema.
(** The store.  [sessions], [prompts], [projects] and [metadata] are created
    by [initializeSchema] when the database is opened; [achievements] is
    created on demand by the achievement functions, so it may be missing.
    The tables no modelled function touches ([daily_stats], [habits],
    [skills], [schema_version]) are left out. *)
Record Database : Type := mkDatabase {
  sessions : gmap string SessionRow.t;
  prompts : list PromptRow.t;
  projects : gmap string ProjectRow.t;
  metadata : gmap string MetadataRow.t;
  achievements : option (gmap string AchievementRow.t);
}.

Definition emptyDatabase : Database := mkDatabase ∅ [] ∅ ∅ None.

(** [INSERT INTO sessions ... ON CONFLICT(session_id) DO UPDATE SET end_time,
    prompt_count, duration_ms, last_prompt]. *)
Definition upsertSession (now : Z) (db : Database) (session : Session.t)
  : Database :=
  let row :=
    match sessions db !! Session.sessionId session with
    | None =>
        SessionRow.mk
          (Session.project session)
          (Session.startTime session)
          (Session.endTime session)
          (Z.of_nat (Session.promptCount session))
          (Session.duration session)
          (Some (Session.firstPrompt session))
          (Some (Session.lastPrompt session))
          now
    | Some old =>
        SessionRow.mk
          (SessionRow.project old)
          (SessionRow.start_time old)
          (Session.endTime session)
          (Z.of_nat (Session.promptCount session))
          (Session.duration session)
          (SessionRow.first_prompt old)
          (Some (Session.lastPrompt session))
          (SessionRow.created_at old)
    end in
  mkDatabase (<[Session.sessionId session := row]> (sessions db))
             (prompts db) (projects db) (metadata db) (achievements db).

(** The argument of [insertPrompt]. *)
Record PromptInput : Type := mkPromptInput {
  pi_sessionId : string;
  pi_project : string;
  pi_display : string;
  pi_timestamp : Z;
  pi_pastedContentsCount : Z;
}.

(** [INSERT INTO prompts ...]: the AUTOINCREMENT id is one more than the
    number of rows, as rows are never deleted. *)
Definition insertPrompt (now : Z) (db : Database) (prompt : PromptInput)
  : Database :=
  mkDatabase (sessions db)
             (prompts db ++
              [PromptRow.mk (Z.of_nat (length (prompts db)) + 1)
                            (pi_sessionId prompt) (pi_project prompt)
                            (pi_display prompt) (pi_timestamp prompt)
                            (pi_pastedContentsCount prompt) now])
             (projects db) (metadata db) (achievements db).

(** The argument of [upsertProjectStats]. *)
Record ProjectStatsInput : Type := mkProjectStatsInput {
  projectPath : string;
  firstSeen : Z;
  lastActive : Z;
  totalPrompts : Z;
  totalSessions : Z;
  totalDuration : Z;
  linesAdded : Z;
  linesRemoved : Z;
  totalCost : float;
  inputTokens : Z;
  outputTokens : Z;
  cacheCreationTokens : Z;
  cacheReadTokens : Z;
}.

(** [INSERT INTO projects ... ON CONFLICT(project_path) DO UPDATE SET] every
    column but [project_path] and [first_seen] to the new value. *)
Definition upsertProjectStats (now : Z) (db : Database)
    (stats : ProjectStatsInput) : Database :=
  let first :=
    match projects db !! projectPath stats with
    | None => firstSeen stats
    | Some old => ProjectRow.first_seen old
    end in
  let row :=
    ProjectRow.mk first (lastActive stats) (totalPrompts stats)
      (totalSessions stats) (totalDuration stats) (linesAdded stats)
      (linesRemoved stats) (totalCost stats) (inputTokens stats)
      (outputTokens stats) (cacheCreationTokens stats)
      (cacheReadTokens stats) now in
  mkDatabase (sessions db) (prompts db)
             (<[projectPath stats := row]> (projects db))
             (metadata db) (achievements db).

Definition setMetadata (now : Z) (db : Database) (key : string) (value : Z)
  : Database :=
  mkDatabase (sessions db) (prompts db) (projects db)
             (<[key := MetadataRow.mk value now]> (metadata db))
             (achievements db).

Definition getMetadata (db : Database) (key : string) : option Z :=
  MetadataRow.value <$> metadata db !! key.
End Schema.

(** ** parsers/project-parser.ts and utils/sync.ts *)

Module ProjectMetrics.
(** The numeric fields of [ProjectMetricsSchema]; zod has already put 0 where
    the file had none. *)
Record t : Type := mk {
  lastCost : float;
  lastAPIDuration : Z;
  lastDuration : Z;
  lastLinesAdded : Z;
  lastLinesRemoved : Z;
  lastTotalInputTokens : Z;
  lastTotalOutputTokens : Z;
  lastTotalCacheCreationInputTokens : Z;
  lastTotalCacheReadInputTokens : Z;
}.
End ProjectMetrics.

(** A JavaScript [Map] with string keys: entries in insertion order, [set]
    on a present key replaces the value in place. *)
Module JsMap.

Fixpoint get {V} (k : string) (m : list (string * V)) : option V :=
  match m with
  | [] => None
  | (k', v) :: m' => if decide (k = k') then Some v else get k m'
  end.

Fixpoint set {V} (k : string) (v : V) (m : list (string * V))
  : list (string * V) :=
  match m with
  | [] => [(k, v)]
  | (k', v') :: m' =>
      if decide (k = k') then (k, v) :: m' else (k', v') :: set k v m'
  end.

Definition keys {V} (m : list (string * V)) : list string := fst <$> m.

(** [new Set(list)] iterated: first occurrences, in order. *)
Definition setOf (l : list string) : list string :=
  foldl (λ acc x, if decide (x ∈ acc) then acc else acc ++ [x]) [] l.
End JsMap.

Module Sync.
Import HistoryParser Schema.

Record SyncResult : Type := mkSyncResult {
  promptsProcessed : nat;
  sessionsCreated : nat;
  projectsUpdated : nat;
  errors : list string;
  lastSyncTime : Z;
}.

(** The value type of the [projectStats] map. *)
Record SessionStats : Type := mkSessionStats {
  ss_firstSeen : Z;
  ss_lastActive : Z;
  ss_totalPrompts : Z;
  ss_totalSessions : Z;
  ss_totalDuration : Z;
}.

(** One iteration of the loop that fills [projectStats]. *)
Definition addSessionStats (projectStats : list (string * SessionStats))
    (session : Session.t) : list (string * SessionStats) :=
  match JsMap.get (Session.project session) projectStats with
  | Some existing =>
      JsMap.set (Session.project session)
        (mkSessionStats
           (ss_firstSeen existing)
           (Z.max (ss_lastActive existing) (Session.endTime session))
           (ss_totalPrompts existing + Z.of_nat (Session.promptCount session))
           (ss_totalSessions existing + 1)
           (ss_totalDuration existing + Session.duration session))
        projectStats
  | None =>
      JsMap.set (Session.project session)
        (mkSessionStats
           (Session.startTime session)
           (Session.endTime session)
           (Z.of_nat (Session.promptCount session))
           1
           (Session.duration session))
        projectStats
  end.

(** [getAllProjects(config)]: the entries of [config.projects] put in a Map. *)
Definition getAllProjects (configProjects : list (string * ProjectMetrics.t))
  : list (string * ProjectMetrics.t) :=
  foldl (λ projects '(path, metrics), JsMap.set path metrics projects)
        [] configProjects.

(** [x || 0] on a number: 0 for a zero or a NaN. *)
Definition orZero (x : float) : float :=
  if (PrimFloat.is_zero x || PrimFloat.is_nan x)%bool then 0%float else x.

(** The object handed to [upsertProjectStats] for [projectPath]. *)
Definition mergedStats (now : Z)
    (projectStats : list (string * SessionStats))
    (configProjects : list (string * ProjectMetrics.t))
    (projectPath : string) : ProjectStatsInput :=
  let sessionData := JsMap.get projectPath projectStats in
  let configData := JsMap.get projectPath configProjects in
  mkProjectStatsInput
    projectPath
    (from_option ss_firstSeen now sessionData)
    (from_option ss_lastActive now sessionData)
    (from_option ss_totalPrompts 0 sessionData)
    (from_option ss_totalSessions 0 sessionData)
    (from_option ss_totalDuration 0 sessionData)
    (from_option ProjectMetrics.lastLinesAdded 0 configData)
    (from_option ProjectMetrics.lastLinesRemoved 0 configData)
    (from_option (orZero ∘ ProjectMetrics.lastCost) 0%float configData)
    (from_option ProjectMetrics.lastTotalInputTokens 0 configData)
    (from_option ProjectMetrics.lastTotalOutputTokens 0 configData)
    (from_option ProjectMetrics.lastTotalCacheCreationInputTokens 0 configData)
    (from_option ProjectMetrics.lastTotalCacheReadInputTokens 0 configData).

(** [sessions.find(s => t >= s.startTime && t <= s.endTime
                        && s.project === entry.project)] *)
Definition findSession (sessions : list Session.t) (entry : HistoryEntry.t)
  : option Session.t :=
  List.find (λ s,
    (Session.startTime s <=? HistoryEntry.timestamp entry)
    && (HistoryEntry.timestamp entry <=? Session.endTime s)
    && bool_decide (Session.project s = HistoryEntry.project entry)) sessions.

(** One iteration of the loop inserting prompts. *)
Definition insertPromptFor (now : Z) (sessions : list Session.t)
    (st : Database * nat) (entry : HistoryEntry.t) : Database * nat :=
  match findSession sessions entry with
  | Some session =>
      ( insertPrompt now st.1
          (mkPromptInput
             (Session.sessionId session)
             (HistoryEntry.project entry)
             (HistoryEntry.display entry)
             (HistoryEntry.timestamp entry)
             (Z.of_nat (length (default [] (HistoryEntry.pastedContents entry))))),
        S st.2 )
  | None => st
  end.

(** The entries a run processes: all of them on a first sync, those strictly
    newer than the stored watermark afterwards. *)
Definition entriesToProcess (db : Database)
    (historyEntries : list HistoryEntry.t) : list HistoryEntry.t :=
  match getMetadata db "last_sync_time" with
  | Some lastSyncTime =>
      filter (λ entry, lastSyncTime < HistoryEntry.timestamp entry)
             historyEntries
  | None => historyEntries
  end.

(** The sessions of a run. *)
Definition runSessions (db : Database)
    (historyEntries : list HistoryEntry.t) : list Session.t :=
  groupIntoSessions (entriesToProcess db historyEntries) defaultSessionGapMs.

(** The project paths a run upserts. *)
Definition allProjects (sessions : list Session.t)
    (configProjects : list (string * ProjectMetrics.t)) : list string :=
  JsMap.setOf (JsMap.keys (foldl addSessionStats [] sessions)
               ++ JsMap.keys (getAllProjects configProjects)).

(** [syncData(db)], given what [readHistoryFile()] and [readClaudeConfig()]
    return and the clock reading [now] of the run.  The inputs are the
    parsed files, so the outer catch (a reader failing) is not taken; each
    statement satisfies the constraints of its table, so no per-record catch
    is taken either and [errors] stays empty. *)
Definition syncData (db : Database) (historyEntries : list HistoryEntry.t)
    (configProjects : list (string * ProjectMetrics.t)) (now : Z)
  : Database * SyncResult :=
  let entries := entriesToProcess db historyEntries in
  let sessions := groupIntoSessions entries defaultSessionGapMs in
  let db1 := foldl (upsertSession now) db sessions in
  let '(db2, processed) :=
    foldl (insertPromptFor now sessions) (db1, 0%nat) entries in
  let projectStats := foldl addSessionStats [] sessions in
  let config := getAllProjects configProjects in
  let paths := allProjects sessions configProjects in
  let db3 :=
    foldl (λ d projectPath,
             upsertProjectStats now d
               (mergedStats now projectStats config projectPath))
          db2 paths in
  let db4 := setMetadata now db3 "last_sync_time" now in
  (db4, mkSyncResult processed (length sessions) (length paths) [] now).
End Sync.

(** ** Dates and numbers as SQLite and JavaScript compute them *)

Module SqlDates.
Definition msPerDay : Z := 86400000.

(** [DATE(t)]: the UTC calendar day of an instant.  A 'YYYY-MM-DD' text is
    identified with its day number, counted from 1970-01-01; for years 0000
    to 9999 equal texts are equal days and the order of the texts is the
    order of the days. *)
Definition DATE (t : Z) : Z := t / msPerDay.

(** [CAST(strftime('%w', t) AS INTEGER)]: 0 is Sunday; day 0 was a Thursday. *)
Definition weekday (t : Z) : Z := (DATE t + 4) mod 7.

(** [SELECT DISTINCT ... ORDER BY ... DESC] on days. *)
Fixpoint insertDesc (d : Z) (l : list Z) : list Z :=
  match l with
  | [] => [d]
  | x :: l' =>
      if x <? d then d :: x :: l'
      else if x =? d then x :: l'
      else x :: insertDesc d l'
  end.

Definition distinctDesc (l : list Z) : list Z := foldr insertDesc [] l.

(** The rows of a table, in no particular order. *)
Definition rows {V} (table : gmap string V) : list V := (map_to_list table).*2.

(** A JavaScript number holding the integer [z] (exact below 2^53 in
    absolute value). *)
Definition ofZ (z : Z) : float :=
  if z <? 0 then PrimFloat.opp (PrimFloat.of_uint63 (Uint63.of_Z (- z)))
  else PrimFloat.of_uint63 (Uint63.of_Z z).

(** [Math.round(x)] for a finite [x]: the integer nearest to [x], ties going
    up; 0 is returned for an infinity or a NaN, where JavaScript returns the
    argument. *)
Definition Math_round (x : float) : Z :=
  match FloatOps.Prim2SF x with
  | SpecFloat.S754_finite s m e =>
      let n := if s then Z.neg m else Z.pos m in
      if 0 <=? e then n * 2 ^ e
      else (2 * n + 2 ^ (- e)) / 2 ^ (- e + 1)
  | _ => 0
  end.
End SqlDates.

(** ** utils/habit-detector.ts: streaks *)

Module HabitDetector.
Import Schema SqlDates.

Record Streak : Type := mkStreak {
  current : Z;
  longest : Z;
  (** [parseISO] of the most recent active date, kept as that day. *)
  lastActive : option Z;
}.

(** [SELECT DISTINCT DATE(start_time) FROM sessions
     WHERE start_time >= datetime('now', '-90 days') ORDER BY date DESC].
    The comparison is one of texts, an ISO instant 'YYYY-MM-DDTHH:MM:SS.sssZ'
    against 'YYYY-MM-DD HH:MM:SS': the date parts decide, and on equal dates
    the 'T' is greater than the space, so a session passes exactly when its
    day is not before the day of the instant 90 days ago. *)
Definition recentDays (db : Database) (now : Z) : list Z :=
  distinctDesc
    (DATE <$> filter (λ t, DATE (now - 90 * msPerDay) <= DATE t)
                     (SessionRow.start_time <$> rows (sessions db))).

(** The first loop, from index [i]: [expectedDate] is the local calendar day
    [i] days before [today]. *)
Fixpoint currentLoop (today : Z) (i : Z) (days : list Z) : Z :=
  match days with
  | [] => 0
  | dayDate :: rest =>
      if dayDate =? today - i then 1 + currentLoop today (i + 1) rest else 0
  end.

(** The second loop, at an index whose predecessor is [prevDate];
    [differenceInDays] of two parsed dates is the difference of the days. *)
Fixpoint longestLoop (prevDate : Z) (rest : list Z)
    (tempStreak longestStreak : Z) : Z :=
  match rest with
  | [] => longestStreak
  | currentDate :: rest' =>
      if prevDate - currentDate =? 1
      then longestLoop currentDate rest' (tempStreak + 1)
             (Z.max longestStreak (tempStreak + 1))
      else longestLoop currentDate rest' 1 longestStreak
  end.

(** [calculateStreak(db)] at the instant [now], [today] being the local
    calendar day that [format(new Date(), 'yyyy-MM-dd')] prints. *)
Definition calculateStreak (db : Database) (now today : Z) : Streak :=
  match recentDays db now with
  | [] => mkStreak 0 0 None
  | first :: rest =>
      let currentStreak := currentLoop today 0 (first :: rest) in
      let longestStreak := longestLoop first rest 1 0 in
      mkStreak currentStreak (Z.max longestStreak currentStreak) (Some first)
  end.
End HabitDetector.

(** ** utils/achievements.ts *)

Module Achievement.
Inductive Kind : Type := streak | skill | cost | productivity | milestone.

(** The text of a kind, as stored in the [type] column. *)
Definition kindText (k : Kind) : string :=
  match k with
  | streak => "streak"
  | skill => "skill"
  | cost => "cost"
  | productivity => "productivity"
  | milestone => "milestone"
  end.

Record t : Type := mk {
  id : string;
  type : Kind;
  title : string;
  description : string;
  icon : string;
  unlockedAt : Z;
  metadata : option Metadata.t;
}.
End Achievement.

Module Achievements.
Import Schema SqlDates.

Record Progress : Type := mkProgress {
  pr_current : Z;
  pr_target : Z;
  pr_percentage : float;
}.

Record AchievementCheck : Type := mkCheck {
  achieved : bool;
  achievement : option Achievement.t;
  progress : option Progress;
}.

(** The fields of a [SkillProficiency] that the skill check reads. *)
Record SkillProficiency : Type := mkSkillProficiency {
  sp_skill : string;
  sp_level : SkillProficiency.Level;
  sp_proficiency : Z;
  sp_usageCount : Z;
}.

(** *** Streak milestones *)

(** The streak query.  [streak_group] is the row number minus the days
    between now and the date; both differences are exact in binary64, so a
    row is in the group of the most recent date exactly when row number plus
    day equals that of the first row. *)
Fixpoint inGroupOfFirst (firstDay : Z) (rowNumber : Z) (days : list Z) : Z :=
  match days with
  | [] => 0
  | d :: rest =>
      (if rowNumber + d =? 1 + firstDay then 1 else 0)
      + inGroupOfFirst firstDay (rowNumber + 1) rest
  end.

Definition currentStreakQuery (db : Database) : Z :=
  let days := distinctDesc (DATE <$> (SessionRow.start_time <$> rows (sessions db))) in
  match days with
  | [] => 0
  | firstDay :: _ => inGroupOfFirst firstDay 1 days
  end.

Definition streakMilestones : list (Z * string * string) :=
  [ (3, "3-Day Streak", "🔥");
    (7, "Week Warrior", "⚡");
    (14, "Two Week Champion", "💪");
    (30, "Month Master", "🏆");
    (60, "60-Day Legend", "👑");
    (90, "90-Day Elite", "💎");
    (180, "Half-Year Hero", "🌟");
    (365, "Year of Excellence", "🎖️") ].

(** One iteration of a milestone loop pushes at most one check. *)
Definition streakCheck (now currentStreak : Z) (m : Z * string * string)
  : list AchievementCheck :=
  let '(days, title, icon) := m in
  if days <=? currentStreak then
    [ mkCheck true
        (Some (Achievement.mk
                 ("streak_" +:+ pretty days)
                 Achievement.streak
                 title
                 ("Maintained a " +:+ pretty days +:+ "-day coding streak!")
                 icon
                 now
                 (Some [("streakDays", Metadata.MInt currentStreak)])))
        None ]
  else if days - 2 <=? currentStreak then
    [ mkCheck false None
        (Some (mkProgress currentStreak days
                 (ofZ currentStreak / ofZ days * 100)%float)) ]
  else [].

Definition checkStreakAchievements (db : Database) (now : Z)
  : list AchievementCheck :=
  let currentStreak := currentStreakQuery db in
  streakMilestones ≫= streakCheck now currentStreak.

(** *** Skill milestones *)

Definition isSpace (c : Ascii.ascii) : bool :=
  let n := Ascii.N_of_ascii c in
  ((9 <=? n) && (n <=? 13) || (n =? 32))%N.

(** The character '_' (code 95). *)
Definition underscore : Ascii.ascii := Ascii.ascii_of_N 95.

(** [s.replace(/\s+/g, '_')], on 8-bit characters. *)
Fixpoint replaceSpaceRuns (inRun : bool) (s : string) : string :=
  match s with
  | EmptyString => EmptyString
  | String c s' =>
      if isSpace c
      then if inRun then replaceSpaceRuns true s'
           else String underscore (replaceSpaceRuns true s')
      else String c (replaceSpaceRuns false s')
  end.

Definition skillSlug (skillName : string) : string :=
  replaceSpaceRuns false (SkillTaxonomy.toLowerCase skillName).

Definition skillMetadata (s : SkillProficiency)
  : option Metadata.t :=
  Some [ ("skill", Metadata.MText (sp_skill s));
         ("proficiency", Metadata.MInt (sp_proficiency s));
         ("usageCount", Metadata.MInt (sp_usageCount s)) ].

Definition skillCheck (now : Z) (s : SkillProficiency) : list AchievementCheck :=
  (match sp_level s with
   | SkillProficiency.expert =>
       [ mkCheck true
           (Some (Achievement.mk
                    ("skill_expert_" +:+ skillSlug (sp_skill s))
                    Achievement.skill
                    (sp_skill s +:+ " Expert")
                    ("Achieved expert level proficiency in " +:+ sp_skill s +:+ "!")
                    "🎓" now (skillMetadata s)))
           None ]
   | _ => []
   end)
  ++
  (match sp_level s with
   | SkillProficiency.advanced =>
       [ mkCheck true
           (Some (Achievement.mk
                    ("skill_advanced_" +:+ skillSlug (sp_skill s))
                    Achievement.skill
                    (sp_skill s +:+ " Advanced")
                    ("Reached advanced level in " +:+ sp_skill s +:+ "!")
                    "📚" now (skillMetadata s)))
           None ]
   | _ => []
   end).

(** *** Cost milestones *)

(** [SELECT SUM(col) FROM projects WHERE cache_creation_tokens > 0].  With no
    such row SQL gives NULL, which the one test applied to it treats like 0,
    the value given here. *)
Definition sumWhereCaching (col : ProjectRow.t → Z) (db : Database) : Z :=
  foldr (λ row acc, col row + acc) 0
        (filter (λ row, 0 < ProjectRow.cache_creation_tokens row)
                (rows (projects db))).

Definition cacheRead (db : Database) : Z :=
  sumWhereCaching ProjectRow.cache_read_tokens db.

Definition cacheCreation (db : Database) : Z :=
  sumWhereCaching ProjectRow.cache_creation_tokens db.

(** [(cache_read / (cache_read + cache_creation)) * 100] *)
Definition hitRatioOf (cache_read cache_creation : Z) : float :=
  (ofZ cache_read / (ofZ cache_read + ofZ cache_creation) * 100)%float.

Definition cacheMaster (now : Z) (hitRatio : float) : Achievement.t :=
  Achievement.mk "cache_master" Achievement.cost "Cache Master"
    "Achieved 90%+ cache hit ratio!" "💰" now
    (Some [("hitRatio", Metadata.MInt (Math_round hitRatio))]).

Definition cacheOptimizer (now : Z) (hitRatio : float) : Achievement.t :=
  Achievement.mk "cache_optimizer" Achievement.cost "Cache Optimizer"
    "Achieved 80%+ cache hit ratio!" "💸" now
    (Some [("hitRatio", Metadata.MInt (Math_round hitRatio))]).

Definition checkCostAchievements (db : Database) (now : Z)
  : list AchievementCheck :=
  let cache_read := cacheRead db in
  let cache_creation := cacheCreation db in
  if negb (cache_read =? 0) && negb (cache_creation =? 0) then
    let hitRatio := hitRatioOf cache_read cache_creation in
    if (90 <=? hitRatio)%float then
      [mkCheck true (Some (cacheMaster now hitRatio)) None]
    else if (80 <=? hitRatio)%float then
      [mkCheck true (Some (cacheOptimizer now hitRatio)) None]
    else []
  else [].

(** *** Productivity milestones *)

Definition sessionMilestones : list (Z * string * string) :=
  [ (10, "Getting Started", "🌱");
    (50, "Regular User", "📊");
    (100, "Power User", "⚡");
    (250, "Super User", "🚀");
    (500, "Elite Coder", "💎");
    (1000, "Master Developer", "👑") ].

Definition promptMilestones : list (Z * string * string) :=
  [ (100, "Curious Explorer", "🔍");
    (500, "Active Learner", "📖");
    (1000, "Dedicated Developer", "💻");
    (5000, "Prompt Master", "🎯");
    (10000, "Prompt Legend", "🏅") ].

Definition sessionCountCheck (now count : Z) (m : Z * string * string)
  : list AchievementCheck :=
  let '(target, title, icon) := m in
  if target <=? count then
    [ mkCheck true
        (Some (Achievement.mk
                 ("sessions_" +:+ pretty target)
                 Achievement.productivity
                 title
                 ("Completed " +:+ pretty target +:+ " sessions!")
                 icon now
                 (Some [("sessionCount", Metadata.MInt count)])))
        None ]
  else [].

Definition promptCountCheck (now count : Z) (m : Z * string * string)
  : list AchievementCheck :=
  let '(target, title, icon) := m in
  if target <=? count then
    [ mkCheck true
        (Some (Achievement.mk
                 ("prompts_" +:+ pretty target)
                 Achievement.productivity
                 title
                 ("Sent " +:+ pretty target +:+ " prompts!")
                 icon now
                 (Some [("promptCount", Metadata.MInt count)])))
        None ]
  else [].

(** [SELECT SUM(prompt_count) FROM sessions]; a NULL sum (no session) fails
    every threshold, as 0 does. *)
Definition totalPromptCount (db : Database) : Z :=
  foldr (λ row acc, SessionRow.prompt_count row + acc) 0 (rows (sessions db)).

Definition checkProductivityAchievements (db : Database) (now : Z)
  : list AchievementCheck :=
  let totalSessions := Z.of_nat (size (sessions db)) in
  let totalPrompts := totalPromptCount db in
  (sessionMilestones ≫= sessionCountCheck now totalSessions)
  ++ (promptMilestones ≫= promptCountCheck now totalPrompts).

(** *** Calendar milestones *)

Definition timeMilestones : list (Z * string * string) :=
  [ (1, "Welcome Aboard", "👋");
    (7, "One Week In", "📅");
    (30, "One Month Strong", "📆");
    (90, "Three Month Veteran", "🎖️");
    (180, "Six Month Pro", "⭐");
    (365, "One Year Anniversary", "🎂") ].

Definition timeCheck (now daysSinceStart : Z) (m : Z * string * string)
  : list AchievementCheck :=
  let '(days, title, icon) := m in
  if days <=? daysSinceStart then
    [ mkCheck true
        (Some (Achievement.mk
                 ("milestone_" +:+ pretty days +:+ "_days")
                 Achievement.milestone
                 title
                 (pretty days +:+ " days since your first session!")
                 icon now
                 (Some [("daysSinceStart", Metadata.MInt daysSinceStart)])))
        None ]
  else [].

(** [SELECT MIN(start_time) FROM sessions] *)
Definition firstSession (db : Database) : option Z :=
  match SessionRow.start_time <$> rows (sessions db) with
  | [] => None
  | t :: ts => Some (foldr Z.min t ts)
  end.

Definition weekendSessions (db : Database) : Z :=
  Z.of_nat (length (filter (λ t, weekday t = 0 ∨ weekday t = 6)
                           (SessionRow.start_time <$> rows (sessions db)))).

Section WithCollaborators.
(** [differenceInDays] of date-fns, on two instants. *)
Variable differenceInDays : Z → Z → Z.
(** [analyzeSkillProficiency(db)]: it reads the sessions table and the clock
    only.  Its result depends on the row order of a GROUP BY without ORDER BY
    and on [Math.log10], so it is taken as given here. *)
Variable analyzeSkillProficiency :
  gmap string SessionRow.t → Z → list SkillProficiency.

Definition checkSkillAchievements (db : Database) (now : Z)
  : list AchievementCheck :=
  analyzeSkillProficiency (sessions db) now ≫= skillCheck now.

Definition checkMilestoneAchievements (db : Database) (now : Z)
  : list AchievementCheck :=
  (match firstSession db with
   | Some first =>
       let daysSinceStart := differenceInDays now first in
       timeMilestones ≫= timeCheck now daysSinceStart
   | None => []
   end)
  ++
  (let count := weekendSessions db in
   if 10 <=? count then
     [ mkCheck true
         (Some (Achievement.mk "weekend_warrior" Achievement.milestone
                  "Weekend Warrior"
                  "Completed 10+ weekend coding sessions!"
                  "🏖️" now
                  (Some [("weekendCount", Metadata.MInt count)])))
         None ]
   else []).

(** [CREATE TABLE IF NOT EXISTS achievements (...)] *)
Definition ensureAchievementsTable (db : Database) : Database :=
  mkDatabase (sessions db) (prompts db) (projects db) (metadata db)
             (Some (default ∅ (achievements db))).

Definition allChecks (db : Database) (now : Z) : list AchievementCheck :=
  checkStreakAchievements db now
  ++ checkSkillAchievements db now
  ++ checkCostAchievements db now
  ++ checkProductivityAchievements db now
  ++ checkMilestoneAchievements db now.

(** [.filter((check) => check.achieved && check.achievement)
     .map((check) => check.achievement!)] *)
Definition achievedOf (checks : list AchievementCheck) : list Achievement.t :=
  checks ≫= λ check,
    if achieved check then option_list (achievement check) else [].

(** [SELECT achievement_id FROM achievements], as the set [unlockedIds]. *)
Definition unlockedIds (db : Database) : gset string :=
  dom (default ∅ (achievements db)).

(** [getNewAchievements(db)] at clock reading [now]: the store it leaves
    (the table now exists) and the array it returns. *)
Definition getNewAchievements (db : Database) (now : Z)
  : Database * list Achievement.t :=
  let db' := ensureAchievementsTable db in
  let achievedList := achievedOf (allChecks db' now) in
  let unlocked := unlockedIds db' in
  (db', filter (λ a, Achievement.id a ∉ unlocked) achievedList).

(** [saveAchievement(db, achievement)]: INSERT OR REPLACE keyed by the id.
    [JSON.stringify(metadata)] is identified with the metadata. *)
Definition saveAchievement (db : Database) (a : Achievement.t) : Database :=
  let db' := ensureAchievementsTable db in
  mkDatabase (sessions db') (prompts db') (projects db') (metadata db')
    (Some (<[Achievement.id a :=
               AchievementRow.mk
                 (Achievement.kindText (Achievement.type a))
                 (Achievement.title a)
                 (Achievement.description a)
                 (Achievement.icon a)
                 (Achievement.unlockedAt a)
                 (Achievement.metadata a)]>
             (default ∅ (achievements db')))).

End WithCollaborators.
End Achievements.

(** ** parsers/history-parser.ts: filters and tallies *)

Module HistoryQueries.

(** [filterByDateRange(entries, startDate, endDate)] *)
Definition filterByDateRange (entries : list HistoryEntry.t)
    (startDate endDate : Z) : list HistoryEntry.t :=
  filter (λ entry, startDate <= HistoryEntry.timestamp entry
                   ∧ HistoryEntry.timestamp entry <= endDate) entries.

(** [filterByProject(entries, projectPath)] *)
Definition filterByProject (entries : list HistoryEntry.t)
    (projectPath : string) : list HistoryEntry.t :=
  filter (λ entry, HistoryEntry.project entry = projectPath) entries.

(** [Array.prototype.sort()] without comparator on strings: ascending by
    character code. *)
Fixpoint insertString (s : string) (l : list string) : list string :=
  match l with
  | [] => [s]
  | x :: l' => if String.leb s x then s :: x :: l' else x :: insertString s l'
  end.

Definition sortStrings (l : list string) : list string :=
  foldr insertString [] l.

(** [getUniqueProjects(entries)]: the projects are added to a [Set], which
    is then turned into an array and sorted. *)
Definition getUniqueProjects (entries : list HistoryEntry.t) : list string :=
  sortStrings (JsMap.setOf (HistoryEntry.project <$> entries)).

(** [getPromptsPerProject(entries)]: one iteration does
    [counts.set(entry.project, (counts.get(entry.project) || 0) + 1)]. *)
Definition getPromptsPerProject (entries : list HistoryEntry.t)
  : list (string * Z) :=
  foldl (λ counts entry,
           JsMap.set (HistoryEntry.project entry)
             (default 0 (JsMap.get (HistoryEntry.project entry) counts) + 1)
             counts)
        [] entries.

End HistoryQueries.

(** ** utils/skill-taxonomy.ts: lookups *)

Module SkillLookup.
Import SkillTaxonomy.

(** [SKILL_TAXONOMY.find((s) => s.name.toLowerCase() === skillName.toLowerCase())] *)
Definition getSkillDefinition (skillName : string) : option SkillDefinition :=
  List.find (λ s, bool_decide (toLowerCase (name s) = toLowerCase skillName))
            SKILL_TAXONOMY.

(** [skill?.relatedSkills || []]: an array is truthy even when empty. *)
Definition getRelatedSkills (skillName : string) : list string :=
  from_option relatedSkills [] (getSkillDefinition skillName).

Definition getLearningPath (skillName : string) : list string :=
  from_option learningPath [] (getSkillDefinition skillName).

End SkillLookup.

(** ** hooks/post-session.ts *)

Module PostSessionHook.
Import Schema Sync Achievements.

(** [main()], between opening and closing the store: sync at the clock
    reading [syncTime], check for new achievements at the clock reading
    [checkTime], save each of them.  The store it leaves and the achievements
    it announces; the notification is sent afterwards and writes nothing. *)
Definition main (differenceInDays : Z → Z → Z)
    (analyzeSkillProficiency : gmap string SessionRow.t → Z → list SkillProficiency)
    (db : Database) (historyEntries : list HistoryEntry.t)
    (configProjects : list (string * ProjectMetrics.t)) (syncTime checkTime : Z)
  : Database * list Achievement.t :=
  let synced := (syncData db historyEntries configProjects syncTime).1 in
  let checked :=
    getNewAchievements differenceInDays analyzeSkillProficiency synced checkTime in
  (foldl saveAchievement checked.1 checked.2, checked.2).

End PostSessionHook.

(** ** parsers/project-parser.ts: rankings *)

Module ProjectParser.

(** [Array.prototype.sort((a, b) => key(b) - key(a))] on integer keys:
    descending by key, entries with equal keys staying in their order. *)
Fixpoint insertDescBy {A} (key : A → Z) (x : A) (l : list A) : list A :=
  match l with
  | [] => [x]
  | y :: l' =>
      if key y <=? key x then x :: y :: l' else y :: insertDescBy key x l'
  end.

Definition sortDescBy {A} (key : A → Z) (l : list A) : list A :=
  foldr (insertDescBy key) [] l.

(** [Array.prototype.slice(0, limit)] for an integer [limit]: a negative
    limit counts from the end of the array. *)
Definition slice0 {A} (limit : Z) (l : list A) : list A :=
  if limit <? 0 then take (Z.to_nat (Z.of_nat (length l) + limit)) l
  else take (Z.to_nat limit) l.

Record ByDuration : Type := mkByDuration {
  bd_path : string;
  bd_duration : Z;
}.

(** [getTopProjectsByDuration(config, limit)], on the entries of
    [config.projects]. *)
Definition getTopProjectsByDuration
    (configProjects : list (string * ProjectMetrics.t)) (limit : Z)
  : list ByDuration :=
  slice0 limit
    (sortDescBy bd_duration
       (filter (λ p, 0 < bd_duration p)
          ((λ '(path, metrics),
              mkByDuration path (ProjectMetrics.lastDuration metrics))
           <$> configProjects))).

Record ByLinesChanged : Type := mkByLinesChanged {
  bl_path : string;
  bl_linesAdded : Z;
  bl_linesRemoved : Z;
  bl_total : Z;
}.

(** [getTopProjectsByLinesChanged(config, limit)] *)
Definition getTopProjectsByLinesChanged
    (configProjects : list (string * ProjectMetrics.t)) (limit : Z)
  : list ByLinesChanged :=
  slice0 limit
    (sortDescBy bl_total
       (filter (λ p, 0 < bl_total p)
          ((λ '(path, metrics),
              let added := ProjectMetrics.lastLinesAdded metrics in
              let removed := ProjectMetrics.lastLinesRemoved metrics in
              mkByLinesChanged path added removed (added + removed))
           <$> configProjects))).

End ProjectParser.

(** ** utils/habit-detector.ts: time-of-day and day-of-week patterns *)

Module HabitPatterns.
Import Schema SqlDates.
Local Set Warnings "-inexact-float".

(** [Array.prototype.sort((a, b) => b.confidence - a.confidence)]: an entry
    moves behind a later one only when the later one's confidence minus its
    own is positive. *)
Fixpoint insertByConfidence {A} (confidence : A → float) (x : A) (l : list A)
  : list A :=
  match l with
  | [] => [x]
  | y :: l' =>
      if (0 <? confidence y - confidence x)%float
      then y :: insertByConfidence confidence x l'
      else x :: y :: l'
  end.

Definition sortByConfidence {A} (confidence : A → float) (l : list A) : list A :=
  foldr (insertByConfidence confidence) [] l.

(** The start times that pass [WHERE start_time >= datetime('now', '-30 days')],
    a comparison of texts decided by the date parts as in [recentDays]. *)
Definition recentStarts (db : Database) (now : Z) : list Z :=
  filter (λ t, DATE (now - 30 * msPerDay) <= DATE t)
         (SessionRow.start_time <$> rows (sessions db)).

(** [parseInt(strftime('%H', start_time))]: the UTC hour of an instant. *)
Definition hourOf (t : Z) : Z := (t `mod` msPerDay) / 3600000.

(** The sum of [session_count] over the groups that pass a filter: the
    number of sessions whose group passes it. *)
Definition countWhere (passes : Z → bool) (starts : list Z) : Z :=
  Z.of_nat (length (filter (λ t, passes t = true) starts)).

Record TimePattern : Type := mkTimePattern {
  tp_name : string;
  tp_description : string;
  tp_hourRange : Z * Z;
  tp_frequency : Z;
  tp_confidence : float;
}.

(** One [if (... / totalSessions > threshold) patterns.push({...})]. *)
Definition timePattern (name description : string) (hourRange : Z * Z)
    (threshold : float) (count totalSessions : Z) : list TimePattern :=
  if (threshold <? ofZ count / ofZ totalSessions)%float then
    [ mkTimePattern name description hourRange count
        (SkillProficiency.Math_min 95
           (ofZ count / ofZ totalSessions * 100)%float) ]
  else [].

Definition detectTimePatterns (db : Database) (now : Z) : list TimePattern :=
  let starts := recentStarts db now in
  let totalSessions := Z.of_nat (length starts) in
  let morningSessions :=
    countWhere (λ t, (6 <=? hourOf t) && (hourOf t <? 12)) starts in
  let afternoonSessions :=
    countWhere (λ t, (12 <=? hourOf t) && (hourOf t <? 17)) starts in
  let eveningSessions :=
    countWhere (λ t, (17 <=? hourOf t) && (hourOf t <? 22)) starts in
  let nightSessions :=
    countWhere (λ t, (22 <=? hourOf t) || (hourOf t <? 6)) starts in
  sortByConfidence tp_confidence
    (timePattern "Morning Coder" "Most productive in the morning (6am-12pm)"
       (6, 12) 0.3 morningSessions totalSessions
     ++ timePattern "Afternoon Achiever"
          "Peak productivity in the afternoon (12pm-5pm)"
          (12, 17) 0.3 afternoonSessions totalSessions
     ++ timePattern "Evening Engineer" "Most active in the evening (5pm-10pm)"
          (17, 22) 0.3 eveningSessions totalSessions
     ++ timePattern "Night Owl" "Codes late into the night (10pm-6am)"
          (22, 6) 0.2 nightSessions totalSessions).

Record DayPattern : Type := mkDayPattern {
  dp_name : string;
  dp_description : string;
  dp_days : list Z;
  dp_frequency : Z;
  dp_confidence : float;
}.

Definition detectDayPatterns (db : Database) (now : Z) : list DayPattern :=
  let starts := recentStarts db now in
  let totalSessions := Z.of_nat (length starts) in
  let weekendSessions :=
    countWhere (λ t, (weekday t =? 0) || (weekday t =? 6)) starts in
  let weekdaySessions :=
    countWhere (λ t, (1 <=? weekday t) && (weekday t <=? 5)) starts in
  sortByConfidence dp_confidence
    ((if (0.35 <? ofZ weekendSessions / ofZ totalSessions)%float then
        [ mkDayPattern "Weekend Warrior" "Most active on weekends" [0; 6]
            weekendSessions
            (SkillProficiency.Math_min 95
               (ofZ weekendSessions / ofZ totalSessions * 100 * 1.5)%float) ]
      else [])
     ++
     (if (0.6 <? ofZ weekdaySessions / ofZ totalSessions)%float then
        [ mkDayPattern "Weekday Grinder" "Consistent weekday productivity"
            [1; 2; 3; 4; 5] weekdaySessions
            (SkillProficiency.Math_min 95
               (ofZ weekdaySessions / ofZ totalSessions * 100)%float) ]
      else [])).

End HabitPatterns.

(** * Part II: facts and claims *)

(** ** Facts about the sort *)

Module SortFacts.
Import HistoryParser.

Definition le_ts (a b : HistoryEntry.t) : Prop :=
  HistoryEntry.timestamp a <= HistoryEntry.timestamp b.

Lemma insertByTimestamp_Permutation e l : insertByTimestamp e l ≡ₚ e :: l.
Proof.
  induction l as [|x l IH]; simpl; [done|].
  case_match; [done|]. rewrite IH. apply Permutation_swap.
Qed.

Lemma sortByTimestamp_Permutation l : sortByTimestamp l ≡ₚ l.
Proof.
  induction l as [|x l IH]; simpl; [done|].
  by rewrite insertByTimestamp_Permutation, IH.
Qed.

Lemma sortByTimestamp_length l : length (sortByTimestamp l) = length l.
Proof. by rewrite sortByTimestamp_Permutation. Qed.

Lemma insertByTimestamp_sorted e l :
  StronglySorted le_ts l → StronglySorted le_ts (insertByTimestamp e l).
Proof.
  induction 1 as [|x l Hl IH Hx]; simpl.
  - repeat constructor.
  - case_match eqn:Hcmp.
    + apply Z.leb_le in Hcmp. constructor; [by constructor|].
      constructor; [done|].
      eapply Forall_impl; [exact Hx|]. unfold le_ts in *. intros; lia.
    + apply Z.leb_gt in Hcmp. constructor; [done|].
      rewrite insertByTimestamp_Permutation. constructor; [|done].
      unfold le_ts. lia.
Qed.

Lemma sortByTimestamp_sorted l : StronglySorted le_ts (sortByTimestamp l).
Proof.
  induction l; simpl; [constructor|by apply insertByTimestamp_sorted].
Qed.

Lemma StronglySorted_lookup {A} (R : relation A) (l : list A) i j a b :
  StronglySorted R l → (i < j)%nat → l !! i = Some a → l !! j = Some b → R a b.
Proof.
  intros Hl. revert i j.
  induction Hl as [|x l Hl IH Hx]; intros i j Hij Hi Hj; [done|].
  destruct j as [|j]; [lia|]. destruct i as [|i]; simpl in *.
  - simplify_eq. rewrite Forall_forall in Hx. apply Hx.
    by eapply list_elem_of_lookup_2.
  - eapply (IH i j); [lia|done..].
Qed.
End SortFacts.

(** ** Invariants of the grouping loop *)

Module GroupFacts.
Import HistoryParser SortFacts.

Definition before (a b : Session.t) : Prop :=
  Session.endTime a <= Session.startTime b.

Definition curLen (cur : option CurrentSession) : nat :=
  match cur with Some c => length (cs_prompts c) | None => 0%nat end.

(** Prompts accounted for so far: those of the pushed sessions and those held
    by the open accumulator. *)
Definition total (st : LoopState) : nat :=
  (sum_list_with Session.promptCount st.1 + curLen st.2)%nat.

Lemma pushSession_count sessions c :
  sum_list_with Session.promptCount (pushSession sessions c)
  = (sum_list_with Session.promptCount sessions + length (cs_prompts c))%nat.
Proof.
  unfold pushSession. destruct (cs_prompts c) as [|p0 ps] eqn:Hp; simpl.
  - lia.
  - rewrite sum_list_with_app. simpl. lia.
Qed.

Lemma pushSession_length sessions c :
  cs_prompts c ≠ [] → length (pushSession sessions c) = S (length sessions).
Proof.
  unfold pushSession. destruct (cs_prompts c); [done|].
  intros _. rewrite length_app. simpl. lia.
Qed.

Lemma step_total gap st e : total (step gap st e) = S (total st).
Proof.
  destruct st as [sessions [c|]]; unfold step, total; simpl.
  - case_match; simpl.
    + rewrite pushSession_count. lia.
    + rewrite length_app. simpl. lia.
  - lia.
Qed.

Lemma foldl_step_total gap l st :
  total (foldl (step gap) st l) = (total st + length l)%nat.
Proof.
  revert st. induction l as [|e l IH]; intros st; simpl; [lia|].
  rewrite IH, step_total. lia.
Qed.

Lemma finish_total st : sum_list_with Session.promptCount (finish st) = total st.
Proof.
  destruct st as [sessions [c|]]; unfold finish, total; simpl.
  - apply pushSession_count.
  - lia.
Qed.

(** Whatever the branch taken, after the iteration for [e] the accumulator is
    open, carries [e]'s identifier and project, ends at [e] and is non-empty. *)
Lemma step_cur gap st e :
  ∃ c, (step gap st e).2 = Some c
       ∧ cs_sessionId c = HistoryEntry.sessionId e
       ∧ cs_project c = HistoryEntry.project e
       ∧ cs_endTime c = HistoryEntry.timestamp e
       ∧ cs_prompts c ≠ [].
Proof.
  destruct st as [sessions [c|]]; unfold step.
  - destruct (shouldStartNew (Some c) e gap) eqn:Hnew; simpl.
    + eexists; split; [done|]. simpl. done.
    + eexists; split; [done|]. simpl.
      unfold shouldStartNew in Hnew.
      apply orb_false_elim in Hnew as [Hnew _].
      apply orb_false_elim in Hnew as [Hid Hproj].
      apply negb_false_iff, bool_decide_eq_true in Hid, Hproj.
      repeat split; try done. intros [_ ?]%app_nil. done.
  - simpl. eexists; split; [done|]. simpl. done.
Qed.

(** The Session invariant of the data model: end is not before start, at
    least one prompt, and duration is end minus start. *)
Definition wfSession (s : Session.t) : Prop :=
  Session.startTime s <= Session.endTime s
  ∧ (1 <= Session.promptCount s)%nat
  ∧ Session.duration s = Session.endTime s - Session.startTime s.

Record TimeInv (st : LoopState) : Prop := mkTimeInv {
  ti_chain : StronglySorted before st.1;
  ti_wf : Forall wfSession st.1;
  ti_cur : ∀ c, st.2 = Some c →
    cs_startTime c <= cs_endTime c
    ∧ Forall (λ s, Session.endTime s <= cs_startTime c) st.1;
  ti_none : st.2 = None → st.1 = [];
}.

Lemma pushSession_chain sessions c :
  StronglySorted before sessions →
  Forall (λ s, Session.endTime s <= cs_startTime c) sessions →
  StronglySorted before (pushSession sessions c).
Proof.
  intros Hchain Hall. unfold pushSession.
  destruct (cs_prompts c) as [|p0 ps]; [done|].
  apply StronglySorted_app_2; [|done|repeat constructor].
  intros s1 s2 Hs1 ->%list_elem_of_singleton. unfold before; simpl.
  rewrite Forall_forall in Hall. by apply Hall.
Qed.

Lemma pushSession_ends sessions c (b : Z) :
  cs_startTime c <= cs_endTime c → cs_endTime c <= b →
  Forall (λ s, Session.endTime s <= cs_startTime c) sessions →
  Forall (λ s, Session.endTime s <= b) (pushSession sessions c).
Proof.
  intros Hse Hb Hall. unfold pushSession.
  assert (Forall (λ s, Session.endTime s <= b) sessions) as Hall'.
  { eapply Forall_impl; [exact Hall|]. simpl. intros; lia. }
  destruct (cs_prompts c) as [|p0 ps]; [done|].
  apply Forall_app; split; [done|]. repeat constructor. simpl. lia.
Qed.

Lemma pushSession_wf sessions c :
  cs_startTime c <= cs_endTime c →
  Forall wfSession sessions → Forall wfSession (pushSession sessions c).
Proof.
  intros Hc Hall. unfold pushSession. destruct (cs_prompts c); [done|].
  apply Forall_app; split; [done|].
  constructor; [|constructor]. unfold wfSession; simpl. lia.
Qed.

Lemma step_TimeInv gap st e :
  TimeInv st →
  (∀ c, st.2 = Some c → cs_endTime c <= HistoryEntry.timestamp e) →
  TimeInv (step gap st e).
Proof.
  intros [Hchain Hwf Hcur Hnone] Hle. destruct st as [sessions [c|]]; simpl in *.
  - destruct (Hcur c eq_refl) as [Hse Hall]. specialize (Hle c eq_refl).
    unfold step. case_match; split; simpl; try done.
    + by apply pushSession_chain.
    + by apply pushSession_wf.
    + intros c' [= <-]; simpl. split; [lia|]. by apply pushSession_ends.
    + intros c' [= <-]; simpl. split; [lia|done].
  - rewrite (Hnone eq_refl). split; simpl; try done.
    + constructor.
    + intros c' [= <-]; simpl. split; [lia|constructor].
Qed.

Lemma foldl_step_TimeInv gap l st :
  StronglySorted le_ts l →
  TimeInv st →
  (∀ c e, st.2 = Some c → e ∈ l → cs_endTime c <= HistoryEntry.timestamp e) →
  TimeInv (foldl (step gap) st l).
Proof.
  intros Hl. revert st.
  induction Hl as [|e l Hl IH He]; intros st Hinv Hle; simpl; [done|].
  apply IH.
  - apply step_TimeInv; [done|]. intros c Hc. eapply Hle; [done|left].
  - intros c e' Hc He'.
    destruct (step_cur gap st e) as (c' & Hc' & _ & _ & Hend & _).
    rewrite Hc in Hc'. injection Hc' as <-. rewrite Hend.
    rewrite Forall_forall in He. by apply He.
Qed.

Lemma finish_chain st : TimeInv st → StronglySorted before (finish st).
Proof.
  intros [Hchain _ Hcur _]. destruct st as [sessions [c|]]; unfold finish; simpl in *.
  - destruct (Hcur c eq_refl). by apply pushSession_chain.
  - done.
Qed.

Lemma finish_wf st : TimeInv st → Forall wfSession (finish st).
Proof.
  intros [_ Hwf Hcur _]. destruct st as [sessions [c|]]; unfold finish; simpl in *.
  - destruct (Hcur c eq_refl). by apply pushSession_wf.
  - done.
Qed.

Lemma TimeInv_init : TimeInv ([], None).
Proof. split; simpl; [constructor|constructor|done|done]. Qed.

Lemma groupIntoSessions_chain entries gap :
  StronglySorted before (groupIntoSessions entries gap).
Proof.
  unfold groupIntoSessions. destruct entries as [|e0 entries]; [constructor|].
  apply finish_chain, foldl_step_TimeInv.
  - apply sortByTimestamp_sorted.
  - apply TimeInv_init.
  - done.
Qed.

Lemma groupIntoSessions_count entries gap :
  sum_list_with Session.promptCount (groupIntoSessions entries gap)
  = length entries.
Proof.
  unfold groupIntoSessions. destruct entries as [|e0 entries]; [done|].
  rewrite finish_total, foldl_step_total, sortByTimestamp_length.
  unfold total. simpl. lia.
Qed.

Lemma groupIntoSessions_wf entries gap :
  Forall wfSession (groupIntoSessions entries gap).
Proof.
  unfold groupIntoSessions. destruct entries as [|e0 entries]; [constructor|].
  apply finish_wf, foldl_step_TimeInv.
  - apply sortByTimestamp_sorted.
  - apply TimeInv_init.
  - done.
Qed.

(** *** Sessions are only ever appended *)

Lemma pushSession_prefix sessions c : sessions `prefix_of` pushSession sessions c.
Proof.
  unfold pushSession. destruct (cs_prompts c); [done|]. by apply prefix_app_r.
Qed.

Lemma step_prefix gap st e : st.1 `prefix_of` (step gap st e).1.
Proof.
  destruct st as [sessions [c|]]; unfold step; simpl.
  - case_match; simpl; [apply pushSession_prefix|done].
  - done.
Qed.

Lemma foldl_step_prefix gap l st : st.1 `prefix_of` (foldl (step gap) st l).1.
Proof.
  revert st. induction l as [|e l IH]; intros st; simpl; [done|].
  etrans; [apply step_prefix|apply IH].
Qed.

Lemma finish_prefix st : st.1 `prefix_of` finish st.
Proof.
  destruct st as [sessions [c|]]; unfold finish; simpl;
    [apply pushSession_prefix|done].
Qed.

Lemma pushSession_lookup sessions c :
  cs_prompts c ≠ [] →
  ∃ s, pushSession sessions c !! length sessions = Some s
       ∧ Session.sessionId s = sessionIdOr (cs_sessionId c) (length sessions)
       ∧ Session.project s = cs_project c
       ∧ Session.startTime s = cs_startTime c
       ∧ Session.endTime s = cs_endTime c
       ∧ Session.promptCount s = length (cs_prompts c).
Proof.
  intros Hne. unfold pushSession. destruct (cs_prompts c) as [|p0 ps]; [done|].
  eexists. split; [apply list_lookup_middle; done|]. simpl. done.
Qed.

(** The accumulator that is open in state [st] becomes the output session of
    index [length st.1], keeping its identifier, project and start. *)
Lemma open_session_output gap l st c :
  st.2 = Some c → cs_prompts c ≠ [] →
  ∃ s, finish (foldl (step gap) st l) !! length st.1 = Some s
       ∧ Session.sessionId s = sessionIdOr (cs_sessionId c) (length st.1)
       ∧ Session.project s = cs_project c
       ∧ Session.startTime s = cs_startTime c.
Proof.
  revert st c. induction l as [|e l IH]; intros [sessions cur] c Hc Hne;
    simpl in Hc; subst cur.
  - simpl. unfold finish; simpl.
    destruct (pushSession_lookup sessions c Hne) as (s & Hs & ? & ? & ? & _).
    by exists s.
  - simpl. case_match eqn:Hnew.
    + destruct (pushSession_lookup sessions c Hne) as (s & Hs & ? & ? & ? & _).
      exists s. split; [|done]. simpl.
      eapply prefix_lookup_Some; [exact Hs|].
      etrans; [|apply finish_prefix]. apply (foldl_step_prefix gap l (_, _)).
    + edestruct (IH (sessions, Some (mkCurrent (cs_sessionId c) (cs_project c)
                       (cs_startTime c) (HistoryEntry.timestamp e)
                       (cs_prompts c ++ [e]))))
        as (s & Hs & ? & ? & ?); [done| |].
      { simpl. intros [_ ?]%app_nil. done. }
      exists s. done.
Qed.

(** *** Placements, read off the prefixes of the sorted input *)

Lemma placementsFrom_length gap l st : length (placementsFrom gap st l) = length l.
Proof. revert st. induction l; intros; simpl; [done|]. by rewrite IHl. Qed.

Lemma placementsFrom_lookup gap l st i :
  (i < length l)%nat →
  placementsFrom gap st l !! i
  = Some (length (foldl (step gap) st (take (S i) l)).1).
Proof.
  revert st i. induction l as [|e l IH]; intros st i Hi; simpl in *; [lia|].
  destruct i as [|i]; simpl.
  - done.
  - apply IH. lia.
Qed.

Lemma foldl_take_S gap (l : list HistoryEntry.t) st i e :
  l !! i = Some e →
  foldl (step gap) st (take (S i) l) = step gap (foldl (step gap) st (take i l)) e.
Proof. intros Hi. by rewrite (take_S_r _ _ _ Hi), foldl_app. Qed.

(** The session that the placement of an entry names carries the entry's
    project, and its identifier is the entry's own or, when the entry has
    none, the placeholder of that index. *)
Lemma placement_session entries gap i e k :
  sortByTimestamp entries !! i = Some e →
  placements entries gap !! i = Some k →
  ∃ s, groupIntoSessions entries gap !! k = Some s
       ∧ Session.sessionId s = sessionIdOr (HistoryEntry.sessionId e) k
       ∧ Session.project s = HistoryEntry.project e.
Proof.
  intros He Hk. unfold placements in Hk.
  rewrite placementsFrom_lookup in Hk by (by eapply lookup_lt_Some).
  injection Hk as <-.
  unfold groupIntoSessions. destruct entries as [|e0 entries]; [done|].
  set (l := sortByTimestamp (e0 :: entries)) in *.
  assert (foldl (step gap) ([], None) l
          = foldl (step gap) (foldl (step gap) ([], None) (take (S i) l))
                  (drop (S i) l)) as ->.
  { by rewrite <-foldl_app, take_drop. }
  set (st := foldl (step gap) ([], None) (take (S i) l)).
  assert (st = step gap (foldl (step gap) ([], None) (take i l)) e) as Hst
    by (by apply foldl_take_S).
  destruct (step_cur gap (foldl (step gap) ([], None) (take i l)) e)
    as (c & Hc & Hid & Hproj & _ & Hne).
  rewrite <-Hst in Hc.
  destruct (open_session_output gap (drop (S i) l) st c Hc Hne)
    as (s & Hs & Hsid & Hsp & _).
  exists s. by rewrite <-Hid, <-Hproj.
Qed.

(** The session an entry is placed in spans the entry's timestamp. *)
Lemma open_session_end gap l st c s :
  st.2 = Some c → cs_prompts c ≠ [] →
  StronglySorted le_ts l →
  (∀ e, e ∈ l → cs_endTime c <= HistoryEntry.timestamp e) →
  finish (foldl (step gap) st l) !! length st.1 = Some s →
  cs_endTime c <= Session.endTime s.
Proof.
  intros Hc Hne Hl. revert st c Hc Hne.
  induction Hl as [|e l Hl IH He]; intros [sessions cur] c Hc Hne Hle Hs;
    simpl in Hc; subst cur.
  - unfold finish in Hs; simpl in Hs.
    destruct (pushSession_lookup sessions c Hne) as (s' & Hs' & _ & _ & _ & Hend & _).
    simpl in Hs. rewrite Hs' in Hs. injection Hs as <-. lia.
  - simpl in Hs. destruct (shouldStartNew (Some c) e gap) eqn:Hnew.
    + destruct (pushSession_lookup sessions c Hne) as (s' & Hs' & _ & _ & _ & Hend & _).
      assert (finish (foldl (step gap)
                (pushSession sessions c,
                 Some (mkCurrent (HistoryEntry.sessionId e)
                         (HistoryEntry.project e) (HistoryEntry.timestamp e)
                         (HistoryEntry.timestamp e) [e])) l)
              !! length sessions = Some s') as Hs''.
      { eapply prefix_lookup_Some; [exact Hs'|].
        etrans; [|apply finish_prefix]. apply (foldl_step_prefix gap l (_, _)). }
      unfold shouldStartNew in Hnew. rewrite Hnew in Hs. simpl in Hs.
      rewrite Hs'' in Hs. injection Hs as <-. lia.
    + unfold shouldStartNew in Hnew. rewrite Hnew in Hs.
      specialize (Hle e ltac:(left)) as Hce.
      etrans; [exact Hce|].
      apply (IH (sessions,
                 Some (mkCurrent (cs_sessionId c) (cs_project c)
                         (cs_startTime c) (HistoryEntry.timestamp e)
                         (cs_prompts c ++ [e])))
                (mkCurrent (cs_sessionId c) (cs_project c)
                   (cs_startTime c) (HistoryEntry.timestamp e)
                   (cs_prompts c ++ [e])) eq_refl); [| |exact Hs].
      * simpl. intros [_ ?]%app_nil. done.
      * simpl. intros e' He'. rewrite Forall_forall in He. by apply He.
Qed.

Lemma placement_times entries gap i e k s :
  sortByTimestamp entries !! i = Some e →
  placements entries gap !! i = Some k →
  groupIntoSessions entries gap !! k = Some s →
  Session.startTime s <= HistoryEntry.timestamp e <= Session.endTime s.
Proof.
  intros He Hk Hs. unfold placements in Hk.
  rewrite placementsFrom_lookup in Hk by (by eapply lookup_lt_Some).
  injection Hk as <-.
  unfold groupIntoSessions in Hs. destruct entries as [|e0 entries]; [done|].
  set (l := sortByTimestamp (e0 :: entries)) in *.
  pose proof (sortByTimestamp_sorted (e0 :: entries)) as Hsorted. fold l in Hsorted.
  rewrite <-(take_drop (S i) l) in Hsorted.
  assert (foldl (step gap) ([], None) l
          = foldl (step gap) (foldl (step gap) ([], None) (take (S i) l))
                  (drop (S i) l)) as Hsplit.
  { by rewrite <-foldl_app, take_drop. }
  rewrite Hsplit in Hs.
  set (st := foldl (step gap) ([], None) (take (S i) l)) in *.
  assert (st = step gap (foldl (step gap) ([], None) (take i l)) e) as Hst
    by (by apply foldl_take_S).
  destruct (step_cur gap (foldl (step gap) ([], None) (take i l)) e)
    as (c & Hc & _ & _ & Hend & Hne).
  rewrite <-Hst in Hc.
  assert (TimeInv st) as Hinv.
  { apply foldl_step_TimeInv; [|apply TimeInv_init|done].
    by apply StronglySorted_app_1_l in Hsorted. }
  destruct (ti_cur st Hinv c Hc) as [Hse _].
  destruct (open_session_output gap (drop (S i) l) st c Hc Hne)
    as (s' & Hs' & _ & _ & Hstart).
  rewrite Hs' in Hs. injection Hs as ->.
  split; [lia|]. rewrite <-Hend.
  apply (open_session_end gap (drop (S i) l) st c s Hc Hne); [| |done].
  - by apply StronglySorted_app_1_r in Hsorted.
  - intros e' He'. rewrite Hend.
    apply (StronglySorted_app_1_elem_of le_ts _ _ e e' Hsorted); [|done].
    rewrite (take_S_r _ _ _ He). apply elem_of_app. right. left.
Qed.

(** *** Each session counts exactly the entries placed in it *)

Definition placedAt (k : nat) (ps : list nat) : nat :=
  length (filter (λ p, p = k) ps).

Lemma placedAt_cons k p ps :
  placedAt k (p :: ps) = ((if decide (p = k) then 1 else 0) + placedAt k ps)%nat.
Proof.
  unfold placedAt. destruct (decide (p = k)).
  - by rewrite filter_cons_True.
  - by rewrite filter_cons_False.
Qed.

Lemma placedAt_below k ps (n : nat) :
  Forall (λ p, (n <= p)%nat) ps → (k < n)%nat → placedAt k ps = 0%nat.
Proof.
  induction 1 as [|p ps Hp _ IH]; intros Hk; [done|].
  rewrite placedAt_cons, IH by done. destruct (decide (p = k)); [lia|done].
Qed.

Lemma placementsFrom_lower gap l st :
  Forall (λ p, (length st.1 <= p)%nat) (placementsFrom gap st l).
Proof.
  revert st. induction l as [|e l IH]; intros st; simpl; [constructor|].
  pose proof (prefix_length _ _ (step_prefix gap st e)) as Hlen.
  constructor; [done|].
  eapply Forall_impl; [apply IH|]. simpl. intros; lia.
Qed.

Lemma finish_length st : (length (finish st) <= S (length st.1))%nat.
Proof.
  destruct st as [sessions [c|]]; unfold finish, pushSession; simpl; [|lia].
  destruct (cs_prompts c); [lia|]. rewrite length_app. simpl. lia.
Qed.

(** An iteration either leaves [sessions] alone and adds the entry to the
    accumulator (possibly a fresh one), or pushes a non-empty accumulator and
    opens a new one holding just the entry. *)
Lemma step_cases gap st e :
  ((step gap st e).1 = st.1 ∧ curLen (step gap st e).2 = S (curLen st.2))
  ∨ (∃ c, st.2 = Some c ∧ cs_prompts c ≠ []
          ∧ (step gap st e).1 = pushSession st.1 c
          ∧ curLen (step gap st e).2 = 1%nat).
Proof.
  destruct st as [sessions [c|]]; unfold step; simpl.
  - case_match; simpl.
    + destruct (decide (cs_prompts c = [])) as [Hnil|Hne].
      * left. unfold pushSession. rewrite Hnil. done.
      * right. by exists c.
    + left. rewrite length_app. simpl. split; [done|lia].
  - by left.
Qed.

Lemma placement_count_from gap l st k s :
  finish (foldl (step gap) st l) !! k = Some s →
  (length st.1 <= k)%nat →
  Session.promptCount s
  = ((if decide (k = length st.1) then curLen st.2 else 0)
     + placedAt k (placementsFrom gap st l))%nat.
Proof.
  revert st. induction l as [|e l IH]; intros st Hs Hk; cbn [foldl placementsFrom] in *.
  - unfold placedAt; simpl. rewrite Nat.add_0_r.
    pose proof (finish_length st) as Hlen.
    apply lookup_lt_Some in Hs as Hlt.
    destruct (decide (k = length st.1)) as [->|]; [|lia].
    destruct st as [sessions [c|]]; unfold finish in *; simpl in *; [|lia].
    destruct (decide (cs_prompts c = [])) as [Hnil|Hne].
    + unfold pushSession in Hlt. rewrite Hnil in Hlt. lia.
    + destruct (pushSession_lookup sessions c Hne) as (s' & Hs' & _ & _ & _ & _ & ?).
      congruence.
  - rewrite placedAt_cons.
    destruct (step_cases gap st e) as [[Hsame Hcur]|(c & Hc & Hne & Hpush & Hcur)].
    + (* nothing pushed *)
      rewrite (IH _ Hs) by (rewrite Hsame; done). rewrite Hsame, Hcur.
      destruct (decide (length st.1 = k)), (decide (k = length st.1)); lia.
    + (* the accumulator [c] was pushed at index [length st.1] *)
      pose proof (pushSession_length st.1 c Hne) as Hlen. rewrite <-Hpush in Hlen.
      destruct (decide (k = length st.1)) as [->|Hk'].
      * rewrite (placedAt_below _ _ (length (step gap st e).1))
          by (try apply placementsFrom_lower; lia).
        rewrite decide_False by lia.
        destruct (pushSession_lookup st.1 c Hne)
          as (s' & Hs' & _ & _ & _ & _ & Hcount).
        assert (finish (foldl (step gap) (step gap st e) l) !! length st.1
                = Some s') as Hs''.
        { eapply prefix_lookup_Some; [exact Hs'|]. rewrite <-Hpush.
          etrans; [|apply finish_prefix]. apply foldl_step_prefix. }
        rewrite Hs'' in Hs. injection Hs as <-.
        rewrite Hc. simpl. lia.
      * rewrite (IH _ Hs) by lia. rewrite Hcur, Hlen.
        destruct (decide (S (length st.1) = k)), (decide (k = S (length st.1))); lia.
Qed.

Lemma placement_count entries gap k s :
  groupIntoSessions entries gap !! k = Some s →
  Session.promptCount s = placedAt k (placements entries gap).
Proof.
  unfold groupIntoSessions, placements.
  destruct entries as [|e0 entries]; [done|]. intros Hs.
  rewrite (placement_count_from gap _ ([], None) k s Hs) by (simpl; lia).
  simpl. destruct (decide (k = 0%nat)); lia.
Qed.

(** *** The gap rule on neighbours in timestamp order *)

Lemma step_after_gap gap st a b :
  gap < HistoryEntry.timestamp b - HistoryEntry.timestamp a →
  length (step gap (step gap st a) b).1 = S (length (step gap st a).1).
Proof.
  intros Hgap.
  destruct (step_cur gap st a) as (c & Hc & _ & _ & Hend & Hne).
  destruct (step gap st a) as [sessions cur]; simpl in *; subst cur.
  unfold step, shouldStartNew.
  replace (gap <? HistoryEntry.timestamp b - cs_endTime c) with true
    by (symmetry; apply Z.ltb_lt; lia).
  rewrite orb_true_r. simpl. by apply pushSession_length.
Qed.

Lemma step_within_gap gap st a b :
  HistoryEntry.project b = HistoryEntry.project a →
  HistoryEntry.sessionId b = HistoryEntry.sessionId a →
  HistoryEntry.timestamp b - HistoryEntry.timestamp a <= gap →
  (step gap (step gap st a) b).1 = (step gap st a).1.
Proof.
  intros Hproj Hid Hgap.
  destruct (step_cur gap st a) as (c & Hc & Hcid & Hcproj & Hend & Hne).
  destruct (step gap st a) as [sessions cur]; simpl in *; subst cur.
  unfold step, shouldStartNew.
  rewrite !bool_decide_eq_true_2 by congruence. simpl.
  replace (gap <? HistoryEntry.timestamp b - cs_endTime c) with false
    by (symmetry; apply Z.ltb_ge; lia).
  done.
Qed.

Lemma placementsFrom_adjacent gap l st i a b :
  l !! i = Some a → l !! S i = Some b →
  ∃ st',
    placementsFrom gap st l !! i = Some (length (step gap st' a).1)
    ∧ placementsFrom gap st l !! S i
      = Some (length (step gap (step gap st' a) b).1).
Proof.
  intros Ha Hb. exists (foldl (step gap) st (take i l)).
  rewrite !placementsFrom_lookup by (by eapply lookup_lt_Some).
  rewrite (foldl_take_S _ _ _ _ _ Hb), (foldl_take_S _ _ _ _ _ Ha). done.
Qed.

Lemma placements_split_after_gap gap l st i a b :
  l !! i = Some a → l !! S i = Some b →
  gap < HistoryEntry.timestamp b - HistoryEntry.timestamp a →
  placementsFrom gap st l !! S i = S <$> placementsFrom gap st l !! i.
Proof.
  intros Ha Hb Hgap.
  destruct (placementsFrom_adjacent gap l st i a b Ha Hb) as (st' & -> & ->).
  simpl. by rewrite step_after_gap.
Qed.

Lemma placements_join_within_gap gap l st i a b :
  l !! i = Some a → l !! S i = Some b →
  HistoryEntry.project b = HistoryEntry.project a →
  HistoryEntry.sessionId b = HistoryEntry.sessionId a →
  HistoryEntry.timestamp b - HistoryEntry.timestamp a <= gap →
  placementsFrom gap st l !! S i = placementsFrom gap st l !! i.
Proof.
  intros Ha Hb Hproj Hid Hgap.
  destruct (placementsFrom_adjacent gap l st i a b Ha Hb) as (st' & -> & ->).
  by rewrite step_within_gap.
Qed.

(** A stretch of the sorted input whose entries all carry one project and
    one identifier and lie within the gap of its first entry is placed in a
    single session. *)
Lemma placements_run gap l st i d a :
  StronglySorted le_ts l →
  l !! i = Some a →
  (i + d < length l)%nat →
  (∀ m e, (i <= m <= i + d)%nat → l !! m = Some e →
     HistoryEntry.project e = HistoryEntry.project a
     ∧ HistoryEntry.sessionId e = HistoryEntry.sessionId a
     ∧ HistoryEntry.timestamp e - HistoryEntry.timestamp a <= gap) →
  placementsFrom gap st l !! (i + d)%nat = placementsFrom gap st l !! i.
Proof.
  intros Hl Ha. induction d as [|d IH]; intros Hlen Hrun.
  - by rewrite Nat.add_0_r.
  - rewrite <-IH; [|lia|intros m e ??; apply (Hrun m e); [lia|done]].
    destruct (lookup_lt_is_Some_2 l (i + d)%nat) as [x Hx]; [lia|].
    destruct (lookup_lt_is_Some_2 l (i + S d)%nat) as [y Hy]; [lia|].
    replace (i + S d)%nat with (S (i + d)) in * by lia.
    destruct (Hrun (i + d)%nat x) as (Hxp & Hxi & _); [lia|done|].
    destruct (Hrun (S (i + d)) y) as (Hyp & Hyi & Hyt); [lia|done|].
    apply (placements_join_within_gap gap l st (i + d) x y); try done;
      try congruence.
    assert (HistoryEntry.timestamp a <= HistoryEntry.timestamp x).
    { destruct d as [|d].
      - rewrite Nat.add_0_r in Hx. simplify_eq. lia.
      - apply (StronglySorted_lookup le_ts l i (i + S d) a x); [done|lia|done..]. }
    lia.
Qed.
End GroupFacts.

(** ** Scenarios for the session builder *)

Module Scenarios.
Import HistoryParser.

Definition ev (t : Z) (p : string) (sid : option string) : HistoryEntry.t :=
  HistoryEntry.mk ("prompt@" +:+ pretty t) None t p sid.

Definition minutes (n : Z) : Z := n * 60 * 1000.

Example three_events :
  groupIntoSessions
    [ev (minutes 50) "/p" None; ev 0 "/p" None; ev (minutes 10) "/p" None]
    defaultSessionGapMs
  = [ Session.mk "auto-0" "/p" 0 600000 2 600000 "prompt@0" "prompt@600000";
      Session.mk "auto-1" "/p" 3000000 3000000 1 0
                 "prompt@3000000" "prompt@3000000" ].
Proof. vm_compute. reflexivity. Qed.

Example three_events_placements :
  placements
    [ev (minutes 50) "/p" None; ev 0 "/p" None; ev (minutes 10) "/p" None]
    defaultSessionGapMs
  = [0; 0; 1]%nat.
Proof. vm_compute. reflexivity. Qed.
End Scenarios.

(** ** Session Builder: the claims *)

Module SessionClaims.
Import HistoryParser SortFacts GroupFacts Scenarios.

(** C1. The sessions returned by [groupIntoSessions] partition the input: the
    prompt counts of the returned sessions add up to the number of input
    events, and in output order every session starts no earlier than each
    session before it ends.  The ordering holds between any two output
    sessions, hence in particular within one project and identifier lineage,
    and the statement needs no assumption that the input is non-empty. *)
Theorem C1_sessions_partition_input
    (entries : list HistoryEntry.t) (sessionGapMs : Z) :
  sum_list_with Session.promptCount (groupIntoSessions entries sessionGapMs)
  = length entries
  ∧ ∀ (i j : nat) (si sj : Session.t),
      (i < j)%nat →
      groupIntoSessions entries sessionGapMs !! i = Some si →
      groupIntoSessions entries sessionGapMs !! j = Some sj →
      Session.endTime si <= Session.startTime sj.
Proof.
  split; [apply groupIntoSessions_count|].
  intros i j si sj Hij Hi Hj.
  exact (StronglySorted_lookup before _ i j si sj
           (groupIntoSessions_chain entries sessionGapMs) Hij Hi Hj).
Qed.

(** Three prompts at 0, 20 and 40 minutes on one project, no identifier. *)
Definition chainedEntries : list HistoryEntry.t :=
  [ev 0 "/p" None; ev (minutes 20) "/p" None; ev (minutes 40) "/p" None].

(** The first half of the gap rule read literally: any two events of one
    project and identifier that are more than the gap apart are placed in
    different sessions.  Events are named by their position in timestamp
    order. *)
Definition farApartAlwaysSplit (entries : list HistoryEntry.t)
    (sessionGapMs : Z) : Prop :=
  ∀ (i j : nat) (a b : HistoryEntry.t) (k k' : nat),
    sortByTimestamp entries !! i = Some a →
    sortByTimestamp entries !! j = Some b →
    HistoryEntry.project a = HistoryEntry.project b →
    HistoryEntry.sessionId a = HistoryEntry.sessionId b →
    sessionGapMs < Z.abs (HistoryEntry.timestamp b - HistoryEntry.timestamp a) →
    placements entries sessionGapMs !! i = Some k →
    placements entries sessionGapMs !! j = Some k' →
    k ≠ k'.

(** C3, refuted as stated: with a 30-minute gap the prompts at 0 and 40
    minutes are 40 minutes apart and still share a session, because the prompt
    at 20 minutes bridges them. *)
Lemma C3_far_apart_can_share_a_session :
  ¬ farApartAlwaysSplit chainedEntries defaultSessionGapMs.
Proof.
  intros H.
  apply (H 0%nat 2%nat (ev 0 "/p" None) (ev (minutes 40) "/p" None) 0%nat 0%nat);
    vm_compute; done.
Qed.

(** C3, amended.  The idle gap is measured between neighbours in timestamp
    order.  (a) Two events that are adjacent in timestamp order and more than
    [sessionGapMs] apart are placed in different sessions (the later one opens
    the next session).  (b) Two events at most [sessionGapMs] apart are placed
    in the same session when every event from the first to the second in
    timestamp order has the same project and the same session identifier. *)
Theorem C3_gap_rule (entries : list HistoryEntry.t) (sessionGapMs : Z) :
  (∀ (i : nat) (a b : HistoryEntry.t) (k k' : nat),
     sortByTimestamp entries !! i = Some a →
     sortByTimestamp entries !! S i = Some b →
     sessionGapMs < HistoryEntry.timestamp b - HistoryEntry.timestamp a →
     placements entries sessionGapMs !! i = Some k →
     placements entries sessionGapMs !! S i = Some k' →
     k' = S k ∧ k ≠ k')
  ∧ (∀ (i j : nat) (a b : HistoryEntry.t),
       (i <= j)%nat →
       sortByTimestamp entries !! i = Some a →
       sortByTimestamp entries !! j = Some b →
       HistoryEntry.timestamp b - HistoryEntry.timestamp a <= sessionGapMs →
       (∀ (m : nat) (e : HistoryEntry.t),
          (i <= m <= j)%nat → sortByTimestamp entries !! m = Some e →
          HistoryEntry.project e = HistoryEntry.project a
          ∧ HistoryEntry.sessionId e = HistoryEntry.sessionId a) →
       placements entries sessionGapMs !! i
       = placements entries sessionGapMs !! j).
Proof.
  split.
  - intros i a b k k' Ha Hb Hgap Hk Hk'. unfold placements in *.
    rewrite (placements_split_after_gap _ _ _ _ _ _ Ha Hb Hgap), Hk in Hk'.
    simpl in Hk'. injection Hk' as <-. split; [done|lia].
  - intros i j a b Hij Ha Hb Hgap Hrun. unfold placements.
    replace j with (i + (j - i))%nat by lia. symmetry.
    pose proof (sortByTimestamp_sorted entries) as Hsorted.
    eapply placements_run; [done|done| |].
    + apply lookup_lt_Some in Hb. lia.
    + intros m e Hm He. destruct (Hrun m e) as [? ?]; [lia|done|].
      split; [done|]. split; [done|].
      assert (HistoryEntry.timestamp e <= HistoryEntry.timestamp b); [|lia].
      destruct (decide (m = j)) as [->|]; [simplify_eq; lia|].
      apply (StronglySorted_lookup le_ts _ m j e b Hsorted); [lia|done..].
Qed.

(** The scenario of the specification: prompts at 0, 10 and 50 minutes. *)
Definition scenarioEntries : list HistoryEntry.t :=
  [ev 0 "/p" None; ev (minutes 10) "/p" None; ev (minutes 50) "/p" None].

(** The gap rule at work on the scenario: the prompts at 0 and 10 minutes
    share a session, the prompt at 50 minutes opens the next one. *)
Lemma C3_gap_rule_witness :
  placements scenarioEntries defaultSessionGapMs !! 0%nat
  = placements scenarioEntries defaultSessionGapMs !! 1%nat
  ∧ (1 = S 0 ∧ 0 ≠ 1)%nat.
Proof.
  split.
  - apply (proj2 (C3_gap_rule scenarioEntries defaultSessionGapMs) 0%nat 1%nat
             (ev 0 "/p" None) (ev (minutes 10) "/p" None)).
    + lia.
    + reflexivity.
    + reflexivity.
    + vm_compute. discriminate.
    + intros m e Hm He.
      destruct m as [|[|m]]; [| |lia]; vm_compute in He;
        injection He as <-; done.
  - apply (proj1 (C3_gap_rule scenarioEntries defaultSessionGapMs)
             1%nat (ev (minutes 10) "/p" None) (ev (minutes 50) "/p" None)).
    + reflexivity.
    + reflexivity.
    + vm_compute. reflexivity.
    + reflexivity.
    + reflexivity.
Defined.

(** Explicit identifiers A, B, A on three consecutive prompts of one
    project, one second apart. *)
Definition abaEntries : list HistoryEntry.t :=
  [ev 0 "/p" (Some "A"); ev 1000 "/p" (Some "B"); ev 2000 "/p" (Some "A")].

(** An entry carries no explicit identifier when [sessionId] is absent or
    empty: both make [currentSession.sessionId || ...] take the placeholder. *)
Definition noExplicitId (e : HistoryEntry.t) : Prop :=
  HistoryEntry.sessionId e = None ∨ HistoryEntry.sessionId e = Some "".

Lemma autoId_inj n m : autoId n = autoId m → n = m.
Proof.
  unfold autoId. intros H. apply (inj (String.app "auto-")) in H.
  by apply (inj pretty) in H.
Qed.

Lemma sessionIdOr_noExplicitId e k :
  noExplicitId e → sessionIdOr (HistoryEntry.sessionId e) k = autoId k.
Proof. by intros [->| ->]. Qed.

(** C9. Output session identifiers need not be unique: for the identifiers
    A, B, A on consecutive events the output holds two different Session
    records with sessionId "A".  The identifiers the function synthesizes are
    pairwise distinct within a run: two different output sessions that each
    hold an entry without explicit identifier have different sessionIds. *)
Theorem C9_session_ids_unique_only_when_synthesized :
  (∃ s0 s2 : Session.t,
     groupIntoSessions abaEntries defaultSessionGapMs !! 0%nat = Some s0
     ∧ groupIntoSessions abaEntries defaultSessionGapMs !! 2%nat = Some s2
     ∧ s0 ≠ s2
     ∧ Session.sessionId s0 = "A" ∧ Session.sessionId s2 = "A")
  ∧ (∀ (entries : list HistoryEntry.t) (sessionGapMs : Z)
       (i j : nat) (ei ej : HistoryEntry.t) (ki kj : nat) (si sj : Session.t),
       sortByTimestamp entries !! i = Some ei →
       sortByTimestamp entries !! j = Some ej →
       noExplicitId ei → noExplicitId ej →
       placements entries sessionGapMs !! i = Some ki →
       placements entries sessionGapMs !! j = Some kj →
       ki ≠ kj →
       groupIntoSessions entries sessionGapMs !! ki = Some si →
       groupIntoSessions entries sessionGapMs !! kj = Some sj →
       Session.sessionId si ≠ Session.sessionId sj).
Proof.
  split.
  - eexists _, _. split; [vm_compute; reflexivity|].
    split; [vm_compute; reflexivity|]. split; [|done].
    intros Heq. by apply (f_equal Session.startTime) in Heq.
  - intros entries gap i j ei ej ki kj si sj Hi Hj Hni Hnj Hki Hkj Hne Hsi Hsj.
    destruct (placement_session entries gap i ei ki Hi Hki) as (si' & Hsi' & Hidi & _).
    destruct (placement_session entries gap j ej kj Hj Hkj) as (sj' & Hsj' & Hidj & _).
    simplify_eq. rewrite Hidi, Hidj, !sessionIdOr_noExplicitId by done.
    intros Heq. by apply autoId_inj in Heq.
Qed.

(** The placeholders of the scenario, "auto-0" and "auto-1", differ. *)
Lemma C9_synthesized_ids_witness :
  Session.sessionId
    (Session.mk "auto-0" "/p" 0 600000 2 600000 "prompt@0" "prompt@600000")
  ≠ Session.sessionId
      (Session.mk "auto-1" "/p" 3000000 3000000 1 0
                  "prompt@3000000" "prompt@3000000").
Proof.
  apply (proj2 C9_session_ids_unique_only_when_synthesized
           scenarioEntries defaultSessionGapMs 0%nat 2%nat
           (ev 0 "/p" None) (ev (minutes 50) "/p" None) 0%nat 1%nat).
  - reflexivity.
  - reflexivity.
  - left; reflexivity.
  - left; reflexivity.
  - reflexivity.
  - reflexivity.
  - lia.
  - reflexivity.
  - reflexivity.
Defined.
End SessionClaims.

(** ** Skill detection: facts and claims *)

Module SkillTaxonomyFacts.
Import SkillTaxonomy.

Example detect_nextjs :
  detectSkillsFromPath "/Users/me/Projects/My-NextJS-App"
  = ["Next.js"].
Proof. vm_compute. reflexivity. Qed.

Example detect_several :
  detectSkillsFromPath "/home/dev/github/React-Rails-Mail"
  = ["React"; "Rails"; "Git"; "AI/ML"].
Proof. vm_compute. reflexivity. Qed.

Example detect_none : detectSkillsFromPath "/tmp/xyz" = [].
Proof. vm_compute. reflexivity. Qed.

(** *** Facts *)

Lemma lowerChar_idemp c : lowerChar (lowerChar c) = lowerChar c.
Proof. destruct c as [[] [] [] [] [] [] [] []]; reflexivity. Qed.

Lemma toLowerCase_idemp s : toLowerCase (toLowerCase s) = toLowerCase s.
Proof. induction s as [|c s IH]; simpl; [done|]. by rewrite lowerChar_idemp, IH. Qed.

Lemma detectLoop_filter lowerPath skills detected :
  detectLoop lowerPath skills detected
  = detected ++ (name <$> filter (λ skill,
      anyPatternIn lowerPath (detectionPatterns skill) = true) skills).
Proof.
  revert detected. induction skills as [|skill rest IH]; intros detected; simpl.
  - by rewrite app_nil_r.
  - rewrite IH. destruct (anyPatternIn lowerPath (detectionPatterns skill)) eqn:Hm.
    + rewrite filter_cons_True by done. simpl. by rewrite <-app_assoc.
    + rewrite filter_cons_False by (by rewrite Hm). done.
Qed.

Lemma taxonomy_names_NoDup : NoDup (name <$> SKILL_TAXONOMY).
Proof. apply (bool_decide_unpack _). vm_compute. exact I. Qed.

(** C10. For every project path, [detectSkillsFromPath] returns each taxonomy
    skill name at most once, in taxonomy order (the result is a subsequence
    of the taxonomy's names), and the result does not depend on the letter
    case of the path: lower-casing the path first gives the same skills. *)
Theorem C10_detectSkillsFromPath_nodup_case_invariant (projectPath : string) :
  NoDup (detectSkillsFromPath projectPath)
  ∧ detectSkillsFromPath projectPath `sublist_of` (name <$> SKILL_TAXONOMY)
  ∧ detectSkillsFromPath projectPath
    = detectSkillsFromPath (toLowerCase projectPath).
Proof.
  assert (detectSkillsFromPath projectPath `sublist_of` (name <$> SKILL_TAXONOMY))
    as Hsub.
  { unfold detectSkillsFromPath. rewrite detectLoop_filter, app_nil_l.
    apply fmap_sublist, sublist_filter. }
  split; [|split; [done|]].
  - eapply sublist_NoDup; [apply taxonomy_names_NoDup|exact Hsub].
  - unfold detectSkillsFromPath. by rewrite toLowerCase_idemp.
Qed.
End SkillTaxonomyFacts.

(** ** IEEE-754 facts used by the numeric code *)

Module FloatFacts.
Import SpecFloat FloatOps FloatAxioms.

Lemma SFmul_comm prec emax x y : SFmul prec emax x y = SFmul prec emax y x.
Proof.
  destruct x as [sx|sx| |sx mx ex], y as [sy|sy| |sy my ey]; simpl;
    try reflexivity; try (by rewrite xorb_comm).
  by rewrite xorb_comm, Pos.mul_comm, Z.add_comm.
Qed.

Lemma mul_comm (x y : float) : (x * y = y * x)%float.
Proof.
  apply Prim2SF_inj. rewrite !mul_spec. apply SFmul_comm.
Qed.

Lemma SFcompare_antisym x y :
  SFcompare y x = CompOpp <$> SFcompare x y.
Proof.
  destruct x as [sx|sx| |sx mx ex], y as [sy|sy| |sy my ey]; simpl;
    try reflexivity; try (by destruct sx); try (by destruct sy);
    try (by destruct sx, sy).
  pose proof (Pos.compare_cont_antisym mx my Eq) as Hm. simpl in Hm.
  destruct sx, sy; simpl; try reflexivity; f_equal;
    rewrite (Z.compare_antisym ex ey); destruct (ex ?= ey)%Z; simpl;
    rewrite <-?Hm; try reflexivity;
    by destruct (Pos.compare_cont Eq mx my).
Qed.

Lemma SFcompare_None x y :
  SFcompare x y = None → x = S754_nan ∨ y = S754_nan.
Proof.
  destruct x as [sx|sx| |sx mx ex], y as [sy|sy| |sy my ey]; simpl;
    try discriminate; auto.
Qed.

(** For a threshold [x] that is a number, a [y] that compares with something
    and is not at least [x] is below [x]. *)
Lemma not_leb_ltb (c x y : float) :
  (x <=? x)%float = true →
  (c <=? y)%float = true →
  (x <=? y)%float = false →
  (y <? x)%float = true.
Proof.
  rewrite !leb_spec, ltb_spec. unfold SFleb, SFltb. intros Hx Hy Hxy.
  rewrite SFcompare_antisym.
  destruct (SFcompare (Prim2SF x) (Prim2SF y)) as [[]|] eqn:Hcmp; try done.
  apply SFcompare_None in Hcmp as [Hnan|Hnan]; rewrite Hnan in *.
  - by destruct (Prim2SF x).
  - by destruct (Prim2SF c).
Qed.

Lemma ltb_not_leb (x y : float) :
  (y <? x)%float = true → (x <=? y)%float = false.
Proof.
  rewrite leb_spec, ltb_spec. unfold SFleb, SFltb.
  rewrite (SFcompare_antisym (Prim2SF x) (Prim2SF y)).
  by destruct (SFcompare (Prim2SF x) (Prim2SF y)) as [[]|].
Qed.

(** Thresholds compare as their exponents say: a number at least the
    positive threshold [c2] is at least any positive threshold [c1] of
    smaller exponent. *)
Lemma leb_threshold_mono (c1 c2 s : float) m1 e1 m2 e2 :
  Prim2SF c1 = S754_finite false m1 e1 →
  Prim2SF c2 = S754_finite false m2 e2 →
  (e1 < e2)%Z →
  (c2 <=? s)%float = true → (c1 <=? s)%float = true.
Proof.
  intros H1 H2 He. rewrite !leb_spec, H1, H2. unfold SFleb.
  destruct (Prim2SF s) as [sx|sx| |sx mx ex]; simpl; try done.
  destruct sx; [done|].
  destruct (Z.compare_spec e2 ex), (Z.compare_spec e1 ex); try done; lia.
Qed.
End FloatFacts.

(** ** Proficiency score and level: facts and claims *)

Module SkillProficiencyFacts.
Import PrimFloat SkillProficiency.
Local Open Scope float_scope.
Local Set Warnings "-inexact-float".

Example level_80 : getProficiencyLevel 80 = expert.
Proof. reflexivity. Qed.
Example level_79 : getProficiencyLevel 79.5 = advanced.
Proof. reflexivity. Qed.
Example level_30 : getProficiencyLevel 30 = intermediate.
Proof. reflexivity. Qed.
Example level_nan : getProficiencyLevel nan = beginner.
Proof. reflexivity. Qed.

(** C6. The proficiency score of a metrics tuple is
    0.4·min(100, log10(usageCount+1)·40) + 0.2·min(100, (daysSinceFirstUse/365)·50)
    + 0.2·consistency + 0.2·depth, in binary64 arithmetic and for whatever
    [Math.log10] the runtime provides; and the level of a score is expert iff
    the score is at least 80, advanced iff it is at least 60 and below 80,
    intermediate iff it is at least 30 and below 60, and beginner otherwise
    (that is, iff it is not at least 30, which includes a NaN score). *)
Theorem C6_score_formula_and_levels (log10 : float → float)
    (metrics : Metrics) (score : float) :
  calculateProficiencyScore log10 metrics = specifiedScore log10 metrics
  ∧ (getProficiencyLevel score = expert ↔ (80 <=? score) = true)
  ∧ (getProficiencyLevel score = advanced
     ↔ (60 <=? score) = true ∧ (score <? 80) = true)
  ∧ (getProficiencyLevel score = intermediate
     ↔ (30 <=? score) = true ∧ (score <? 60) = true)
  ∧ (getProficiencyLevel score = beginner ↔ (30 <=? score) = false).
Proof.
  split.
  { unfold calculateProficiencyScore, specifiedScore.
    by rewrite !(FloatFacts.mul_comm _ 0.4), !(FloatFacts.mul_comm _ 0.2). }
  assert (H86 : (80 <=? score) = true → (60 <=? score) = true).
  { by apply (FloatFacts.leb_threshold_mono 60 80 score
                _ _ _ _ eq_refl eq_refl). }
  assert (H63 : (60 <=? score) = true → (30 <=? score) = true).
  { by apply (FloatFacts.leb_threshold_mono 30 60 score
                _ _ _ _ eq_refl eq_refl). }
  pose proof (FloatFacts.not_leb_ltb 60 80 score eq_refl) as Hlt80.
  pose proof (FloatFacts.not_leb_ltb 30 60 score eq_refl) as Hlt60.
  pose proof (FloatFacts.ltb_not_leb 80 score) as Hnl80.
  pose proof (FloatFacts.ltb_not_leb 60 score) as Hnl60.
  unfold getProficiencyLevel.
  destruct (80 <=? score) eqn:H80, (60 <=? score) eqn:H60,
    (30 <=? score) eqn:H30;
    try (specialize (H86 eq_refl)); try (specialize (H63 eq_refl));
    try discriminate;
    repeat split; try done; try (intros [? ?]); try (intros ?);
    try discriminate; try tauto;
    try (by (apply Hlt80 || apply Hlt60));
    try (specialize (Hnl80 ltac:(done)); discriminate);
    try (specialize (Hnl60 ltac:(done)); discriminate).
Qed.
End SkillProficiencyFacts.

(** ** Store upserts: the claims *)

Module SchemaClaims.
Import Schema.

(** A store holding the session "S1": one prompt at time 0, written at
    clock reading 5. *)
Definition storeWithS1 : Database :=
  upsertSession 5 emptyDatabase
    (Session.mk "S1" "/p" 0 0 1 0 "first" "first").

(** The same session after ten more minutes and a second prompt. *)
Definition s1Grown : Session.t :=
  Session.mk "S1" "/p" 0 600000 2 600000 "first" "second".

(** The frame of the claim read literally: on a conflicting upsert every
    column other than [end_time], [prompt_count] and [last_prompt] keeps its
    stored value. *)
Definition onlyEndCountLastChange (now : Z) (db : Database)
    (session : Session.t) : Prop :=
  ∀ old new : SessionRow.t,
    sessions db !! Session.sessionId session = Some old →
    sessions (upsertSession now db session) !! Session.sessionId session
    = Some new →
    SessionRow.project new = SessionRow.project old
    ∧ SessionRow.start_time new = SessionRow.start_time old
    ∧ SessionRow.duration_ms new = SessionRow.duration_ms old
    ∧ SessionRow.first_prompt new = SessionRow.first_prompt old
    ∧ SessionRow.created_at new = SessionRow.created_at old.

(** C4, refuted as stated: the conflicting upsert also rewrites
    [duration_ms] (here from 0 to 600000). *)
Lemma C4_duration_is_rewritten :
  ¬ onlyEndCountLastChange 9 storeWithS1 s1Grown.
Proof.
  intros H.
  destruct (H (SessionRow.mk "/p" 0 0 1 0 (Some "first") (Some "first") 5)
              (SessionRow.mk "/p" 0 600000 2 600000 (Some "first")
                             (Some "second") 5))
    as (_ & _ & Hd & _); [by vm_compute..|].
  discriminate Hd.
Qed.

(** C4, amended.  When a Session is upserted whose identifier already exists
    in the sessions table, the end time, prompt count, duration and
    last-content columns of the stored row take the new values; the project,
    start time, first-content and creation-time columns keep the values set
    at first insertion; no other row of the table and no other table is
    modified. *)
Theorem C4_upsertSession_conflict_frame (now : Z) (db : Database)
    (session : Session.t) (old : SessionRow.t) :
  sessions db !! Session.sessionId session = Some old →
  sessions (upsertSession now db session) !! Session.sessionId session
  = Some (SessionRow.mk
            (SessionRow.project old)
            (SessionRow.start_time old)
            (Session.endTime session)
            (Z.of_nat (Session.promptCount session))
            (Session.duration session)
            (SessionRow.first_prompt old)
            (Some (Session.lastPrompt session))
            (SessionRow.created_at old))
  ∧ (∀ other : string,
       other ≠ Session.sessionId session →
       sessions (upsertSession now db session) !! other
       = sessions db !! other)
  ∧ prompts (upsertSession now db session) = prompts db
  ∧ projects (upsertSession now db session) = projects db
  ∧ metadata (upsertSession now db session) = metadata db
  ∧ achievements (upsertSession now db session) = achievements db.
Proof.
  intros Hold. unfold upsertSession. rewrite Hold. simpl.
  split; [by rewrite lookup_insert_eq|].
  split; [|done].
  intros other Hne. by rewrite lookup_insert_ne.
Qed.

Lemma C4_upsertSession_conflict_frame_witness :
  sessions (upsertSession 9 storeWithS1 s1Grown) !! "S1"
  = Some (SessionRow.mk "/p" 0 600000 2 600000 (Some "first")
                        (Some "second") 5).
Proof.
  apply (C4_upsertSession_conflict_frame 9 storeWithS1 s1Grown
           (SessionRow.mk "/p" 0 0 1 0 (Some "first") (Some "first") 5)).
  vm_compute. reflexivity.
Defined.
End SchemaClaims.

(** ** JavaScript maps: facts *)

Module JsMapFacts.
Import JsMap.

Lemma get_set_eq {V} k (v : V) m : get k (set k v m) = Some v.
Proof.
  induction m as [|[k' v'] m IH]; simpl.
  - by rewrite decide_True.
  - destruct (decide (k = k')) as [->|Hne]; simpl.
    + by rewrite decide_True.
    + by rewrite decide_False.
Qed.

Lemma get_set_ne {V} k k' (v : V) m : k' ≠ k → get k' (set k v m) = get k' m.
Proof.
  intros Hne. induction m as [|[k0 v0] m IH]; simpl.
  - by rewrite decide_False.
  - destruct (decide (k = k0)) as [->|Hne0]; simpl.
    + by rewrite !decide_False.
    + by rewrite IH.
Qed.

Lemma elem_of_keys_get {V} k (m : list (string * V)) :
  k ∈ keys m ↔ is_Some (get k m).
Proof.
  unfold keys. induction m as [|[k' v'] m IH]; simpl.
  - split; [by intros ?%elem_of_nil|by intros [? ?]].
  - rewrite elem_of_cons, IH. destruct (decide (k = k')) as [->|Hne].
    + split; [by eexists|by left].
    + split; [by intros [?|?]|by right].
Qed.

Lemma elem_of_setOf_from (l acc : list string) x :
  x ∈ foldl (λ acc x, if decide (x ∈ acc) then acc else acc ++ [x]) acc l
  ↔ x ∈ acc ∨ x ∈ l.
Proof.
  revert acc. induction l as [|y l IH]; intros acc; simpl.
  - rewrite elem_of_nil. tauto.
  - rewrite IH, elem_of_cons. destruct (decide (y ∈ acc)) as [Hy|Hy].
    + split; [tauto|]. intros [?|[->|?]]; tauto.
    + rewrite elem_of_app, list_elem_of_singleton. tauto.
Qed.

Lemma elem_of_setOf l x : x ∈ setOf l ↔ x ∈ l.
Proof. unfold setOf. rewrite elem_of_setOf_from, elem_of_nil. tauto. Qed.
End JsMapFacts.

(** ** A sync scenario *)

Module SyncScenario.
Import Schema Sync Scenarios.
Local Open Scope float_scope.

Definition history : list HistoryEntry.t :=
  [ev 1000 "/p" None; ev 61000 "/p" None].

Definition config : list (string * ProjectMetrics.t) :=
  [("/p", ProjectMetrics.mk 1.5 0 0 10 2 900 300 100 900);
   ("/q", ProjectMetrics.mk 0 0 0 0 0 0 0 0 0)].

(** A first sync at clock reading 100000 and a second one right after, with
    the same files. *)
Definition afterFirst : Database := (syncData emptyDatabase history config 100000).1.
Definition afterSecond : Database := (syncData afterFirst history config 100001).1.

Example first_sync_result :
  (syncData emptyDatabase history config 100000).2
  = mkSyncResult 2 1 2 [] 100000.
Proof. vm_compute. reflexivity. Qed.

Example first_sync_row :
  projects afterFirst !! "/p"
  = Some (ProjectRow.mk 1000 61000 2 1 60000 10 2 1.5 900 300 100 900 100000).
Proof. vm_compute. reflexivity. Qed.

Example second_sync_result :
  (syncData afterFirst history config 100001).2
  = mkSyncResult 0 0 2 [] 100001.
Proof. vm_compute. reflexivity. Qed.

Example second_sync_row :
  projects afterSecond !! "/p"
  = Some (ProjectRow.mk 1000 100001 0 0 0 10 2 1.5 900 300 100 900 100001).
Proof. vm_compute. reflexivity. Qed.
End SyncScenario.

(** ** Sync: facts and claims *)

Module SyncFacts.
Import HistoryParser Schema Sync.

(** The sum of [f] over the sessions of project [p]. *)
Definition sumFor (p : string) (f : Session.t → Z) (l : list Session.t) : Z :=
  foldr (λ s acc, if decide (Session.project s = p) then f s + acc else acc) 0 l.

(** The row an upsert leaves for [stats], given the first-seen time of the
    row it may have found. *)
Definition rowOf (now : Z) (stats : ProjectStatsInput) (oldFirst : option Z)
  : ProjectRow.t :=
  ProjectRow.mk (default (firstSeen stats) oldFirst) (lastActive stats)
    (totalPrompts stats) (totalSessions stats) (totalDuration stats)
    (linesAdded stats) (linesRemoved stats) (totalCost stats)
    (inputTokens stats) (outputTokens stats) (cacheCreationTokens stats)
    (cacheReadTokens stats) now.

Lemma upsertProjectStats_lookup now db stats p :
  projects (upsertProjectStats now db stats) !! p
  = if decide (p = projectPath stats)
    then Some (rowOf now stats (ProjectRow.first_seen <$> projects db !! p))
    else projects db !! p.
Proof.
  unfold upsertProjectStats; simpl. destruct (decide (p = projectPath stats)) as [->|Hne].
  - rewrite lookup_insert_eq. by destruct (projects db !! projectPath stats).
  - by rewrite lookup_insert_ne.
Qed.

Lemma foldl_upsertProjectStats_lookup now (mk : string → ProjectStatsInput)
    paths db p :
  (∀ q, projectPath (mk q) = q) →
  projects (foldl (λ d q, upsertProjectStats now d (mk q)) db paths) !! p
  = if decide (p ∈ paths)
    then Some (rowOf now (mk p) (ProjectRow.first_seen <$> projects db !! p))
    else projects db !! p.
Proof.
  intros Hmk. revert db. induction paths as [|q paths IH]; intros db; simpl.
  - done.
  - rewrite IH, upsertProjectStats_lookup, Hmk.
    destruct (decide (p = q)) as [->|Hne].
    + rewrite (decide_True (P := q ∈ q :: paths)) by left.
      destruct (decide (q ∈ paths)); [|done].
      simpl. by destruct (projects db !! q).
    + destruct (decide (p ∈ paths)) as [Hin|Hnin].
      * rewrite decide_True; [done|by right].
      * rewrite decide_False; [done|].
        intros [?|?]%elem_of_cons; done.
Qed.

Lemma projects_foldl_upsertSession now l db :
  projects (foldl (upsertSession now) db l) = projects db.
Proof. revert db. induction l as [|s l IH]; intros db; simpl; [done|]. by rewrite IH. Qed.

Lemma projects_foldl_insertPromptFor now sessions l st :
  projects (foldl (insertPromptFor now sessions) st l).1 = projects st.1.
Proof.
  revert st. induction l as [|e l IH]; intros st; simpl; [done|].
  rewrite IH. unfold insertPromptFor. by destruct (findSession sessions e).
Qed.

(** What the [projectStats] map holds for a project after the loop. *)
Lemma addSessionStats_get_ne projectStats s p :
  p ≠ Session.project s →
  JsMap.get p (addSessionStats projectStats s) = JsMap.get p projectStats.
Proof.
  intros Hne. unfold addSessionStats.
  destruct (JsMap.get (Session.project s) projectStats);
    by rewrite JsMapFacts.get_set_ne.
Qed.

Lemma foldl_addSessionStats_totals p l projectStats :
  let before := JsMap.get p projectStats in
  let after := JsMap.get p (foldl addSessionStats projectStats l) in
  from_option ss_totalPrompts 0 after
  = from_option ss_totalPrompts 0 before
    + sumFor p (λ s, Z.of_nat (Session.promptCount s)) l
  ∧ from_option ss_totalSessions 0 after
    = from_option ss_totalSessions 0 before + sumFor p (λ _, 1) l
  ∧ from_option ss_totalDuration 0 after
    = from_option ss_totalDuration 0 before + sumFor p Session.duration l.
Proof.
  revert projectStats. induction l as [|s l IH]; intros projectStats; simpl.
  - lia.
  - destruct (IH (addSessionStats projectStats s)) as (-> & -> & ->).
    destruct (decide (Session.project s = p)) as [<-|Hne].
    + unfold addSessionStats.
      destruct (JsMap.get (Session.project s) projectStats) as [existing|];
        rewrite JsMapFacts.get_set_eq; simpl; lia.
    + rewrite addSessionStats_get_ne by done. lia.
Qed.

Lemma foldl_addSessionStats_keys p l projectStats :
  p ∈ JsMap.keys (foldl addSessionStats projectStats l)
  ↔ p ∈ JsMap.keys projectStats ∨ p ∈ (Session.project <$> l).
Proof.
  revert projectStats. induction l as [|s l IH]; intros projectStats; simpl.
  - rewrite elem_of_nil. tauto.
  - rewrite IH, elem_of_cons, !JsMapFacts.elem_of_keys_get.
    destruct (decide (p = Session.project s)) as [->|Hne].
    + split; [tauto|]. intros _. left. unfold addSessionStats.
      destruct (JsMap.get (Session.project s) projectStats);
        rewrite JsMapFacts.get_set_eq; by eexists.
    + rewrite addSessionStats_get_ne by done. tauto.
Qed.

Lemma getAllProjects_keys_from p (cfg acc : list (string * ProjectMetrics.t)) :
  p ∈ JsMap.keys
        (foldl (λ projects '(path, metrics), JsMap.set path metrics projects)
               acc cfg)
  ↔ p ∈ JsMap.keys acc ∨ p ∈ cfg.*1.
Proof.
  revert acc. induction cfg as [|[q m] cfg IH]; intros acc; simpl.
  - rewrite elem_of_nil. tauto.
  - rewrite IH, elem_of_cons, !JsMapFacts.elem_of_keys_get.
    destruct (decide (p = q)) as [->|Hne].
    + rewrite JsMapFacts.get_set_eq. split; [tauto|]. intros _. left. by eexists.
    + rewrite JsMapFacts.get_set_ne by done. tauto.
Qed.

Lemma getAllProjects_keys p cfg :
  p ∈ JsMap.keys (getAllProjects cfg) ↔ p ∈ cfg.*1.
Proof.
  unfold getAllProjects. rewrite getAllProjects_keys_from.
  unfold JsMap.keys. simpl. rewrite elem_of_nil. tauto.
Qed.

Lemma elem_of_allProjects p sessions cfg :
  p ∈ allProjects sessions cfg
  ↔ p ∈ (Session.project <$> sessions) ∨ p ∈ cfg.*1.
Proof.
  unfold allProjects.
  rewrite JsMapFacts.elem_of_setOf, elem_of_app, foldl_addSessionStats_keys,
    getAllProjects_keys.
  unfold JsMap.keys. simpl. rewrite elem_of_nil. tauto.
Qed.

(** The projects table after a sync, row by row. *)
Lemma syncData_projects db history cfg now p :
  projects (syncData db history cfg now).1 !! p
  = if decide (p ∈ allProjects (runSessions db history) cfg)
    then Some (rowOf now
                 (mergedStats now
                    (foldl addSessionStats [] (runSessions db history))
                    (getAllProjects cfg) p)
                 (ProjectRow.first_seen <$> projects db !! p))
    else projects db !! p.
Proof.
  unfold syncData, runSessions.
  set (entries := entriesToProcess db history).
  set (sessions := groupIntoSessions entries defaultSessionGapMs).
  destruct (foldl (insertPromptFor now sessions)
              (foldl (upsertSession now) db sessions, 0%nat) entries)
    as [db2 processed] eqn:Hdb2.
  simpl.
  rewrite (foldl_upsertProjectStats_lookup now
             (mergedStats now (foldl addSessionStats [] sessions)
                (getAllProjects cfg))) by done.
  assert (projects db2 = projects db) as ->; [|done].
  change db2 with (db2, processed).1. rewrite <-Hdb2.
  rewrite projects_foldl_insertPromptFor. simpl.
  apply projects_foldl_upsertSession.
Qed.
End SyncFacts.

Module SyncClaims.
Import HistoryParser Schema Sync SyncFacts SyncScenario.

(** The invariant of the claim read literally, for a first sync from [db0]
    and a second sync right after it: no cumulative field of a project row is
    smaller after the second sync than after the first. *)
Definition secondSyncNeverDecreases (db0 : Database)
    (history1 : list HistoryEntry.t)
    (config1 : list (string * ProjectMetrics.t)) (now1 : Z)
    (history2 : list HistoryEntry.t)
    (config2 : list (string * ProjectMetrics.t)) (now2 : Z) : Prop :=
  let db1 := (syncData db0 history1 config1 now1).1 in
  let db2 := (syncData db1 history2 config2 now2).1 in
  ∀ (path : string) (r1 r2 : ProjectRow.t),
    projects db1 !! path = Some r1 →
    projects db2 !! path = Some r2 →
    ProjectRow.total_prompts r1 <= ProjectRow.total_prompts r2
    ∧ ProjectRow.total_sessions r1 <= ProjectRow.total_sessions r2
    ∧ ProjectRow.total_duration_ms r1 <= ProjectRow.total_duration_ms r2
    ∧ PrimFloat.leb (ProjectRow.total_cost r1) (ProjectRow.total_cost r2) = true
    ∧ ProjectRow.input_tokens r1 <= ProjectRow.input_tokens r2
    ∧ ProjectRow.output_tokens r1 <= ProjectRow.output_tokens r2
    ∧ ProjectRow.cache_creation_tokens r1 <= ProjectRow.cache_creation_tokens r2
    ∧ ProjectRow.cache_read_tokens r1 <= ProjectRow.cache_read_tokens r2.

(** C2. The totals of a project row are meant to grow from sync to sync, and
    on this input the code makes them shrink.  The log holds two events of
    "/p"; the first sync, at clock reading 100000, leaves the row of "/p" with
    2 prompts, 1 session and 60000 ms.  A second sync of the same files, at
    100001, sees no event newer than the stored last sync time, so the run
    has no session, and the upsert replaces the three totals with the totals
    of the run: 0 prompts, 0 sessions, 0 ms.  The invariant of the claim
    fails between the two syncs. *)
Theorem C2_second_sync_resets_totals :
  projects afterFirst !! "/p"
  = Some (ProjectRow.mk 1000 61000 2 1 60000 10 2 1.5 900 300 100 900 100000)
  ∧ projects afterSecond !! "/p"
    = Some (ProjectRow.mk 1000 100001 0 0 0 10 2 1.5 900 300 100 900 100001)
  ∧ ¬ secondSyncNeverDecreases emptyDatabase history config 100000
        history config 100001.
Proof.
  split; [exact first_sync_row|]. split; [exact second_sync_row|].
  intros H.
  destruct (H "/p" _ _ first_sync_row second_sync_row) as [Hp _].
  simpl in Hp. lia.
Qed.

(** Where the reset comes from, for any store and any files: the row a sync
    writes for a project path that has a session in the run or an entry in
    the metrics snapshot carries the sums over the sessions of that run alone
    as total prompts, total sessions and total duration (0 when the run has
    none for the path), whatever the row held before; cost and the four
    token counters are the snapshot's values.  Only the first-seen time of an
    existing row is kept.  Other rows are left as they were. *)
Lemma syncData_project_row (db : Database)
    (historyEntries : list HistoryEntry.t)
    (configProjects : list (string * ProjectMetrics.t)) (now : Z)
    (path : string) :
  let sessions := runSessions db historyEntries in
  let snapshot := JsMap.get path (getAllProjects configProjects) in
  let db' := (syncData db historyEntries configProjects now).1 in
  (path ∈ (Session.project <$> sessions) ∨ path ∈ configProjects.*1 →
   ∃ row : ProjectRow.t,
     projects db' !! path = Some row
     ∧ ProjectRow.total_prompts row
       = sumFor path (λ s, Z.of_nat (Session.promptCount s)) sessions
     ∧ ProjectRow.total_sessions row = sumFor path (λ _, 1) sessions
     ∧ ProjectRow.total_duration_ms row = sumFor path Session.duration sessions
     ∧ ProjectRow.total_cost row
       = from_option (orZero ∘ ProjectMetrics.lastCost) 0%float snapshot
     ∧ ProjectRow.input_tokens row
       = from_option ProjectMetrics.lastTotalInputTokens 0 snapshot
     ∧ ProjectRow.output_tokens row
       = from_option ProjectMetrics.lastTotalOutputTokens 0 snapshot
     ∧ ProjectRow.cache_creation_tokens row
       = from_option ProjectMetrics.lastTotalCacheCreationInputTokens 0 snapshot
     ∧ ProjectRow.cache_read_tokens row
       = from_option ProjectMetrics.lastTotalCacheReadInputTokens 0 snapshot
     ∧ ∀ old : ProjectRow.t,
         projects db !! path = Some old →
         ProjectRow.first_seen row = ProjectRow.first_seen old)
  ∧ (¬ (path ∈ (Session.project <$> sessions) ∨ path ∈ configProjects.*1) →
     projects db' !! path = projects db !! path).
Proof.
  intros sessions snapshot db'. subst db'.
  rewrite syncData_projects. fold sessions. split.
  - intros Hin. rewrite decide_True by (by apply elem_of_allProjects).
    eexists. split; [done|]. simpl.
    destruct (foldl_addSessionStats_totals path sessions []) as (Hp & Hs & Hd).
    simpl in Hp, Hs, Hd. rewrite Hp, Hs, Hd.
    repeat split; try lia.
    intros old ->. done.
  - intros Hnin. rewrite decide_False; [done|].
    by rewrite elem_of_allProjects.
Qed.

End SyncClaims.

(** ** Dates and numbers: facts *)

Module SqlDatesFacts.
Import SqlDates.

Example round_ties_up : Math_round 2.5 = 3 ∧ Math_round (-2.5) = -2.
Proof. split; reflexivity. Qed.
Example round_90 : Math_round 90 = 90 ∧ Math_round 89.5 = 90 ∧ Math_round 89.25 = 89.
Proof. repeat split; reflexivity. Qed.

Lemma elem_of_insertDesc d x l : x ∈ insertDesc d l ↔ x = d ∨ x ∈ l.
Proof.
  induction l as [|y l IH]; simpl.
  - rewrite list_elem_of_singleton, elem_of_nil. tauto.
  - destruct (y <? d) eqn:Hlt; [by rewrite elem_of_cons|].
    destruct (y =? d) eqn:Heq.
    + apply Z.eqb_eq in Heq as ->. rewrite elem_of_cons. tauto.
    + rewrite !elem_of_cons, IH. tauto.
Qed.

Lemma elem_of_distinctDesc x l : x ∈ distinctDesc l ↔ x ∈ l.
Proof.
  induction l as [|y l IH]; simpl; [done|].
  rewrite elem_of_insertDesc, elem_of_cons, IH. tauto.
Qed.

Lemma insertDesc_sorted d l :
  StronglySorted Z.gt l → StronglySorted Z.gt (insertDesc d l).
Proof.
  induction 1 as [|y l Hl IH Hy]; simpl.
  - repeat constructor.
  - destruct (y <? d) eqn:Hlt.
    + apply Z.ltb_lt in Hlt. constructor; [by constructor|].
      constructor; [lia|]. eapply Forall_impl; [exact Hy|]. simpl. lia.
    + apply Z.ltb_ge in Hlt. destruct (y =? d) eqn:Heq; [by constructor|].
      apply Z.eqb_neq in Heq. constructor; [done|].
      apply Forall_forall. intros x [->|Hx]%elem_of_insertDesc; [lia|].
      rewrite Forall_forall in Hy. by apply Hy.
Qed.

Lemma distinctDesc_sorted l : StronglySorted Z.gt (distinctDesc l).
Proof. induction l; simpl; [constructor|by apply insertDesc_sorted]. Qed.
End SqlDatesFacts.

(** ** Streaks: facts and claims *)

Module HabitDetectorFacts.
Import Schema SqlDates SqlDatesFacts HabitDetector.

Lemma recentDays_sorted db now : StronglySorted Z.gt (recentDays db now).
Proof. apply distinctDesc_sorted. Qed.

Lemma currentLoop_run today N days :
  StronglySorted Z.gt days →
  today - N ∉ days →
  ∀ i, 0 <= i <= N →
    (∀ d, d ∈ days → d <= today - i) →
    (∀ d, today - N < d <= today - i → d ∈ days) →
    currentLoop today i days = N - i.
Proof.
  intros Hsorted. induction Hsorted as [|d rest Hrest IH Hd];
    intros Hgap i Hi Hle Hrun; simpl.
  - destruct (decide (i = N)) as [->|Hne]; [lia|].
    exfalso. apply (not_elem_of_nil (today - i)). apply Hrun. lia.
  - rewrite Forall_forall in Hd.
    destruct (decide (i = N)) as [->|Hne].
    + assert (d ≠ today - N) by (intros ->; apply Hgap; left).
      replace (d =? today - N) with false by (symmetry; apply Z.eqb_neq; done).
      lia.
    + assert (d = today - i) as ->.
      { assert (today - i ∈ d :: rest) as [Heq|Hin]%elem_of_cons
          by (apply Hrun; lia); [done|].
        specialize (Hd _ Hin). specialize (Hle d ltac:(left)). lia. }
      rewrite Z.eqb_refl. rewrite IH; [lia| |lia| |].
      * intros Hin. apply Hgap. by right.
      * intros x Hx. specialize (Hd _ Hx). lia.
      * intros x Hx.
        assert (x ∈ today - i :: rest) as [Heq|Hin]%elem_of_cons
          by (apply Hrun; lia); [lia|done].
Qed.

Lemma calculateStreak_current db now today :
  current (calculateStreak db now today)
  = currentLoop today 0 (recentDays db now).
Proof. unfold calculateStreak. by destruct (recentDays db now). Qed.

(** Where the two calendars of the function line up.  The active days are
    the UTC dates of the session starts, [today] is the local date.  Let the
    days of a run of [N] consecutive days ending [today] all be active
    within the 90-day window, the day before the run be inactive, and no
    active day lie after [today].  Then the current streak is [N]. *)
Lemma calculateStreak_run (db : Database) (now today N : Z) :
  0 <= N →
  (∀ d, d ∈ recentDays db now → d <= today) →
  (∀ d, today - N < d <= today → d ∈ recentDays db now) →
  today - N ∉ recentDays db now →
  current (calculateStreak db now today) = N.
Proof.
  intros HN Hle Hrun Hgap. rewrite calculateStreak_current.
  rewrite (currentLoop_run today N); [lia|apply recentDays_sorted|done|lia| |].
  - intros d Hd. specialize (Hle d Hd). lia.
  - intros d Hd. apply Hrun. lia.
Qed.

(** Day 20000 is "today"; sessions on days 20000, 19999 (two of them),
    19998, then none on 19997, and older ones on 19996 and 19900. *)
Definition streakStore : Database :=
  foldl (upsertSession 0) emptyDatabase
    [ Session.mk "a" "/p" (20000 * msPerDay + 100) (20000 * msPerDay + 200) 1 100 "x" "x";
      Session.mk "b" "/p" (19999 * msPerDay + 5) (19999 * msPerDay + 5) 1 0 "x" "x";
      Session.mk "c" "/q" (19999 * msPerDay + 777) (19999 * msPerDay + 999) 2 222 "x" "y";
      Session.mk "d" "/p" (19998 * msPerDay) (19998 * msPerDay + 1) 1 1 "x" "x";
      Session.mk "e" "/p" (19996 * msPerDay + 42) (19996 * msPerDay + 42) 1 0 "x" "x";
      Session.mk "f" "/p" (19900 * msPerDay + 42) (19900 * msPerDay + 42) 1 0 "x" "x" ].

Example streakStore_days :
  recentDays streakStore (20000 * msPerDay + 3600000)
  = [20000; 19999; 19998; 19996].
Proof. vm_compute. reflexivity. Qed.

Example streakStore_streak :
  calculateStreak streakStore (20000 * msPerDay + 3600000) 20000
  = mkStreak 3 3 (Some 20000).
Proof. vm_compute. reflexivity. Qed.

Example streakStore_run :
  current (calculateStreak streakStore (20000 * msPerDay + 3600000) 20000) = 3.
Proof.
  apply (calculateStreak_run streakStore (20000 * msPerDay + 3600000) 20000 3).
  - lia.
  - rewrite streakStore_days. intros d Hd.
    repeat (apply elem_of_cons in Hd as [->|Hd]; [lia|]).
    by apply elem_of_nil in Hd.
  - rewrite streakStore_days. intros d Hd.
    assert (d = 20000 ∨ d = 19999 ∨ d = 19998) as Hcases by lia.
    destruct Hcases as [Hd'|[Hd'|Hd']]; rewrite Hd'; repeat constructor.
  - rewrite streakStore_days. intros Hd.
    repeat (apply elem_of_cons in Hd as [Hd|Hd]; [lia|]).
    by apply elem_of_nil in Hd.
Qed.

(** *** The two calendars of [calculateStreak] *)

Definition msPerHour : Z := 3600000.

(** The calendar day of an instant on a clock [utcOffset] ms ahead of UTC:
    what [format(date, 'yyyy-MM-dd')] prints there. *)
Definition localDay (utcOffset : Z) (t : Z) : Z := DATE (t + utcOffset).

(** The days on which some stored session started, on that clock. *)
Definition startDays (utcOffset : Z) (db : Database) : list Z :=
  localDay utcOffset <$> (SessionRow.start_time <$> rows (sessions db)).

(** [calculateStreak(db)] called at the instant [now] on that clock. *)
Definition calculateStreakAt (utcOffset : Z) (db : Database) (now : Z) : Streak :=
  calculateStreak db now (localDay utcOffset now).

(** One session, started at 2024-10-03T13:00Z; the instant 2024-10-03T20:00Z.
    On a clock 13 hours ahead of UTC that is a session at 02:00 and a call
    at 09:00 of 2024-10-04. *)
Definition morningStore : Database :=
  upsertSession 0 emptyDatabase
    (Session.mk "a" "/p" (19999 * msPerDay + 13 * msPerHour)
       (19999 * msPerDay + 13 * msPerHour) 1 0 "x" "x").

Definition morningNow : Z := 19999 * msPerDay + 20 * msPerHour.

(** One session, started at 2024-10-04T04:00Z; the instant 2024-10-04T05:00Z.
    On a clock 8 hours behind UTC that is a session at 20:00 and a call at
    21:00 of 2024-10-03. *)
Definition eveningStore : Database :=
  upsertSession 0 emptyDatabase
    (Session.mk "a" "/p" (20000 * msPerDay + 4 * msPerHour)
       (20000 * msPerDay + 4 * msPerHour) 1 0 "x" "x").

Definition eveningNow : Z := 20000 * msPerDay + 5 * msPerHour.

(** C8. The claim asks for a current streak of [N] on a run of [N] active
    days ending today, and away from UTC the code misses it.  In both
    scenarios the only session started today, on the local calendar and on
    the UTC calendar alike, so there is a run of one active day ending
    today; the function compares the UTC date of the session with the local
    date of the call, finds them different, and reports a current streak of
    0.  On a clock set to UTC the same stores give 1. *)
Theorem C8_streak_is_lost_away_from_utc :
  (startDays (13 * msPerHour) morningStore = [localDay (13 * msPerHour) morningNow]
   ∧ startDays 0 morningStore = [localDay 0 morningNow]
   ∧ current (calculateStreakAt (13 * msPerHour) morningStore morningNow) = 0
   ∧ current (calculateStreakAt 0 morningStore morningNow) = 1)
  ∧ (startDays (- 8 * msPerHour) eveningStore = [localDay (- 8 * msPerHour) eveningNow]
     ∧ startDays 0 eveningStore = [localDay 0 eveningNow]
     ∧ current (calculateStreakAt (- 8 * msPerHour) eveningStore eveningNow) = 0
     ∧ current (calculateStreakAt 0 eveningStore eveningNow) = 1).
Proof. repeat split; vm_compute; reflexivity. Qed.

End HabitDetectorFacts.

(** ** Achievements: facts and claims *)

Module AchievementFacts.
Import Schema SqlDates Achievements.

Definition emittedIds (checks : list AchievementCheck) : list string :=
  Achievement.id <$> achievedOf checks.

Example slug_claude_code : skillSlug "Claude Code" = "claude_code".
Proof. vm_compute. reflexivity. Qed.

Example slug_space_run : skillSlug "Web   Audio API" = "web_audio_api".
Proof. vm_compute. reflexivity. Qed.

Example ratio_900_100 : hitRatioOf 900 100 = 90%float.
Proof. vm_compute. reflexivity. Qed.

Lemma filter_all_rejected {A} (P : A → Prop) `{!∀ x, Decision (P x)}
    (l : list A) :
  (∀ x, x ∈ l → ¬ P x) → filter P l = [].
Proof.
  induction l as [|x l IH]; intros Hall; [done|].
  rewrite filter_cons_False by (apply Hall; left).
  apply IH. intros y Hy. apply Hall. by right.
Qed.

Section WithCollaborators.
Variable differenceInDays : Z → Z → Z.
Variable analyzeSkillProficiency :
  gmap string SessionRow.t → Z → list SkillProficiency.

Abbreviation getNew := (getNewAchievements differenceInDays analyzeSkillProficiency).
Abbreviation checksOf := (allChecks differenceInDays analyzeSkillProficiency).

Lemma ensureAchievementsTable_idemp db :
  ensureAchievementsTable (ensureAchievementsTable db)
  = ensureAchievementsTable db.
Proof. unfold ensureAchievementsTable. simpl. done. Qed.

Lemma unlockedIds_ensure db :
  unlockedIds (ensureAchievementsTable db) = unlockedIds db.
Proof. unfold unlockedIds, ensureAchievementsTable. simpl. done. Qed.

(** The checks read the sessions and projects tables only. *)
Lemma allChecks_frame db db' now :
  sessions db' = sessions db → projects db' = projects db →
  checksOf db' now = checksOf db now.
Proof.
  intros Hs Hp. unfold allChecks, checkStreakAchievements, currentStreakQuery,
    checkSkillAchievements, checkCostAchievements, cacheRead, cacheCreation,
    sumWhereCaching, checkProductivityAchievements, totalPromptCount,
    checkMilestoneAchievements, firstSession, weekendSessions.
  by rewrite Hs, Hp.
Qed.

Lemma getNew_spec db now :
  getNew db now
  = (ensureAchievementsTable db,
     filter (λ a, Achievement.id a ∉ unlockedIds db)
            (achievedOf (checksOf db now))).
Proof.
  unfold getNewAchievements. rewrite unlockedIds_ensure.
  by rewrite (allChecks_frame db (ensureAchievementsTable db)).
Qed.

Lemma getNew_not_unlocked db now a :
  a ∈ (getNew db now).2 → Achievement.id a ∉ unlockedIds db.
Proof.
  rewrite getNew_spec. simpl. by intros [? _]%list_elem_of_filter.
Qed.

Lemma unlockedIds_saveAchievement db a :
  unlockedIds (saveAchievement db a) = {[Achievement.id a]} ∪ unlockedIds db.
Proof.
  unfold unlockedIds, saveAchievement, ensureAchievementsTable. simpl.
  by rewrite dom_insert_L.
Qed.

Lemma unlockedIds_foldl_saveAchievement l db :
  unlockedIds (foldl saveAchievement db l)
  = list_to_set (Achievement.id <$> l) ∪ unlockedIds db.
Proof.
  revert db. induction l as [|a l IH]; intros db; simpl.
  - by rewrite (left_id_L ∅ (∪)).
  - rewrite IH, unlockedIds_saveAchievement.
    rewrite (assoc_L (∪)). f_equal. apply (comm_L (∪)).
Qed.

Lemma saveAchievement_frame db a :
  sessions (saveAchievement db a) = sessions db
  ∧ projects (saveAchievement db a) = projects db.
Proof. done. Qed.

Lemma foldl_saveAchievement_frame l db :
  sessions (foldl saveAchievement db l) = sessions db
  ∧ projects (foldl saveAchievement db l) = projects db.
Proof.
  revert db. induction l as [|a l IH]; intros db; simpl; [done|].
  destruct (IH (saveAchievement db a)) as [-> ->]. done.
Qed.

(** *** The writers of the store leave unlocked identifiers unlocked *)

Lemma achievements_foldl_upsertSession now l db :
  achievements (foldl (upsertSession now) db l) = achievements db.
Proof. revert db. induction l as [|s l IH]; intros db; simpl; [done|]. by rewrite IH. Qed.

Lemma achievements_foldl_insertPromptFor now sessions l st :
  achievements (foldl (Sync.insertPromptFor now sessions) st l).1
  = achievements st.1.
Proof.
  revert st. induction l as [|e l IH]; intros st; simpl; [done|].
  rewrite IH. unfold Sync.insertPromptFor.
  by destruct (Sync.findSession sessions e).
Qed.

Lemma achievements_foldl_upsertProjectStats now
    (mk : string → ProjectStatsInput) paths db :
  achievements (foldl (λ d q, upsertProjectStats now d (mk q)) db paths)
  = achievements db.
Proof.
  revert db. induction paths as [|q paths IH]; intros db; simpl; [done|].
  by rewrite IH.
Qed.

Lemma achievements_syncData db history cfg now :
  achievements (Sync.syncData db history cfg now).1 = achievements db.
Proof.
  unfold Sync.syncData.
  set (entries := Sync.entriesToProcess db history).
  set (sessions := HistoryParser.groupIntoSessions entries
                     HistoryParser.defaultSessionGapMs).
  destruct (foldl (Sync.insertPromptFor now sessions)
              (foldl (upsertSession now) db sessions, 0%nat) entries)
    as [db2 processed] eqn:Hdb2.
  simpl. rewrite achievements_foldl_upsertProjectStats.
  change db2 with (db2, processed).1. rewrite <-Hdb2.
  rewrite achievements_foldl_insertPromptFor. simpl.
  apply achievements_foldl_upsertSession.
Qed.

(** The store after any further run of the operations that write it. *)
Inductive Later (db : Database) : Database → Prop :=
  | later_now : Later db db
  | later_save db' a :
      Later db db' → Later db (saveAchievement db' a)
  | later_getNew db' now :
      Later db db' → Later db (getNew db' now).1
  | later_sync db' history cfg now :
      Later db db' → Later db (Sync.syncData db' history cfg now).1.

Lemma Later_unlockedIds db db' :
  Later db db' → unlockedIds db ⊆ unlockedIds db'.
Proof.
  induction 1 as [|db' a _ IH|db' now _ IH|db' history cfg now _ IH].
  - done.
  - rewrite unlockedIds_saveAchievement. by apply union_subseteq_r'.
  - rewrite getNew_spec. simpl. by rewrite unlockedIds_ensure.
  - unfold unlockedIds in *. by rewrite achievements_syncData.
Qed.

End WithCollaborators.
End AchievementFacts.

Module AchievementClaims.
Import Schema SqlDates Achievements AchievementFacts.

(** A store whose projects with cache writes add up to 900 cache-read and
    100 cache-creation tokens; "/c" has no cache writes and is not summed. *)
Definition cacheStore : Database :=
  foldl (upsertProjectStats 0) emptyDatabase
    [ mkProjectStatsInput "/a" 0 0 0 0 0 0 0 1.5 10 10 60 600;
      mkProjectStatsInput "/b" 0 0 0 0 0 0 0 0.5 10 10 40 300;
      mkProjectStatsInput "/c" 0 0 0 0 0 0 0 0 10 10 0 5000 ].

Example cacheStore_sums : cacheRead cacheStore = 900 ∧ cacheCreation cacheStore = 100.
Proof. split; vm_compute; reflexivity. Qed.





(** A store with the cache totals of [cacheStore] and one session that
    started at instant 0. *)
Definition storeWithHistory : Database :=
  upsertSession 0 cacheStore (Session.mk "S1" "/a" 0 0 1 0 "first" "first").

(** Ten days later. *)
Definition tenDaysOn : Z := 10 * msPerDay.

(** A stand-in for date-fns: whole days between two instants. *)
Definition wholeDays (later earlier : Z) : Z := (later - earlier) `quot` msPerDay.

(** A stand-in for the skill analysis: one expert skill, whatever the store. *)
Definition oneExpert (_ : gmap string SessionRow.t) (_ : Z)
  : list SkillProficiency :=
  [mkSkillProficiency "Claude Code" SkillProficiency.expert 85 200].

Example first_check :
  Achievement.id <$> (getNewAchievements wholeDays oneExpert storeWithHistory tenDaysOn).2
  = ["skill_expert_claude_code"; "cache_master"; "milestone_1_days";
     "milestone_7_days"].
Proof. vm_compute. reflexivity. Qed.

(** C5. (1) Calling [getNewAchievements] twice in a row at one clock
    reading, with nothing written in between but what the first call itself
    does (it creates the table when missing), returns the same achievements
    both times.  (2) After every returned achievement is persisted with
    [saveAchievement], a further call at that clock reading returns none,
    and a call at any clock reading returns none of those identifiers.
    (3) Once an identifier is persisted it is never returned as new again,
    whatever saves, checks and syncs happen afterwards.  This holds for any
    date-fns [differenceInDays] and any skill analysis. *)
Theorem C5_new_achievements_idempotent
    (differenceInDays : Z → Z → Z)
    (analyzeSkillProficiency : gmap string SessionRow.t → Z → list SkillProficiency)
    (db : Database) (now : Z) :
  let getNew := getNewAchievements differenceInDays analyzeSkillProficiency in
  let first := getNew db now in
  let persisted := foldl saveAchievement first.1 first.2 in
  (getNew first.1 now).2 = first.2
  ∧ (getNew persisted now).2 = []
  ∧ (∀ (now' : Z) (a x : Achievement.t),
       a ∈ first.2 → x ∈ (getNew persisted now').2 →
       Achievement.id x ≠ Achievement.id a)
  ∧ (∀ (a x : Achievement.t) (db' : Database) (now' : Z),
       Later differenceInDays analyzeSkillProficiency (saveAchievement db a) db' →
       x ∈ (getNew db' now').2 →
       Achievement.id x ≠ Achievement.id a).
Proof.
  intros getNew first persisted. subst getNew first persisted.
  rewrite !(getNew_spec differenceInDays analyzeSkillProficiency db now).
  cbn [fst snd].
  split; [|split; [|split]].
  - rewrite getNew_spec. cbn [snd]. rewrite unlockedIds_ensure.
    by rewrite (allChecks_frame _ _ db (ensureAchievementsTable db)).
  - rewrite getNew_spec. cbn [snd].
    destruct (foldl_saveAchievement_frame
                (filter (λ a, Achievement.id a ∉ unlockedIds db)
                   (achievedOf (allChecks differenceInDays
                                  analyzeSkillProficiency db now)))
                (ensureAchievementsTable db)) as [Hs Hp].
    rewrite (allChecks_frame _ _ (ensureAchievementsTable db) _ now Hs Hp).
    rewrite (allChecks_frame _ _ db (ensureAchievementsTable db)) by done.
    rewrite unlockedIds_foldl_saveAchievement, unlockedIds_ensure.
    apply filter_all_rejected. intros x Hx Hnew. apply Hnew.
    destruct (decide (Achievement.id x ∈ unlockedIds db)) as [Hin|Hnin].
    + by apply elem_of_union_r.
    + apply elem_of_union_l, elem_of_list_to_set, list_elem_of_fmap.
      exists x. split; [done|]. by apply list_elem_of_filter.
  - intros now' a x Ha Hx Heq.
    apply getNew_not_unlocked in Hx.
    rewrite unlockedIds_foldl_saveAchievement in Hx.
    apply Hx, elem_of_union_l, elem_of_list_to_set, list_elem_of_fmap.
    exists a. done.
  - intros a x db' now' Hlater Hx Heq.
    apply getNew_not_unlocked in Hx. apply Hx.
    apply (Later_unlockedIds _ _ _ _ Hlater).
    rewrite unlockedIds_saveAchievement, Heq. by apply elem_of_union_l, elem_of_singleton.
Qed.

(** On [storeWithHistory], ten days on: the second call repeats the first,
    and after persisting nothing is new. *)
Lemma C5_new_achievements_idempotent_witness :
  (getNewAchievements wholeDays oneExpert
     (getNewAchievements wholeDays oneExpert storeWithHistory tenDaysOn).1
     tenDaysOn).2
  = (getNewAchievements wholeDays oneExpert storeWithHistory tenDaysOn).2
  ∧ (getNewAchievements wholeDays oneExpert
       (foldl saveAchievement
          (getNewAchievements wholeDays oneExpert storeWithHistory tenDaysOn).1
          (getNewAchievements wholeDays oneExpert storeWithHistory tenDaysOn).2)
       tenDaysOn).2
    = [].
Proof.
  destruct (C5_new_achievements_idempotent wholeDays oneExpert
              storeWithHistory tenDaysOn) as (Hsame & Hnone & _).
  split; [exact Hsame|exact Hnone].
Defined.
End AchievementClaims.

(** ** Session builder and log queries: further properties *)

Module SessionExtras.
Import HistoryParser SortFacts GroupFacts Scenarios HistoryQueries.

(** X1. Every session [groupIntoSessions] returns is well formed: it ends no
    earlier than it starts, counts at least one prompt, and its duration is
    its end minus its start. *)
Theorem X1_sessions_are_well_formed (entries : list HistoryEntry.t)
    (sessionGapMs : Z) (s : Session.t) :
  s ∈ groupIntoSessions entries sessionGapMs →
  Session.startTime s <= Session.endTime s
  ∧ (1 <= Session.promptCount s)%nat
  ∧ Session.duration s = Session.endTime s - Session.startTime s.
Proof.
  intros Hs.
  pose proof (groupIntoSessions_wf entries sessionGapMs) as Hwf.
  rewrite Forall_forall in Hwf. exact (Hwf s Hs).
Qed.

Lemma X1_sessions_are_well_formed_witness :
  0 <= 600000 ∧ (1 <= 2)%nat ∧ 600000 = 600000 - 0.
Proof.
  apply (X1_sessions_are_well_formed
           [ev (minutes 50) "/p" None; ev 0 "/p" None; ev (minutes 10) "/p" None]
           defaultSessionGapMs
           (Session.mk "auto-0" "/p" 0 600000 2 600000 "prompt@0" "prompt@600000")).
  rewrite three_events. left.
Defined.

Lemma placements_is_Some entries gap i e :
  sortByTimestamp entries !! i = Some e →
  ∃ k, placements entries gap !! i = Some k.
Proof.
  intros He. unfold placements. eexists.
  apply placementsFrom_lookup. by eapply lookup_lt_Some.
Qed.

(** The session an event is put in. *)
Lemma owning_session entries gap e :
  e ∈ entries →
  ∃ s : Session.t,
    s ∈ groupIntoSessions entries gap
    ∧ Session.project s = HistoryEntry.project e
    ∧ Session.startTime s <= HistoryEntry.timestamp e <= Session.endTime s
    ∧ Session.sessionId s
      = match HistoryEntry.sessionId e with
        | Some id => if bool_decide (id = "") then Session.sessionId s else id
        | None => Session.sessionId s
        end.
Proof.
  intros He.
  rewrite <-(sortByTimestamp_Permutation entries) in He.
  apply list_elem_of_lookup in He as [i Hi].
  destruct (placements_is_Some entries gap i e Hi) as [k Hk].
  destruct (placement_session entries gap i e k Hi Hk) as (s & Hs & Hid & Hproj).
  exists s. split; [by eapply list_elem_of_lookup_2|].
  split; [done|]. split.
  - by apply (placement_times entries gap i e k s).
  - destruct (HistoryEntry.sessionId e) as [id|] eqn:Heid; [|done].
    case_bool_decide as Hne; [done|].
    rewrite Hid. simpl. by rewrite bool_decide_eq_false_2.
Qed.

(** X2. Every input event is counted in some returned session of its own
    project whose time span contains the event's timestamp; when the event
    carries a non-empty explicit identifier, that session bears it. *)
Theorem X2_every_event_has_its_session (entries : list HistoryEntry.t)
    (sessionGapMs : Z) (e : HistoryEntry.t) :
  e ∈ entries →
  ∃ s : Session.t,
    s ∈ groupIntoSessions entries sessionGapMs
    ∧ Session.project s = HistoryEntry.project e
    ∧ Session.startTime s <= HistoryEntry.timestamp e <= Session.endTime s
    ∧ ∀ id, HistoryEntry.sessionId e = Some id → id ≠ "" →
            Session.sessionId s = id.
Proof.
  intros He.
  destruct (owning_session entries sessionGapMs e He) as (s & Hs & Hp & Ht & Hid).
  exists s. repeat split; try done; try lia.
  intros id Heid Hne. rewrite Heid in Hid.
  by rewrite bool_decide_eq_false_2 in Hid.
Qed.

Lemma X2_every_event_has_its_session_witness :
  ∃ s : Session.t,
    s ∈ groupIntoSessions
          [ev (minutes 50) "/p" None; ev 0 "/p" None; ev (minutes 10) "/p" None]
          defaultSessionGapMs
    ∧ Session.project s = "/p"
    ∧ Session.startTime s <= 600000 <= Session.endTime s.
Proof.
  destruct (X2_every_event_has_its_session
              [ev (minutes 50) "/p" None; ev 0 "/p" None; ev (minutes 10) "/p" None]
              defaultSessionGapMs (ev (minutes 10) "/p" None))
    as (s & Hs & Hp & Ht & _).
  - right. right. left.
  - exists s. split; [exact Hs|]. split; [exact Hp|exact Ht].
Defined.

(** *** What a session's bounds and contents are *)

(** The start, end, first content and last content of a session are those of
    events of [E] that belong to the session's project. *)
Definition attained (E : list HistoryEntry.t) (s : Session.t) : Prop :=
  ∃ e1 e2 : HistoryEntry.t,
    e1 ∈ E ∧ e2 ∈ E
    ∧ HistoryEntry.project e1 = Session.project s
    ∧ HistoryEntry.project e2 = Session.project s
    ∧ HistoryEntry.timestamp e1 = Session.startTime s
    ∧ HistoryEntry.timestamp e2 = Session.endTime s
    ∧ HistoryEntry.display e1 = Session.firstPrompt s
    ∧ HistoryEntry.display e2 = Session.lastPrompt s.

Definition curAttained (E : list HistoryEntry.t) (c : CurrentSession) : Prop :=
  ∃ p0 ps,
    cs_prompts c = p0 :: ps
    ∧ p0 ∈ E ∧ List.last (p0 :: ps) p0 ∈ E
    ∧ HistoryEntry.project p0 = cs_project c
    ∧ HistoryEntry.project (List.last (p0 :: ps) p0) = cs_project c
    ∧ HistoryEntry.timestamp p0 = cs_startTime c
    ∧ HistoryEntry.timestamp (List.last (p0 :: ps) p0) = cs_endTime c.

Record BoundsInv (E : list HistoryEntry.t) (st : LoopState) : Prop := mkBoundsInv {
  bi_sessions : Forall (attained E) st.1;
  bi_cur : ∀ c, st.2 = Some c → curAttained E c;
}.

Lemma pushSession_attained E sessions c :
  Forall (attained E) sessions → curAttained E c →
  Forall (attained E) (pushSession sessions c).
Proof.
  intros Hall (p0 & ps & Hp & Hin0 & Hinl & Hpr0 & Hprl & Ht0 & Htl).
  unfold pushSession. rewrite Hp.
  apply Forall_app; split; [done|]. constructor; [|constructor].
  exists p0, (List.last (p0 :: ps) p0). done.
Qed.

Lemma step_BoundsInv E gap st e :
  e ∈ E → BoundsInv E st → BoundsInv E (step gap st e).
Proof.
  intros He [Hall Hcur]. destruct st as [sessions [c|]]; cbn [fst snd] in *.
  - specialize (Hcur c eq_refl).
    unfold step. destruct (shouldStartNew (Some c) e gap) eqn:Hnew; split; cbn [fst snd].
    + by apply pushSession_attained.
    + intros c' [= <-]. exists e, []. simpl. done.
    + done.
    + intros c' [= <-].
      destruct Hcur as (p0 & ps & Hp & Hin0 & Hinl & Hpr0 & Hprl & Ht0 & Htl).
      unfold shouldStartNew in Hnew.
      apply orb_false_elim in Hnew as [Hnew _].
      apply orb_false_elim in Hnew as [_ Hproj].
      apply negb_false_iff, bool_decide_eq_true in Hproj.
      assert (List.last (p0 :: ps ++ [e]) p0 = e) as Hlast.
      { change (p0 :: ps ++ [e]) with ((p0 :: ps) ++ [e]). apply last_last. }
      exists p0, (ps ++ [e]). rewrite Hlast. cbn [cs_prompts cs_project
        cs_startTime cs_endTime]. rewrite Hp. done.
  - unfold step; simpl. split; simpl; [done|].
    intros c' [= <-]. exists e, []. simpl. done.
Qed.

Lemma foldl_step_BoundsInv E gap l st :
  l ⊆ E → BoundsInv E st → BoundsInv E (foldl (step gap) st l).
Proof.
  revert st. induction l as [|e l IH]; intros st Hsub Hinv; simpl; [done|].
  apply IH.
  - intros x Hx. apply Hsub. by right.
  - apply step_BoundsInv; [|done]. apply Hsub. left.
Qed.

Lemma groupIntoSessions_attained entries gap :
  Forall (attained entries) (groupIntoSessions entries gap).
Proof.
  unfold groupIntoSessions. destruct entries as [|e0 entries]; [constructor|].
  set (E := e0 :: entries).
  assert (BoundsInv E (foldl (step gap) ([], None) (sortByTimestamp E)))
    as [Hall Hcur].
  { apply foldl_step_BoundsInv.
    - intros x Hx. by rewrite sortByTimestamp_Permutation in Hx.
    - split; simpl; [constructor|done]. }
  unfold finish.
  destruct (foldl (step gap) ([], None) (sortByTimestamp E)) as [sessions [c|]];
    simpl in *; [|done].
  apply pushSession_attained; [done|]. by apply Hcur.
Qed.

(** X3. The start and the end of every returned session are the timestamps
    of input events of the session's project, and its first and last content
    are the contents of those two events. *)
Theorem X3_session_bounds_are_event_times (entries : list HistoryEntry.t)
    (sessionGapMs : Z) (s : Session.t) :
  s ∈ groupIntoSessions entries sessionGapMs →
  ∃ e1 e2 : HistoryEntry.t,
    e1 ∈ entries ∧ e2 ∈ entries
    ∧ HistoryEntry.project e1 = Session.project s
    ∧ HistoryEntry.project e2 = Session.project s
    ∧ HistoryEntry.timestamp e1 = Session.startTime s
    ∧ HistoryEntry.timestamp e2 = Session.endTime s
    ∧ HistoryEntry.display e1 = Session.firstPrompt s
    ∧ HistoryEntry.display e2 = Session.lastPrompt s.
Proof.
  intros Hs. pose proof (groupIntoSessions_attained entries sessionGapMs) as Hall.
  rewrite Forall_forall in Hall. exact (Hall s Hs).
Qed.

Lemma X3_session_bounds_are_event_times_witness :
  ∃ e1 e2 : HistoryEntry.t,
    HistoryEntry.timestamp e1 = 0 ∧ HistoryEntry.timestamp e2 = 600000
    ∧ HistoryEntry.display e1 = "prompt@0"
    ∧ HistoryEntry.display e2 = "prompt@600000".
Proof.
  destruct (X3_session_bounds_are_event_times
              [ev (minutes 50) "/p" None; ev 0 "/p" None; ev (minutes 10) "/p" None]
              defaultSessionGapMs
              (Session.mk "auto-0" "/p" 0 600000 2 600000 "prompt@0" "prompt@600000"))
    as (e1 & e2 & _ & _ & _ & _ & H1 & H2 & H3 & H4).
  - rewrite three_events. left.
  - exists e1, e2. split; [exact H1|]. split; [exact H2|].
    split; [exact H3|exact H4].
Defined.

End SessionExtras.

Module HistoryQueriesFacts.
Import HistoryParser SortFacts GroupFacts Scenarios HistoryQueries SessionExtras.

Lemma fmap_NoDup_inj {A B} (f : A → B) (l : list A) x y :
  NoDup (f <$> l) → x ∈ l → y ∈ l → f x = f y → x = y.
Proof.
  intros Hnd [i Hi]%list_elem_of_lookup [j Hj]%list_elem_of_lookup Hf.
  assert (i = j) as ->.
  { apply (NoDup_lookup (f <$> l) i j (f x) Hnd).
    - by rewrite list_lookup_fmap, Hi.
    - by rewrite list_lookup_fmap, Hj, Hf. }
  congruence.
Qed.

Lemma sortByTimestamp_unique entries1 entries2 :
  entries1 ≡ₚ entries2 →
  NoDup (HistoryEntry.timestamp <$> entries1) →
  sortByTimestamp entries1 = sortByTimestamp entries2.
Proof.
  intros Hperm Hnd.
  apply (StronglySorted_unique_strong le_ts).
  - intros x1 x2 Hx1 Hx2 H12 H21.
    rewrite sortByTimestamp_Permutation in Hx1.
    rewrite sortByTimestamp_Permutation, <-Hperm in Hx2.
    apply (fmap_NoDup_inj HistoryEntry.timestamp entries1); [done..|].
    unfold le_ts in *. lia.
  - apply sortByTimestamp_sorted.
  - apply sortByTimestamp_sorted.
  - by rewrite !sortByTimestamp_Permutation.
Qed.

(** X4. When no two events share a timestamp, the sessions returned do not
    depend on the order in which the events are listed. *)
Theorem X4_grouping_ignores_input_order (entries1 entries2 : list HistoryEntry.t)
    (sessionGapMs : Z) :
  entries1 ≡ₚ entries2 →
  NoDup (HistoryEntry.timestamp <$> entries1) →
  groupIntoSessions entries1 sessionGapMs = groupIntoSessions entries2 sessionGapMs.
Proof.
  intros Hperm Hnd. unfold groupIntoSessions.
  rewrite (sortByTimestamp_unique entries1 entries2 Hperm Hnd).
  destruct entries1 as [|a l1], entries2 as [|b l2]; try done.
  by apply Permutation_nil_cons in Hperm.
Qed.

Lemma X4_grouping_ignores_input_order_witness :
  groupIntoSessions
    [ev (minutes 50) "/p" None; ev 0 "/p" None; ev (minutes 10) "/p" None]
    defaultSessionGapMs
  = groupIntoSessions
      [ev 0 "/p" None; ev (minutes 10) "/p" None; ev (minutes 50) "/p" None]
      defaultSessionGapMs.
Proof.
  apply X4_grouping_ignores_input_order.
  - apply (Permutation_cons_append
             [ev 0 "/p" None; ev (minutes 10) "/p" None] (ev (minutes 50) "/p" None)).
  - apply (bool_decide_unpack _). vm_compute. exact I.
Defined.

(** *** Per-project tallies *)

Definition sessionsOf (p : string) (sessions : list Session.t) : list Session.t :=
  filter (λ s, Session.project s = p) sessions.

Definition totalFor (p : string) (st : LoopState) : nat :=
  (sum_list_with Session.promptCount (sessionsOf p st.1)
   + match st.2 with
     | Some c => if decide (cs_project c = p) then length (cs_prompts c) else 0
     | None => 0
     end)%nat.

Definition oneIf (P : Prop) `{Decision P} : nat := if decide P then 1%nat else 0%nat.

Lemma pushSession_countFor p sessions c :
  sum_list_with Session.promptCount (sessionsOf p (pushSession sessions c))
  = (sum_list_with Session.promptCount (sessionsOf p sessions)
     + if decide (cs_project c = p) then length (cs_prompts c) else 0)%nat.
Proof.
  unfold pushSession, sessionsOf.
  destruct (cs_prompts c) as [|p0 ps] eqn:Hp.
  - simpl. case_decide; lia.
  - rewrite filter_app, sum_list_with_app.
    destruct (decide (cs_project c = p)) as [Heq|Hne].
    + rewrite filter_cons_True by done. simpl. lia.
    + rewrite filter_cons_False by done. simpl. lia.
Qed.

Lemma step_totalFor p gap st e :
  totalFor p (step gap st e)
  = (totalFor p st + oneIf (HistoryEntry.project e = p))%nat.
Proof.
  destruct st as [sessions [c|]]; unfold step, totalFor, oneIf.
  - destruct (shouldStartNew (Some c) e gap) eqn:Hnew; cbn [fst snd].
    + rewrite pushSession_countFor. cbn [cs_project cs_prompts length].
      repeat case_decide; lia.
    + unfold shouldStartNew in Hnew.
      apply orb_false_elim in Hnew as [Hnew _].
      apply orb_false_elim in Hnew as [_ Hproj].
      apply negb_false_iff, bool_decide_eq_true in Hproj.
      cbn [cs_project cs_prompts]. rewrite length_app, Hproj. simpl.
      repeat case_decide; lia.
  - simpl. repeat case_decide; lia.
Qed.

Lemma length_filterByProject_cons e l p :
  length (filterByProject (e :: l) p)
  = (oneIf (HistoryEntry.project e = p) + length (filterByProject l p))%nat.
Proof.
  unfold filterByProject, oneIf.
  destruct (decide (HistoryEntry.project e = p)) as [Heq|Hne].
  - by rewrite filter_cons_True.
  - by rewrite filter_cons_False.
Qed.

Lemma foldl_step_totalFor p gap l st :
  totalFor p (foldl (step gap) st l)
  = (totalFor p st + length (filterByProject l p))%nat.
Proof.
  revert st. induction l as [|e l IH]; intros st; simpl.
  - unfold filterByProject. simpl. lia.
  - rewrite IH, step_totalFor, length_filterByProject_cons. lia.
Qed.

Lemma finish_totalFor p st :
  sum_list_with Session.promptCount (sessionsOf p (finish st)) = totalFor p st.
Proof.
  destruct st as [sessions [c|]]; unfold finish, totalFor; cbn [fst snd].
  - apply pushSession_countFor.
  - lia.
Qed.

Lemma groupIntoSessions_totalFor entries gap p :
  sum_list_with Session.promptCount (sessionsOf p (groupIntoSessions entries gap))
  = length (filterByProject entries p).
Proof.
  unfold groupIntoSessions. destruct entries as [|e0 entries]; [done|].
  rewrite finish_totalFor, foldl_step_totalFor.
  assert (totalFor p ([], None) = 0%nat) as -> by done.
  rewrite Nat.add_0_l. apply Permutation_length. unfold filterByProject.
  by rewrite sortByTimestamp_Permutation.
Qed.

(** X5. For every project, the prompt counts of the returned sessions of that
    project add up to the number of input events of that project. *)
Theorem X5_sessions_partition_each_project (entries : list HistoryEntry.t)
    (sessionGapMs : Z) (p : string) :
  sum_list_with Session.promptCount
    (filter (λ s, Session.project s = p) (groupIntoSessions entries sessionGapMs))
  = length (filterByProject entries p).
Proof. apply groupIntoSessions_totalFor. Qed.

Lemma getPromptsPerProject_get_from p l counts :
  JsMap.get p
    (foldl (λ counts entry,
              JsMap.set (HistoryEntry.project entry)
                (default 0 (JsMap.get (HistoryEntry.project entry) counts) + 1)
                counts) counts l)
  = match length (filterByProject l p) with
    | O => JsMap.get p counts
    | S n => Some (default 0 (JsMap.get p counts) + Z.of_nat (S n))
    end.
Proof.
  revert counts. induction l as [|e l IH]; intros counts; [done|].
  cbn [foldl]. rewrite IH, length_filterByProject_cons. unfold oneIf.
  destruct (decide (HistoryEntry.project e = p)) as [<-|Hne].
  - rewrite JsMapFacts.get_set_eq. cbn [default Nat.add].
    destruct (length _); unfold id; f_equal; lia.
  - rewrite JsMapFacts.get_set_ne by done. done.
Qed.

(** X6. [getPromptsPerProject] maps a project to the number of events of
    that project, and has no key for a project without events. *)
Theorem X6_prompts_per_project_counts (entries : list HistoryEntry.t) (p : string) :
  JsMap.get p (getPromptsPerProject entries)
  = match length (filterByProject entries p) with
    | O => None
    | S n => Some (Z.of_nat (S n))
    end.
Proof.
  unfold getPromptsPerProject. rewrite getPromptsPerProject_get_from.
  destruct (length _); done.
Qed.

Lemma keys_set {V} k (v : V) m :
  JsMap.keys (JsMap.set k v m)
  = if decide (k ∈ JsMap.keys m) then JsMap.keys m else JsMap.keys m ++ [k].
Proof.
  unfold JsMap.keys. induction m as [|[k' v'] m IH]; cbn [JsMap.set fmap list_fmap].
  - rewrite decide_False; [done|]. by intros ?%elem_of_nil.
  - destruct (decide (k = k')) as [->|Hne]; cbn [fmap list_fmap fst].
    + rewrite decide_True; [done|left].
    + fold (@fmap list _ _ _ (@fst string V) (JsMap.set k v m)).
      fold (@fmap list _ _ _ (@fst string V) m).
      rewrite IH. destruct (decide (k ∈ fst <$> m)) as [Hin|Hnin].
      * rewrite decide_True; [done|by right].
      * rewrite decide_False; [done|].
        intros [?|?]%elem_of_cons; done.
Qed.

Lemma getPromptsPerProject_keys_from l counts :
  JsMap.keys
    (foldl (λ counts entry,
              JsMap.set (HistoryEntry.project entry)
                (default 0 (JsMap.get (HistoryEntry.project entry) counts) + 1)
                counts) counts l)
  = foldl (λ acc x, if decide (x ∈ acc) then acc else acc ++ [x])
          (JsMap.keys counts) (HistoryEntry.project <$> l).
Proof.
  revert counts. induction l as [|e l IH]; intros counts; [done|].
  cbn [foldl fmap list_fmap]. rewrite IH, keys_set. done.
Qed.

Lemma insertString_Permutation s l : insertString s l ≡ₚ s :: l.
Proof.
  induction l as [|x l IH]; simpl; [done|].
  case_match; [done|]. rewrite IH. apply Permutation_swap.
Qed.

Lemma sortStrings_Permutation l : sortStrings l ≡ₚ l.
Proof.
  unfold sortStrings. induction l as [|x l IH]; simpl; [done|].
  by rewrite insertString_Permutation, IH.
Qed.

Lemma insertString_sorted s l :
  StronglySorted String.le l → StronglySorted String.le (insertString s l).
Proof.
  induction 1 as [|x l Hl IH Hx]; simpl.
  - repeat constructor.
  - destruct (String.leb s x) eqn:Hsx.
    + constructor; [by constructor|]. constructor.
      * unfold String.le. by rewrite Hsx.
      * eapply Forall_impl; [exact Hx|]. intros y Hy.
        transitivity x; [|done]. unfold String.le. by rewrite Hsx.
    + constructor; [done|].
      rewrite insertString_Permutation. constructor; [|done].
      destruct (String.le_total s x) as [Hle|Hle]; [|done].
      unfold String.le in Hle. by rewrite Hsx in Hle.
Qed.

Lemma sortStrings_sorted l : StronglySorted String.le (sortStrings l).
Proof.
  unfold sortStrings. induction l as [|x l IH]; simpl; [constructor|].
  by apply insertString_sorted.
Qed.

Lemma NoDup_setOf_from (l acc : list string) :
  NoDup acc →
  NoDup (foldl (λ acc x, if decide (x ∈ acc) then acc else acc ++ [x]) acc l).
Proof.
  revert acc. induction l as [|x l IH]; intros acc Hacc; simpl; [done|].
  apply IH. case_decide; [done|].
  apply NoDup_app. split; [done|]. split; [|apply NoDup_singleton].
  intros y Hy ->%list_elem_of_singleton. done.
Qed.

Lemma NoDup_setOf l : NoDup (JsMap.setOf l).
Proof. apply NoDup_setOf_from. constructor. Qed.

(** X7. [getUniqueProjects] lists exactly the projects that occur in the
    log, each once, in ascending order; they are the keys of the
    [getPromptsPerProject] map, sorted. *)
Theorem X7_unique_projects_sorted_and_complete (entries : list HistoryEntry.t) :
  StronglySorted String.le (getUniqueProjects entries)
  ∧ NoDup (getUniqueProjects entries)
  ∧ (∀ p, p ∈ getUniqueProjects entries
          ↔ ∃ e, e ∈ entries ∧ HistoryEntry.project e = p)
  ∧ getUniqueProjects entries
    = sortStrings (JsMap.keys (getPromptsPerProject entries)).
Proof.
  unfold getUniqueProjects. repeat split.
  - apply sortStrings_sorted.
  - rewrite sortStrings_Permutation. apply NoDup_setOf.
  - rewrite sortStrings_Permutation, JsMapFacts.elem_of_setOf.
    intros (e & -> & He)%list_elem_of_fmap. by exists e.
  - intros (e & He & <-).
    rewrite sortStrings_Permutation, JsMapFacts.elem_of_setOf.
    apply list_elem_of_fmap. by exists e.
  - unfold getPromptsPerProject. by rewrite getPromptsPerProject_keys_from.
Qed.

(** X8. Grouping a log that was first restricted to one project and then to
    a date range gives only sessions of that project that start and end
    inside the range. *)
Theorem X8_filtered_log_gives_filtered_sessions (entries : list HistoryEntry.t)
    (projectPath : string) (startDate endDate sessionGapMs : Z) (s : Session.t) :
  s ∈ groupIntoSessions
        (filterByDateRange (filterByProject entries projectPath) startDate endDate)
        sessionGapMs →
  Session.project s = projectPath
  ∧ startDate <= Session.startTime s
  ∧ Session.endTime s <= endDate.
Proof.
  intros Hs.
  pose proof (groupIntoSessions_attained
                (filterByDateRange (filterByProject entries projectPath)
                                   startDate endDate) sessionGapMs) as Hall.
  rewrite Forall_forall in Hall.
  destruct (Hall s Hs) as (e1 & e2 & He1 & He2 & Hp1 & _ & Ht1 & Ht2 & _).
  unfold filterByDateRange, filterByProject in He1, He2.
  apply list_elem_of_filter in He1 as [[Ha1 Hb1] He1].
  apply list_elem_of_filter in He1 as [Hq1 _].
  apply list_elem_of_filter in He2 as [[Ha2 Hb2] _].
  rewrite <-Hp1, <-Ht1, <-Ht2. done.
Qed.

Lemma X8_filtered_log_gives_filtered_sessions_witness :
  "/p" = "/p" ∧ 0 <= 0 ∧ 600000 <= minutes 20.
Proof.
  apply (X8_filtered_log_gives_filtered_sessions
           [ev (minutes 50) "/p" None; ev 0 "/p" None; ev (minutes 5) "/q" None;
            ev (minutes 10) "/p" None]
           "/p" 0 (minutes 20) defaultSessionGapMs
           (Session.mk "auto-0" "/p" 0 600000 2 600000 "prompt@0" "prompt@600000")).
  vm_compute. left.
Defined.

End HistoryQueriesFacts.

(** ** Sync: further properties *)

Module SyncExtras.
Import HistoryParser Schema Sync SortFacts GroupFacts Scenarios SessionExtras.
Import HistoryQueries HistoryQueriesFacts SyncFacts SyncScenario.

(** [syncData] with the destructuring of the prompt loop's result undone. *)
Lemma syncData_unfold db history cfg now :
  syncData db history cfg now
  = let entries := entriesToProcess db history in
    let ss := groupIntoSessions entries defaultSessionGapMs in
    let st := foldl (insertPromptFor now ss)
                    (foldl (upsertSession now) db ss, 0%nat) entries in
    (setMetadata now
       (foldl (λ d projectPath,
                 upsertProjectStats now d
                   (mergedStats now (foldl addSessionStats [] ss)
                      (getAllProjects cfg) projectPath))
              st.1 (allProjects ss cfg))
       "last_sync_time" now,
     mkSyncResult st.2 (length ss) (length (allProjects ss cfg)) [] now).
Proof.
  unfold syncData. cbv zeta.
  by destruct (foldl (insertPromptFor _ _) _ _).
Qed.

(** The lookup of the prompt loop succeeds for every event of the run. *)
Lemma findSession_owning entries gap e :
  e ∈ entries →
  ∃ s, findSession (groupIntoSessions entries gap) e = Some s
       ∧ s ∈ groupIntoSessions entries gap.
Proof.
  intros He.
  destruct (owning_session entries gap e He) as (s0 & Hs0 & Hp0 & Ht0 & _).
  unfold findSession.
  destruct (List.find _ _) as [s|] eqn:Hfind.
  - apply find_some in Hfind as [Hin _]. exists s. split; [done|].
    by apply list_elem_of_In.
  - exfalso. apply list_elem_of_In in Hs0.
    pose proof (find_none _ _ Hfind s0 Hs0) as Hf. cbv beta in Hf.
    rewrite bool_decide_eq_true_2 in Hf by done.
    rewrite (proj2 (Z.leb_le _ _)) in Hf by lia.
    rewrite (proj2 (Z.leb_le _ _)) in Hf by lia.
    done.
Qed.

(** What the prompt loop reads of an event, and the same columns of a row. *)
Definition eventView (e : HistoryEntry.t) : string * string * Z :=
  (HistoryEntry.project e, HistoryEntry.display e, HistoryEntry.timestamp e).

Definition rowView (r : PromptRow.t) : string * string * Z :=
  (PromptRow.project r, PromptRow.display r, PromptRow.timestamp r).

Lemma foldl_insertPromptFor_all now ss l st :
  (∀ e, e ∈ l → ∃ s, findSession ss e = Some s ∧ s ∈ ss) →
  ∃ new : list PromptRow.t,
    prompts (foldl (insertPromptFor now ss) st l).1 = prompts st.1 ++ new
    ∧ rowView <$> new = eventView <$> l
    ∧ Forall (λ r, PromptRow.session_id r ∈ Session.sessionId <$> ss) new
    ∧ (foldl (insertPromptFor now ss) st l).2 = (st.2 + length l)%nat
    ∧ sessions (foldl (insertPromptFor now ss) st l).1 = sessions st.1
    ∧ metadata (foldl (insertPromptFor now ss) st l).1 = metadata st.1.
Proof.
  revert st. induction l as [|e l IH]; intros st Hall.
  - exists []. cbn [foldl]. rewrite app_nil_r.
    repeat split; try done; cbn [length]; lia.
  - destruct (Hall e ltac:(left)) as (s & Hfind & Hs).
    destruct (IH (insertPromptFor now ss st e)) as (new & Hp & Hv & Hfk & Hn & Hss & Hm).
    { intros e' He'. apply Hall. by right. }
    cbn [foldl]. rewrite Hp, Hn, Hss, Hm.
    unfold insertPromptFor. rewrite Hfind. cbn [fst snd insertPrompt prompts
      sessions metadata].
    eexists (_ :: new). rewrite <-app_assoc. split; [done|].
    split; [by rewrite !fmap_cons, Hv|].
    split.
    + constructor; [|done]. cbn [PromptRow.session_id pi_sessionId].
      apply list_elem_of_fmap. by exists s.
    + repeat split; try done; cbn [length]; lia.
Qed.

Lemma foldl_upsertSession_frame now l db :
  prompts (foldl (upsertSession now) db l) = prompts db
  ∧ metadata (foldl (upsertSession now) db l) = metadata db.
Proof.
  revert db. induction l as [|s l IH]; intros db; [done|].
  cbn [foldl]. destruct (IH (upsertSession now db s)) as [-> ->]. done.
Qed.

Lemma foldl_upsertSession_keys now l db k :
  is_Some (sessions (foldl (upsertSession now) db l) !! k)
  ↔ is_Some (sessions db !! k) ∨ k ∈ Session.sessionId <$> l.
Proof.
  revert db. induction l as [|s l IH]; intros db; cbn [foldl].
  - rewrite fmap_nil, elem_of_nil. tauto.
  - rewrite IH, fmap_cons, elem_of_cons. unfold upsertSession. cbn [sessions].
    destruct (decide (k = Session.sessionId s)) as [->|Hne].
    + rewrite lookup_insert_eq. split; [tauto|]. intros _. left. by eexists.
    + rewrite lookup_insert_ne by done. tauto.
Qed.

Lemma foldl_upsertProjectStats_frame now (mk : string → ProjectStatsInput)
    paths db :
  sessions (foldl (λ d q, upsertProjectStats now d (mk q)) db paths) = sessions db
  ∧ prompts (foldl (λ d q, upsertProjectStats now d (mk q)) db paths) = prompts db
  ∧ metadata (foldl (λ d q, upsertProjectStats now d (mk q)) db paths) = metadata db.
Proof.
  revert db. induction paths as [|q paths IH]; intros db; [done|].
  cbn [foldl]. destruct (IH (upsertProjectStats now db (mk q))) as (-> & -> & ->).
  done.
Qed.

(** The sessions, prompts and watermark a sync leaves. *)
Lemma syncData_tables db history cfg now :
  let entries := entriesToProcess db history in
  let ss := groupIntoSessions entries defaultSessionGapMs in
  let db' := (syncData db history cfg now).1 in
  sessions db' = sessions (foldl (upsertSession now) db ss)
  ∧ (∃ new : list PromptRow.t,
       prompts db' = prompts db ++ new
       ∧ rowView <$> new = eventView <$> entries
       ∧ Forall (λ r, PromptRow.session_id r ∈ Session.sessionId <$> ss) new)
  ∧ promptsProcessed (syncData db history cfg now).2 = length entries
  ∧ getMetadata db' "last_sync_time" = Some now.
Proof.
  intros entries ss db'. subst db'. rewrite syncData_unfold. cbv zeta.
  fold entries. fold ss. cbn [fst snd promptsProcessed].
  destruct (foldl_insertPromptFor_all now ss entries
              (foldl (upsertSession now) db ss, 0%nat))
    as (new & Hp & Hv & Hfk & Hn & Hss & Hm).
  { intros e He. by apply findSession_owning. }
  cbn [fst snd] in *.
  destruct (foldl_upsertProjectStats_frame now
              (mergedStats now (foldl addSessionStats [] ss) (getAllProjects cfg))
              (allProjects ss cfg)
              (foldl (insertPromptFor now ss)
                     (foldl (upsertSession now) db ss, 0%nat) entries).1)
    as (Hs3 & Hp3 & Hm3).
  unfold setMetadata, getMetadata. cbn [sessions prompts metadata].
  rewrite Hs3, Hp3, Hss, Hp, lookup_insert_eq.
  destruct (foldl_upsertSession_frame now ss db) as [-> _].
  split; [done|]. split; [by exists new|]. split; [lia|done].
Qed.

(** X9. A sync skips no event of the run: the number of prompts it reports
    is the number of events it had to process, and the prompts table grows
    by one row per such event, in log order, each row carrying the project,
    content and time of its event. *)
Theorem X9_sync_inserts_every_processed_event (db : Database)
    (historyEntries : list HistoryEntry.t)
    (configProjects : list (string * ProjectMetrics.t)) (now : Z) :
  let entries := entriesToProcess db historyEntries in
  let result := syncData db historyEntries configProjects now in
  promptsProcessed result.2 = length entries
  ∧ ∃ new : list PromptRow.t,
      prompts result.1 = prompts db ++ new
      ∧ rowView <$> new = eventView <$> entries.
Proof.
  intros entries result.
  destruct (syncData_tables db historyEntries configProjects now)
    as (_ & (new & Hp & Hv & _) & Hn & _).
  split; [done|]. by exists new.
Qed.

(** Every prompt row refers to a row of the sessions table. *)
Definition promptsReferToSessions (db : Database) : Prop :=
  ∀ r, r ∈ prompts db → is_Some (sessions db !! PromptRow.session_id r).

(** X10. A sync keeps the foreign key of the prompts table: if every prompt
    row referred to a stored session before, every prompt row does after. *)
Theorem X10_sync_keeps_prompt_foreign_key (db : Database)
    (historyEntries : list HistoryEntry.t)
    (configProjects : list (string * ProjectMetrics.t)) (now : Z) :
  promptsReferToSessions db →
  promptsReferToSessions (syncData db historyEntries configProjects now).1.
Proof.
  intros Hfk r Hr.
  destruct (syncData_tables db historyEntries configProjects now)
    as (Hs & (new & Hp & _ & Hnew) & _).
  cbv zeta in Hs, Hp, Hnew. rewrite Hs. rewrite Hp in Hr.
  apply foldl_upsertSession_keys.
  apply elem_of_app in Hr as [Hr|Hr].
  - left. by apply Hfk.
  - right. rewrite Forall_forall in Hnew. by apply Hnew.
Qed.

Lemma X10_sync_keeps_prompt_foreign_key_witness :
  promptsReferToSessions (syncData emptyDatabase history config 100000).1.
Proof.
  apply X10_sync_keeps_prompt_foreign_key.
  intros r Hr. by apply elem_of_nil in Hr.
Defined.

(** X11. After a sync at clock reading [now], a further sync of a log that
    holds no event newer than [now] processes nothing: it reports no prompt
    and no session, and leaves the sessions and prompts tables as they
    were. *)
Theorem X11_resync_without_new_events_adds_nothing (db : Database)
    (history1 history2 : list HistoryEntry.t)
    (config1 config2 : list (string * ProjectMetrics.t)) (now1 now2 : Z) :
  (∀ e, e ∈ history2 → HistoryEntry.timestamp e <= now1) →
  let db1 := (syncData db history1 config1 now1).1 in
  let second := syncData db1 history2 config2 now2 in
  promptsProcessed second.2 = 0%nat
  ∧ sessionsCreated second.2 = 0%nat
  ∧ sessions second.1 = sessions db1
  ∧ prompts second.1 = prompts db1.
Proof.
  intros Hold db1 second.
  destruct (syncData_tables db history1 config1 now1) as (_ & _ & _ & Hmark).
  cbv zeta in Hmark. fold db1 in Hmark.
  assert (entriesToProcess db1 history2 = []) as Hnone.
  { unfold entriesToProcess. rewrite Hmark.
    apply AchievementFacts.filter_all_rejected.
    intros e He Hnew. specialize (Hold e He). lia. }
  destruct (syncData_tables db1 history2 config2 now2)
    as (Hs & (new & Hp & Hv & _) & Hn & _).
  cbv zeta in Hs, Hp, Hv, Hn. fold second in Hs, Hp, Hn.
  rewrite Hnone in Hs, Hv, Hn.
  apply fmap_nil_inv in Hv as ->. rewrite app_nil_r in Hp.
  split; [done|]. split; [|done].
  subst second. rewrite syncData_unfold. cbv zeta. by rewrite Hnone.
Qed.

Lemma X11_resync_without_new_events_adds_nothing_witness :
  promptsProcessed (syncData afterFirst history config 100001).2 = 0%nat
  ∧ sessionsCreated (syncData afterFirst history config 100001).2 = 0%nat
  ∧ sessions (syncData afterFirst history config 100001).1 = sessions afterFirst
  ∧ prompts (syncData afterFirst history config 100001).1 = prompts afterFirst.
Proof.
  apply (X11_resync_without_new_events_adds_nothing
           emptyDatabase history history config config 100000 100001).
  intros e He. unfold history in He.
  repeat (apply elem_of_cons in He as [->|He]; [vm_compute; discriminate|]).
  by apply elem_of_nil in He.
Defined.

(** *** The per-project statistics of a run *)

(** What one session does to the statistics of its own project. *)
Definition mergeStats (acc : option SessionStats) (s : Session.t)
  : option SessionStats :=
  Some match acc with
       | Some existing =>
           mkSessionStats
             (ss_firstSeen existing)
             (Z.max (ss_lastActive existing) (Session.endTime s))
             (ss_totalPrompts existing + Z.of_nat (Session.promptCount s))
             (ss_totalSessions existing + 1)
             (ss_totalDuration existing + Session.duration s)
       | None =>
           mkSessionStats (Session.startTime s) (Session.endTime s)
             (Z.of_nat (Session.promptCount s)) 1 (Session.duration s)
       end.

Lemma addSessionStats_get_eq projectStats s :
  JsMap.get (Session.project s) (addSessionStats projectStats s)
  = mergeStats (JsMap.get (Session.project s) projectStats) s.
Proof.
  unfold addSessionStats, mergeStats.
  destruct (JsMap.get (Session.project s) projectStats);
    by rewrite JsMapFacts.get_set_eq.
Qed.

Lemma foldl_addSessionStats_get p l projectStats :
  JsMap.get p (foldl addSessionStats projectStats l)
  = foldl mergeStats (JsMap.get p projectStats) (sessionsOf p l).
Proof.
  revert projectStats. induction l as [|s l IH]; intros projectStats; [done|].
  cbn [foldl]. rewrite IH. unfold sessionsOf.
  destruct (decide (Session.project s = p)) as [<-|Hne].
  - rewrite filter_cons_True by done. cbn [foldl].
    by rewrite addSessionStats_get_eq.
  - rewrite filter_cons_False by done.
    by rewrite addSessionStats_get_ne.
Qed.

Lemma foldl_mergeStats_Some a l :
  ∃ r, foldl mergeStats (Some a) l = Some r
       ∧ ss_firstSeen r = ss_firstSeen a
       ∧ ss_lastActive a <= ss_lastActive r
       ∧ (∀ s, s ∈ l → Session.endTime s <= ss_lastActive r)
       ∧ (ss_lastActive r = ss_lastActive a
          ∨ ∃ s, s ∈ l ∧ ss_lastActive r = Session.endTime s)
       ∧ ss_totalPrompts r
         = ss_totalPrompts a + Z.of_nat (sum_list_with Session.promptCount l).
Proof.
  revert a. induction l as [|s l IH]; intros a.
  - exists a. cbn [foldl sum_list_with]. repeat split; try done; try lia.
    intros s Hs. by apply elem_of_nil in Hs.
  - cbn [foldl mergeStats].
    destruct (IH (mkSessionStats
                    (ss_firstSeen a)
                    (Z.max (ss_lastActive a) (Session.endTime s))
                    (ss_totalPrompts a + Z.of_nat (Session.promptCount s))
                    (ss_totalSessions a + 1)
                    (ss_totalDuration a + Session.duration s)))
      as (r & Hr & Hfirst & Hlast & Hall & Hatt & Hsum).
    cbn [ss_firstSeen ss_lastActive ss_totalPrompts] in *.
    exists r. split; [done|]. split; [done|]. split; [lia|]. split; [|split].
    + intros s' [->|Hs']%elem_of_cons; [lia|by apply Hall].
    + destruct Hatt as [Heq|(s' & Hs' & Heq)].
      * destruct (Z.max_spec (ss_lastActive a) (Session.endTime s))
          as [[_ Hmax]|[_ Hmax]]; rewrite Hmax in Heq.
        -- right. exists s. split; [left|done].
        -- by left.
      * right. exists s'. split; [by right|done].
    + rewrite Hsum. cbn [sum_list_with]. lia.
Qed.

Lemma StronglySorted_filter {A} (R : relation A) (P : A → Prop)
    `{!∀ x, Decision (P x)} (l : list A) :
  StronglySorted R l → StronglySorted R (filter P l).
Proof.
  induction 1 as [|x l Hl IH Hx]; [constructor|].
  destruct (decide (P x)).
  - rewrite filter_cons_True by done. constructor; [done|].
    apply Forall_forall. intros y [_ Hy]%list_elem_of_filter.
    rewrite Forall_forall in Hx. by apply Hx.
  - by rewrite filter_cons_False.
Qed.

(** The statistics of a project with at least one session in the run. *)
Lemma runStats_of_project entries gap p :
  filterByProject entries p ≠ [] →
  ∃ r, JsMap.get p (foldl addSessionStats [] (groupIntoSessions entries gap)) = Some r
       ∧ ss_totalPrompts r = Z.of_nat (length (filterByProject entries p))
       ∧ (∀ e, e ∈ filterByProject entries p →
               ss_firstSeen r <= HistoryEntry.timestamp e <= ss_lastActive r)
       ∧ (∃ e, e ∈ filterByProject entries p
               ∧ HistoryEntry.timestamp e = ss_firstSeen r)
       ∧ (∃ e, e ∈ filterByProject entries p
               ∧ HistoryEntry.timestamp e = ss_lastActive r).
Proof.
  intros Hmine.
  set (ss := groupIntoSessions entries gap).
  pose proof (groupIntoSessions_totalFor entries gap p) as Hcount. fold ss in Hcount.
  pose proof (StronglySorted_filter before (λ s, Session.project s = p) ss
                (groupIntoSessions_chain entries gap)) as Hchain.
  fold (sessionsOf p ss) in Hchain.
  assert (∀ s, s ∈ sessionsOf p ss → s ∈ ss ∧ Session.project s = p) as Hsub.
  { intros s [Hp Hs]%list_elem_of_filter. done. }
  assert (∀ s, s ∈ ss → wfSession s ∧ attained entries s) as Hgood.
  { intros s Hs. split.
    - pose proof (groupIntoSessions_wf entries gap) as Hwf.
      rewrite Forall_forall in Hwf. by apply Hwf.
    - pose proof (groupIntoSessions_attained entries gap) as Hatt.
      rewrite Forall_forall in Hatt. by apply Hatt. }
  assert (∀ e, e ∈ filterByProject entries p →
            ∃ s, s ∈ sessionsOf p ss
                 ∧ Session.startTime s <= HistoryEntry.timestamp e <= Session.endTime s)
    as Hown.
  { intros e [Hp He]%list_elem_of_filter.
    destruct (owning_session entries gap e He) as (s & Hs & Hps & Ht & _).
    exists s. split; [|done]. apply list_elem_of_filter. split; [congruence|done]. }
  assert (∀ s t, s ∈ sessionsOf p ss →
            (∃ e, e ∈ entries ∧ HistoryEntry.project e = Session.project s
                  ∧ HistoryEntry.timestamp e = t) →
            ∃ e, e ∈ filterByProject entries p ∧ HistoryEntry.timestamp e = t)
    as Hback.
  { intros s t Hs (e & He & Hpe & Hte). exists e. split; [|done].
    apply list_elem_of_filter. split; [|done].
    destruct (Hsub s Hs) as [_ <-]. done. }
  rewrite foldl_addSessionStats_get. cbn [JsMap.get].
  destruct (sessionsOf p ss) as [|s0 rest] eqn:Hsp.
  { exfalso. destruct (filterByProject entries p) as [|e l] eqn:Hf; [done|].
    destruct (Hown e ltac:(left)) as (s & Hs & _). by apply elem_of_nil in Hs. }
  cbn [foldl mergeStats].
  destruct (foldl_mergeStats_Some
              (mkSessionStats (Session.startTime s0) (Session.endTime s0)
                 (Z.of_nat (Session.promptCount s0)) 1 (Session.duration s0)) rest)
    as (r & Hr & Hfirst & Hlast & Hall & Hatt & Hsum).
  cbn [ss_firstSeen ss_lastActive ss_totalPrompts] in *.
  exists r. split; [done|].
  apply StronglySorted_inv in Hchain as [_ Hhead].
  rewrite Forall_forall in Hhead.
  destruct (Hgood s0 (proj1 (Hsub s0 ltac:(left)))) as [(Hwf0 & _) Hatt0].
  split; [|split; [|split]].
  - rewrite Hsum, <-Hcount. cbn [sum_list_with]. lia.
  - intros e He. destruct (Hown e He) as (s & Hs & Hts).
    apply elem_of_cons in Hs as [->|Hs].
    + lia.
    + specialize (Hhead s Hs). unfold before in Hhead.
      specialize (Hall s Hs). lia.
  - rewrite Hfirst.
    destruct Hatt0 as (e1 & _ & He1 & _ & Hp1 & _ & Ht1 & _).
    apply (Hback s0); [left|]. by exists e1.
  - destruct Hatt as [Heq|(s & Hs & Heq)]; rewrite Heq.
    + destruct Hatt0 as (_ & e2 & _ & He2 & _ & Hp2 & _ & Ht2 & _).
      apply (Hback s0); [left|]. by exists e2.
    + destruct (Hgood s (proj1 (Hsub s ltac:(by right))))
        as [_ (_ & e2 & _ & He2 & _ & Hp2 & _ & Ht2 & _)].
      apply (Hback s); [by right|]. by exists e2.
Qed.

(** X12. After a sync, the row of a project that has events in the run
    counts exactly those events as its total prompts, and its last-active
    time is the time of the latest of them; when the project had no row
    before, its first-seen time is the time of the earliest. *)
Theorem X12_project_row_reflects_the_run_events (db : Database)
    (historyEntries : list HistoryEntry.t)
    (configProjects : list (string * ProjectMetrics.t)) (now : Z)
    (path : string) :
  let mine := filterByProject (entriesToProcess db historyEntries) path in
  mine ≠ [] →
  ∃ row : ProjectRow.t,
    projects (syncData db historyEntries configProjects now).1 !! path = Some row
    ∧ ProjectRow.total_prompts row = Z.of_nat (length mine)
    ∧ (∀ e, e ∈ mine → HistoryEntry.timestamp e <= ProjectRow.last_active row)
    ∧ (∃ e, e ∈ mine ∧ HistoryEntry.timestamp e = ProjectRow.last_active row)
    ∧ (projects db !! path = None →
       (∀ e, e ∈ mine → ProjectRow.first_seen row <= HistoryEntry.timestamp e)
       ∧ ∃ e, e ∈ mine ∧ HistoryEntry.timestamp e = ProjectRow.first_seen row).
Proof.
  intros mine Hmine.
  destruct (runStats_of_project (entriesToProcess db historyEntries)
              defaultSessionGapMs path Hmine)
    as (r & Hr & Hcount & Hspan & Hfirst & Hlast).
  fold mine in Hcount, Hspan, Hfirst, Hlast.
  rewrite syncData_projects. rewrite decide_True.
  - eexists. split; [done|].
    unfold rowOf, mergedStats, runSessions. rewrite Hr.
    cbn [ProjectRow.total_prompts ProjectRow.last_active ProjectRow.first_seen
         totalPrompts lastActive firstSeen from_option].
    split; [done|]. split; [intros e He; specialize (Hspan e He); lia|].
    split; [done|]. intros ->. cbn [fmap option_fmap option_map default].
    split; [intros e He; specialize (Hspan e He); lia|done].
  - apply elem_of_allProjects. left.
    destruct mine as [|e l] eqn:Hm; [done|].
    assert (e ∈ filterByProject (entriesToProcess db historyEntries) path) as He
      by (fold mine; rewrite Hm; left).
    apply list_elem_of_filter in He as [Hp He].
    destruct (owning_session _ defaultSessionGapMs e He) as (s & Hs & Hps & _).
    apply list_elem_of_fmap. exists s. split; [congruence|done].
Qed.

Lemma X12_project_row_reflects_the_run_events_witness :
  ∃ row : ProjectRow.t,
    projects (syncData emptyDatabase history config 100000).1 !! "/p" = Some row
    ∧ ProjectRow.total_prompts row = 2
    ∧ ProjectRow.last_active row = 61000
    ∧ ProjectRow.first_seen row = 1000.
Proof.
  destruct (X12_project_row_reflects_the_run_events
              emptyDatabase history config 100000 "/p")
    as (row & Hrow & Hcount & Hle & (e2 & He2 & Ht2) & Hnew).
  - vm_compute. discriminate.
  - destruct (Hnew eq_refl) as (Hge & e1 & He1 & Ht1).
    exists row. split; [exact Hrow|]. split; [exact Hcount|].
    pose proof (Hle (ev 61000 "/p" None)) as H61.
    pose proof (Hge (ev 1000 "/p" None)) as H1.
    assert (∀ e, e ∈ filterByProject (entriesToProcess emptyDatabase history) "/p" →
              HistoryEntry.timestamp e = 1000 ∨ HistoryEntry.timestamp e = 61000)
      as Hcases.
    { intros e He. vm_compute in He.
      apply elem_of_cons in He as [->|He]; [by left|].
      apply elem_of_cons in He as [->|He]; [by right|].
      by apply elem_of_nil in He. }
    assert (HistoryEntry.timestamp (ev 61000 "/p" None) <= ProjectRow.last_active row)
      as Hhi by (apply Hle; vm_compute; right; left).
    assert (ProjectRow.first_seen row <= HistoryEntry.timestamp (ev 1000 "/p" None))
      as Hlo by (apply Hge; vm_compute; left).
    cbn [HistoryEntry.timestamp ev] in Hhi, Hlo.
    destruct (Hcases e2 He2) as [Hc2|Hc2], (Hcases e1 He1) as [Hc1|Hc1]; lia.
Defined.

End SyncExtras.

(** ** Streaks: further properties *)

Module HabitDetectorExtras.
Import Schema SqlDates SqlDatesFacts HabitDetector HabitDetectorFacts.

Lemma currentLoop_bounds today i days :
  0 <= currentLoop today i days <= Z.of_nat (length days).
Proof.
  revert i. induction days as [|d rest IH]; intros i; cbn [currentLoop length].
  - lia.
  - destruct (d =? today - i); [|lia]. specialize (IH (i + 1)). lia.
Qed.

Lemma longestLoop_bounds prevDate rest tempStreak longestStreak :
  1 <= tempStreak →
  longestStreak <= longestLoop prevDate rest tempStreak longestStreak
  ∧ longestLoop prevDate rest tempStreak longestStreak
    <= Z.max longestStreak (tempStreak + Z.of_nat (length rest)).
Proof.
  revert prevDate tempStreak longestStreak.
  induction rest as [|c rest IH]; intros prevDate tempStreak longestStreak Htemp;
    cbn [longestLoop length].
  - lia.
  - destruct (prevDate - c =? 1).
    + specialize (IH c (tempStreak + 1) (Z.max longestStreak (tempStreak + 1))
                     ltac:(lia)). lia.
    + specialize (IH c 1 longestStreak ltac:(lia)). lia.
Qed.

Lemma longestLoop_ge prevDate rest tempStreak longestStreak :
  longestStreak <= longestLoop prevDate rest tempStreak longestStreak.
Proof.
  revert prevDate tempStreak longestStreak.
  induction rest as [|c rest IH]; intros prevDate tempStreak longestStreak;
    cbn [longestLoop]; [lia|].
  destruct (prevDate - c =? 1).
  - specialize (IH c (tempStreak + 1) (Z.max longestStreak (tempStreak + 1))). lia.
  - apply IH.
Qed.

Lemma sorted_head_max (d : Z) (l : list Z) x :
  StronglySorted Z.gt (d :: l) → x ∈ d :: l → x <= d.
Proof.
  intros [_ Hd]%StronglySorted_inv [->|Hx]%elem_of_cons; [lia|].
  rewrite Forall_forall in Hd. specialize (Hd x Hx). lia.
Qed.

(** X13. The streak figures are bounded by the data: the current streak is
    not negative, the longest streak is at least the current one and at most
    the number of active days in the window, and the last active day is the
    most recent active day of the window (none when there is no such day). *)
Theorem X13_streak_figures_are_bounded (db : Database) (now today : Z) :
  let s := calculateStreak db now today in
  0 <= current s <= longest s
  ∧ longest s <= Z.of_nat (length (recentDays db now))
  ∧ match lastActive s with
    | Some d => d ∈ recentDays db now ∧ ∀ d', d' ∈ recentDays db now → d' <= d
    | None => recentDays db now = []
    end.
Proof.
  pose proof (recentDays_sorted db now) as Hsorted.
  unfold calculateStreak.
  destruct (recentDays db now) as [|first rest] eqn:Hdays; cbv zeta;
    cbn [current longest lastActive].
  - cbn [length]. split; [lia|]. split; [lia|done].
  - pose proof (currentLoop_bounds today 0 (first :: rest)) as Hcur.
    pose proof (longestLoop_bounds first rest 1 0 ltac:(lia)) as Hlong.
    cbn [length] in *. split; [lia|]. split; [lia|].
    split; [left|]. intros d' Hd'. by apply (sorted_head_max first rest).
Qed.

(** A run of [k] consecutive days that starts at the head of the list. *)
Lemma longestLoop_run_at_head rest :
  ∀ prevDate tempStreak longestStreak k,
    StronglySorted Z.gt (prevDate :: rest) →
    2 <= k →
    (∀ j, 0 <= j < k → prevDate - j ∈ prevDate :: rest) →
    tempStreak + k - 1 <= longestLoop prevDate rest tempStreak longestStreak.
Proof.
  induction rest as [|c rest IH];
    intros prevDate tempStreak longestStreak k Hsorted Hk Hrun.
  - specialize (Hrun 1 ltac:(lia)).
    apply elem_of_cons in Hrun as [?|Hin]; [lia|by apply elem_of_nil in Hin].
  - assert (c = prevDate - 1) as ->.
    { pose proof (Hrun 1 ltac:(lia)) as Hin.
      apply elem_of_cons in Hin as [?|Hin]; [lia|].
      apply StronglySorted_inv in Hsorted as [Hrest Hhead].
      pose proof (sorted_head_max c rest _ Hrest Hin).
      apply Forall_cons in Hhead as [? _]. lia. }
    cbn [longestLoop].
    replace (prevDate - (prevDate - 1) =? 1) with true by (symmetry; apply Z.eqb_eq; lia).
    apply StronglySorted_inv in Hsorted as [Hrest _].
    destruct (decide (k = 2)) as [->|Hne].
    + pose proof (longestLoop_ge (prevDate - 1) rest (tempStreak + 1)
                    (Z.max longestStreak (tempStreak + 1))). lia.
    + specialize (IH (prevDate - 1) (tempStreak + 1)
                     (Z.max longestStreak (tempStreak + 1)) (k - 1) Hrest
                     ltac:(lia)).
      assert (tempStreak + 1 + (k - 1) - 1
              <= longestLoop (prevDate - 1) rest (tempStreak + 1)
                   (Z.max longestStreak (tempStreak + 1))); [|lia].
      apply IH. intros j Hj.
      specialize (Hrun (j + 1) ltac:(lia)).
      apply elem_of_cons in Hrun as [?|Hin]; [lia|].
      by replace (prevDate - 1 - j) with (prevDate - (j + 1)) by lia.
Qed.

(** A run of [k] consecutive days anywhere in the list. *)
Lemma longestLoop_run rest :
  ∀ prevDate tempStreak longestStreak d k,
    StronglySorted Z.gt (prevDate :: rest) →
    1 <= tempStreak →
    2 <= k →
    (∀ j, 0 <= j < k → d - j ∈ prevDate :: rest) →
    k <= longestLoop prevDate rest tempStreak longestStreak.
Proof.
  induction rest as [|c rest IH];
    intros prevDate tempStreak longestStreak d k Hsorted Htemp Hk Hrun.
  - pose proof (Hrun 0 ltac:(lia)) as H0. pose proof (Hrun 1 ltac:(lia)) as H1.
    apply elem_of_cons in H0 as [?|Hin]; [|by apply elem_of_nil in Hin].
    apply elem_of_cons in H1 as [?|Hin]; [lia|by apply elem_of_nil in Hin].
  - pose proof (sorted_head_max prevDate (c :: rest) _ Hsorted
                  (Hrun 0 ltac:(lia))) as Hle.
    destruct (decide (d = prevDate)) as [->|Hne].
    + pose proof (longestLoop_run_at_head (c :: rest) prevDate tempStreak
                    longestStreak k Hsorted Hk Hrun). lia.
    + apply StronglySorted_inv in Hsorted as [Hrest _].
      assert (∀ j, 0 <= j < k → d - j ∈ c :: rest) as Hrun'.
      { intros j Hj. specialize (Hrun j Hj).
        apply elem_of_cons in Hrun as [?|Hin]; [lia|done]. }
      cbn [longestLoop]. destruct (prevDate - c =? 1).
      * apply (IH c _ _ d k Hrest); [lia|done|done].
      * apply (IH c _ _ d k Hrest); [lia|done|done].
Qed.

(** X14. The longest streak is at least the length of any run of two or more
    consecutive active days of the window. *)
Theorem X14_longest_streak_covers_every_run (db : Database) (now today d k : Z) :
  2 <= k →
  (∀ j, 0 <= j < k → d - j ∈ recentDays db now) →
  k <= longest (calculateStreak db now today).
Proof.
  intros Hk Hrun. pose proof (recentDays_sorted db now) as Hsorted.
  unfold calculateStreak.
  destruct (recentDays db now) as [|first rest] eqn:Hdays; cbv zeta;
    cbn [longest].
  - specialize (Hrun 0 ltac:(lia)). by apply elem_of_nil in Hrun.
  - pose proof (longestLoop_run rest first 1 0 d k Hsorted ltac:(lia) Hk Hrun).
    lia.
Qed.

Lemma X14_longest_streak_covers_every_run_witness :
  3 <= longest (calculateStreak streakStore (20000 * msPerDay + 3600000) 20005).
Proof.
  apply (X14_longest_streak_covers_every_run streakStore
           (20000 * msPerDay + 3600000) 20005 20000 3).
  - lia.
  - rewrite streakStore_days. intros j Hj.
    assert (j = 0 ∨ j = 1 ∨ j = 2) as Hcases by lia.
    destruct Hcases as [Hj'|[Hj'|Hj']]; rewrite Hj'; repeat constructor.
Defined.

Lemma longestLoop_isolated rest :
  ∀ prevDate tempStreak longestStreak,
    (∀ d, d ∈ prevDate :: rest → d - 1 ∉ prevDate :: rest) →
    longestLoop prevDate rest tempStreak longestStreak = longestStreak.
Proof.
  induction rest as [|c rest IH]; intros prevDate tempStreak longestStreak Hiso;
    cbn [longestLoop]; [done|].
  assert (prevDate - c ≠ 1) as Hne.
  { intros Heq. apply (Hiso prevDate ltac:(left)).
    replace (prevDate - 1) with c by lia. right. left. }
  apply Z.eqb_neq in Hne. rewrite Hne. apply IH.
  intros d Hd Hd1. apply (Hiso d); by right.
Qed.

(** A store with sessions on days 20000, 19998 and 19990 only. *)
Definition sparseStore : Database :=
  foldl (upsertSession 0) emptyDatabase
    [ Session.mk "a" "/p" (20000 * msPerDay + 100) (20000 * msPerDay + 200) 1 100 "x" "x";
      Session.mk "b" "/p" (19998 * msPerDay + 5) (19998 * msPerDay + 5) 1 0 "x" "x";
      Session.mk "c" "/q" (19990 * msPerDay + 777) (19990 * msPerDay + 999) 2 222 "x" "y" ].

Example sparseStore_days :
  recentDays sparseStore (20001 * msPerDay + 3600000) = [20000; 19998; 19990].
Proof. vm_compute. reflexivity. Qed.

(** X15. When no two active days of the window are consecutive, the longest
    streak equals the current streak, which is 1 when the most recent active
    day is today and 0 otherwise: days that stand alone are not counted as a
    streak of one by the longest-streak loop. *)
Theorem X15_isolated_days_make_no_streak (db : Database) (now today : Z) :
  (∀ d, d ∈ recentDays db now → d - 1 ∉ recentDays db now) →
  let s := calculateStreak db now today in
  longest s = current s
  ∧ current s = if bool_decide (lastActive s = Some today) then 1 else 0.
Proof.
  intros Hiso. unfold calculateStreak.
  destruct (recentDays db now) as [|first rest] eqn:Hdays; cbv zeta;
    cbn [current longest lastActive].
  - by rewrite bool_decide_eq_false_2.
  - rewrite (longestLoop_isolated rest first 1 0 Hiso).
    assert (currentLoop today 0 (first :: rest)
            = if bool_decide (Some first = Some today) then 1 else 0) as ->.
    { cbn [currentLoop]. rewrite Z.sub_0_r.
      destruct (first =? today) eqn:Heq.
      - apply Z.eqb_eq in Heq as ->. rewrite bool_decide_eq_true_2 by done.
        destruct rest as [|c rest]; cbn [currentLoop]; [done|].
        assert (c ≠ today - 1) as Hne.
        { intros ->. apply (Hiso today ltac:(left)). right. left. }
        apply Z.eqb_neq in Hne.
        replace (today - (0 + 1)) with (today - 1) by lia. by rewrite Hne.
      - apply Z.eqb_neq in Heq. rewrite bool_decide_eq_false_2; [done|].
        intros [= ?]. done. }
    split; [|done]. case_bool_decide; lia.
Qed.

Lemma X15_isolated_days_make_no_streak_witness :
  longest (calculateStreak sparseStore (20001 * msPerDay + 3600000) 20001)
  = current (calculateStreak sparseStore (20001 * msPerDay + 3600000) 20001)
  ∧ current (calculateStreak sparseStore (20001 * msPerDay + 3600000) 20001)
    = if bool_decide
           (lastActive (calculateStreak sparseStore
                          (20001 * msPerDay + 3600000) 20001) = Some 20001)
      then 1 else 0.
Proof.
  apply (X15_isolated_days_make_no_streak sparseStore
           (20001 * msPerDay + 3600000) 20001).
  rewrite sparseStore_days. intros d Hd Hd1.
  repeat (apply elem_of_cons in Hd as [->|Hd];
          [repeat (apply elem_of_cons in Hd1 as [Hd1|Hd1]; [lia|]);
           by apply elem_of_nil in Hd1|]).
  by apply elem_of_nil in Hd.
Defined.

End HabitDetectorExtras.

(** ** Achievements: further properties *)

Module AchievementExtras.
Import Schema SqlDates SqlDatesFacts Achievements AchievementFacts.
Import HabitDetectorExtras.

(** The days on which some stored session started. *)
Definition activeDays (db : Database) : list Z :=
  DATE <$> (SessionRow.start_time <$> rows (sessions db)).

Lemma inGroupOfFirst_none firstDay days :
  ∀ rowNumber,
    StronglySorted Z.gt days →
    (∀ y, y ∈ days → y < firstDay - (rowNumber - 1)) →
    inGroupOfFirst firstDay rowNumber days = 0.
Proof.
  induction days as [|d rest IH]; intros rowNumber Hsorted Hlt;
    cbn [inGroupOfFirst]; [done|].
  apply StronglySorted_inv in Hsorted as [Hrest Hhead].
  rewrite Forall_forall in Hhead.
  pose proof (Hlt d ltac:(left)) as Hd.
  replace (rowNumber + d =? 1 + firstDay) with false
    by (symmetry; apply Z.eqb_neq; lia).
  rewrite IH; [done|done|].
  intros y Hy. specialize (Hhead y Hy). lia.
Qed.

Lemma inGroupOfFirst_run firstDay days :
  ∀ rowNumber k,
    StronglySorted Z.gt days →
    (∀ y, y ∈ days → y <= firstDay - (rowNumber - 1)) →
    0 <= k →
    k <= inGroupOfFirst firstDay rowNumber days
    ↔ ∀ j, 0 <= j < k → firstDay - (rowNumber - 1) - j ∈ days.
Proof.
  induction days as [|d rest IH]; intros rowNumber k Hsorted Hle Hk;
    cbn [inGroupOfFirst].
  - split.
    + intros Hk0 j Hj. lia.
    + intros Hrun. destruct (decide (k = 0)) as [->|Hne]; [done|].
      specialize (Hrun 0 ltac:(lia)). by apply elem_of_nil in Hrun.
  - apply StronglySorted_inv in Hsorted as [Hrest Hhead].
    rewrite Forall_forall in Hhead.
    pose proof (Hle d ltac:(left)) as Hd.
    destruct (decide (d = firstDay - (rowNumber - 1))) as [Heq|Hne].
    + replace (rowNumber + d =? 1 + firstDay) with true
        by (symmetry; apply Z.eqb_eq; lia).
      destruct (decide (k = 0)) as [->|Hk0].
      { split; [intros _ j Hj; lia|intros _].
        pose proof (IH (rowNumber + 1) 0 Hrest) as Hrec.
        assert (0 <= inGroupOfFirst firstDay (rowNumber + 1) rest); [|lia].
        apply Hrec; [|lia|intros j Hj; lia].
        intros y Hy. specialize (Hhead y Hy). lia. }
      specialize (IH (rowNumber + 1) (k - 1) Hrest).
      assert (k <= 1 + inGroupOfFirst firstDay (rowNumber + 1) rest
              ↔ k - 1 <= inGroupOfFirst firstDay (rowNumber + 1) rest) as ->
        by lia.
      rewrite IH; [|intros y Hy; specialize (Hhead y Hy); lia|lia]. split.
      * intros Hrun j Hj. destruct (decide (j = 0)) as [->|Hj0].
        -- rewrite Z.sub_0_r, <-Heq. left.
        -- right. specialize (Hrun (j - 1) ltac:(lia)).
           by replace (firstDay - (rowNumber + 1 - 1) - (j - 1))
             with (firstDay - (rowNumber - 1) - j) in Hrun by lia.
      * intros Hrun j Hj. specialize (Hrun (j + 1) ltac:(lia)).
        apply elem_of_cons in Hrun as [?|Hin]; [lia|].
        by replace (firstDay - (rowNumber + 1 - 1) - j)
          with (firstDay - (rowNumber - 1) - (j + 1)) by lia.
    + replace (rowNumber + d =? 1 + firstDay) with false
        by (symmetry; apply Z.eqb_neq; lia).
      rewrite inGroupOfFirst_none;
        [|done|intros y Hy; specialize (Hhead y Hy); lia].
      split.
      * intros Hk0 j Hj. lia.
      * intros Hrun. destruct (decide (k = 0)) as [->|Hk0]; [done|].
        specialize (Hrun 0 ltac:(lia)). rewrite Z.sub_0_r in Hrun.
        apply elem_of_cons in Hrun as [?|Hin]; [lia|].
        specialize (Hhead _ Hin). lia.
Qed.

(** X16. The streak the achievement check works with is the length of the
    run of consecutive active days that ends on the most recent active day,
    however long ago that day was: it is at least [k] exactly when the [k]
    days ending on the most recent active day are all active. *)
Theorem X16_streak_query_is_latest_run (db : Database) (latest k : Z) :
  latest ∈ activeDays db →
  (∀ d, d ∈ activeDays db → d <= latest) →
  0 <= k →
  k <= currentStreakQuery db
  ↔ ∀ j, 0 <= j < k → latest - j ∈ activeDays db.
Proof.
  intros Hin Hmax Hk. unfold currentStreakQuery. fold (activeDays db).
  pose proof (distinctDesc_sorted (activeDays db)) as Hsorted.
  assert (∀ x, x ∈ distinctDesc (activeDays db) ↔ x ∈ activeDays db) as Hsame
    by (intros x; apply elem_of_distinctDesc).
  cbv zeta. destruct (distinctDesc (activeDays db)) as [|d0 rest] eqn:Hdays.
  { apply Hsame in Hin. by apply elem_of_nil in Hin. }
  assert (d0 = latest) as ->.
  { pose proof (sorted_head_max d0 rest latest Hsorted (proj2 (Hsame _) Hin)).
    pose proof (Hmax d0 (proj1 (Hsame _) ltac:(left))). lia. }
  rewrite (inGroupOfFirst_run latest (latest :: rest) 1 k Hsorted); [|
    intros y Hy; pose proof (sorted_head_max latest rest y Hsorted Hy); lia|done].
  split; intros Hrun j Hj; specialize (Hrun j Hj).
  - apply Hsame. by replace (latest - j) with (latest - (1 - 1) - j) by lia.
  - apply Hsame in Hrun. by replace (latest - (1 - 1) - j) with (latest - j) by lia.
Qed.

Example streakStore_activeDays :
  activeDays HabitDetectorFacts.streakStore
  = [19999; 19996; 20000; 19900; 19999; 19998].
Proof. vm_compute. reflexivity. Qed.

Lemma X16_streak_query_is_latest_run_witness :
  3 <= currentStreakQuery HabitDetectorFacts.streakStore.
Proof.
  apply (X16_streak_query_is_latest_run HabitDetectorFacts.streakStore 20000 3).
  - rewrite streakStore_activeDays. repeat constructor.
  - rewrite streakStore_activeDays. intros d Hd.
    repeat (apply elem_of_cons in Hd as [->|Hd]; [lia|]).
    by apply elem_of_nil in Hd.
  - lia.
  - rewrite streakStore_activeDays. intros j Hj.
    assert (j = 0 ∨ j = 1 ∨ j = 2) as Hcases by lia.
    destruct Hcases as [Hj'|[Hj'|Hj']]; rewrite Hj'; repeat constructor.
Defined.

End AchievementExtras.

(** ** Skill lookups *)

Module SkillLookupFacts.
Import SkillTaxonomy SkillTaxonomyFacts SkillLookup.

Lemma find_unique {A B} `{EqDecision B} (f : A → B) (k : B) (l : list A) (s : A) :
  NoDup (f <$> l) → s ∈ l → f s = k →
  List.find (λ x, bool_decide (f x = k)) l = Some s.
Proof.
  intros Hnd Hs Hk. induction l as [|x l IH]; [by apply elem_of_nil in Hs|].
  rewrite fmap_cons in Hnd. apply NoDup_cons in Hnd as [Hx Hnd].
  cbn [List.find]. apply elem_of_cons in Hs as [->|Hs].
  - by rewrite bool_decide_eq_true_2.
  - rewrite bool_decide_eq_false_2; [by apply IH|].
    intros Hxk. apply Hx. rewrite Hxk, <-Hk.
    apply list_elem_of_fmap. by exists s.
Qed.

Lemma taxonomy_lower_names_NoDup :
  NoDup ((λ s, toLowerCase (name s)) <$> SKILL_TAXONOMY).
Proof. apply (bool_decide_unpack _). vm_compute. exact I. Qed.

Lemma getSkillDefinition_of_entry s skillName :
  s ∈ SKILL_TAXONOMY →
  toLowerCase skillName = toLowerCase (name s) →
  getSkillDefinition skillName = Some s.
Proof.
  intros Hs Hq. unfold getSkillDefinition.
  apply (find_unique (λ s, toLowerCase (name s)) (toLowerCase skillName));
    [apply taxonomy_lower_names_NoDup|done|done].
Qed.

(** X17. Looking a skill up by name ignores letter case and is unambiguous:
    a name that equals a taxonomy entry's name up to case yields that very
    entry, with its related skills and its learning path. *)
Theorem X17_skill_lookup_ignores_case (s : SkillDefinition) (skillName : string) :
  s ∈ SKILL_TAXONOMY →
  toLowerCase skillName = toLowerCase (name s) →
  getSkillDefinition skillName = Some s
  ∧ getRelatedSkills skillName = relatedSkills s
  ∧ getLearningPath skillName = learningPath s.
Proof.
  intros Hs Hq. unfold getRelatedSkills, getLearningPath.
  by rewrite (getSkillDefinition_of_entry s skillName Hs Hq).
Qed.

Lemma X17_skill_lookup_ignores_case_witness :
  getRelatedSkills "REACT" = ["JavaScript"; "TypeScript"; "JSX"]
  ∧ getLearningPath "react"
    = ["JavaScript"; "React"; "React Hooks"; "React Advanced"].
Proof.
  split.
  - apply (X17_skill_lookup_ignores_case
             (mkSkill "React" framework ["react"; "react-"]
                ["JavaScript"; "TypeScript"; "JSX"]
                ["JavaScript"; "React"; "React Hooks"; "React Advanced"])
             "REACT").
    + right. left.
    + vm_compute. reflexivity.
  - apply (X17_skill_lookup_ignores_case
             (mkSkill "React" framework ["react"; "react-"]
                ["JavaScript"; "TypeScript"; "JSX"]
                ["JavaScript"; "React"; "React Hooks"; "React Advanced"])
             "react").
    + right. left.
    + vm_compute. reflexivity.
Defined.

(** X18. Every skill that [detectSkillsFromPath] reports has a definition:
    looking the reported name up yields an entry of that name. *)
Theorem X18_detected_skills_have_definitions (projectPath skill : string) :
  skill ∈ detectSkillsFromPath projectPath →
  ∃ def : SkillDefinition,
    getSkillDefinition skill = Some def ∧ name def = skill.
Proof.
  unfold detectSkillsFromPath. rewrite detectLoop_filter, app_nil_l.
  intros (s & -> & [_ Hs]%list_elem_of_filter)%list_elem_of_fmap.
  exists s. split; [|done]. by apply getSkillDefinition_of_entry.
Qed.

Lemma X18_detected_skills_have_definitions_witness :
  ∃ def : SkillDefinition,
    getSkillDefinition "Next.js" = Some def ∧ name def = "Next.js".
Proof.
  apply (X18_detected_skills_have_definitions "/Users/me/Projects/My-NextJS-App").
  rewrite detect_nextjs. left.
Defined.

End SkillLookupFacts.

(** ** The post-session hook *)

Module PostSessionHookFacts.
Import Schema Sync Achievements AchievementFacts PostSessionHook.

(** The store after any number of further runs of the hook. *)
Inductive HookRuns (differenceInDays : Z → Z → Z)
    (analyzeSkillProficiency : gmap string SessionRow.t → Z → list SkillProficiency)
    (db : Database) : Database → Prop :=
  | runs_none : HookRuns differenceInDays analyzeSkillProficiency db db
  | runs_more db' historyEntries configProjects syncTime checkTime :
      HookRuns differenceInDays analyzeSkillProficiency db db' →
      HookRuns differenceInDays analyzeSkillProficiency db
        (main differenceInDays analyzeSkillProficiency db'
              historyEntries configProjects syncTime checkTime).1.

Lemma unlockedIds_syncData db history cfg now :
  unlockedIds (syncData db history cfg now).1 = unlockedIds db.
Proof. unfold unlockedIds. by rewrite achievements_syncData. Qed.

Lemma unlockedIds_main dd an db history cfg syncTime checkTime :
  unlockedIds (main dd an db history cfg syncTime checkTime).1
  = list_to_set (Achievement.id <$> (main dd an db history cfg syncTime checkTime).2)
    ∪ unlockedIds db.
Proof.
  unfold main. cbn [fst snd].
  rewrite unlockedIds_foldl_saveAchievement, getNew_spec. cbn [fst snd].
  by rewrite unlockedIds_ensure, unlockedIds_syncData.
Qed.

Lemma HookRuns_unlockedIds dd an db db' :
  HookRuns dd an db db' → unlockedIds db ⊆ unlockedIds db'.
Proof.
  induction 1 as [|db' history cfg syncTime checkTime _ IH]; [done|].
  rewrite unlockedIds_main. by apply union_subseteq_r'.
Qed.

(** X19. The hook stores every achievement it announces, announces only
    achievements that were not stored before, and no later run of the hook,
    whatever the files and the clock then are, announces one of them
    again. *)
Theorem X19_hook_announces_an_achievement_once
    (differenceInDays : Z → Z → Z)
    (analyzeSkillProficiency : gmap string SessionRow.t → Z → list SkillProficiency)
    (db : Database) (historyEntries : list HistoryEntry.t)
    (configProjects : list (string * ProjectMetrics.t)) (syncTime checkTime : Z) :
  let hook := main differenceInDays analyzeSkillProficiency in
  let first := hook db historyEntries configProjects syncTime checkTime in
  (∀ a, a ∈ first.2 →
        Achievement.id a ∈ unlockedIds first.1
        ∧ Achievement.id a ∉ unlockedIds db)
  ∧ (∀ (db' : Database) (historyEntries' : list HistoryEntry.t)
       (configProjects' : list (string * ProjectMetrics.t))
       (syncTime' checkTime' : Z) (a x : Achievement.t),
       HookRuns differenceInDays analyzeSkillProficiency first.1 db' →
       a ∈ first.2 →
       x ∈ (hook db' historyEntries' configProjects' syncTime' checkTime').2 →
       Achievement.id x ≠ Achievement.id a).
Proof.
  intros hook first.
  assert (∀ a, a ∈ first.2 → Achievement.id a ∈ unlockedIds first.1) as Hstored.
  { intros a Ha. subst first hook. rewrite unlockedIds_main.
    apply elem_of_union_l, elem_of_list_to_set, list_elem_of_fmap. by exists a. }
  split.
  - intros a Ha. split; [by apply Hstored|].
    subst first hook. unfold main in Ha. cbn [fst snd] in Ha.
    apply getNew_not_unlocked in Ha. by rewrite unlockedIds_syncData in Ha.
  - intros db' historyEntries' configProjects' syncTime' checkTime' a x
      Hruns Ha Hx Heq.
    subst hook. unfold main in Hx. cbn [fst snd] in Hx.
    apply getNew_not_unlocked in Hx. rewrite unlockedIds_syncData in Hx.
    apply Hx. rewrite Heq.
    apply (HookRuns_unlockedIds _ _ _ _ Hruns). by apply Hstored.
Qed.

End PostSessionHookFacts.

(** ** Project rankings *)

Module ProjectParserFacts.
Import ProjectParser.

Section Ranking.
Context {A : Type} (key : A → Z).

Definition atLeast (a b : A) : Prop := key b <= key a.

Lemma insertDescBy_Permutation x l : insertDescBy key x l ≡ₚ x :: l.
Proof.
  induction l as [|y l IH]; cbn [insertDescBy]; [done|].
  case_match; [done|]. rewrite IH. apply Permutation_swap.
Qed.

Lemma sortDescBy_Permutation l : sortDescBy key l ≡ₚ l.
Proof.
  unfold sortDescBy. induction l as [|x l IH]; cbn [foldr]; [done|].
  by rewrite insertDescBy_Permutation, IH.
Qed.

Lemma insertDescBy_sorted x l :
  StronglySorted atLeast l → StronglySorted atLeast (insertDescBy key x l).
Proof.
  induction 1 as [|y l Hl IH Hy]; cbn [insertDescBy].
  - repeat constructor.
  - destruct (key y <=? key x) eqn:Hle.
    + apply Z.leb_le in Hle. constructor; [by constructor|].
      constructor; [done|]. eapply Forall_impl; [exact Hy|].
      unfold atLeast. intros z Hz. lia.
    + apply Z.leb_gt in Hle. constructor; [done|].
      rewrite insertDescBy_Permutation. constructor; [|done].
      unfold atLeast. lia.
Qed.

Lemma sortDescBy_sorted l : StronglySorted atLeast (sortDescBy key l).
Proof.
  unfold sortDescBy. induction l as [|x l IH]; cbn [foldr]; [constructor|].
  by apply insertDescBy_sorted.
Qed.

Lemma StronglySorted_take_drop (R : relation A) (l : list A) n a b :
  StronglySorted R l → a ∈ take n l → b ∈ drop n l → R a b.
Proof.
  intros Hsorted Ha Hb. rewrite <-(take_drop n l) in Hsorted.
  by apply (StronglySorted_app_1_elem_of R (take n l) (drop n l)).
Qed.

(** The first [limit] entries of the ranking of [candidates]. *)
Lemma top_of_ranking (candidates : list A) (limit : Z) :
  0 <= limit →
  let result := slice0 limit (sortDescBy key candidates) in
  length result = Nat.min (Z.to_nat limit) (length candidates)
  ∧ StronglySorted atLeast result
  ∧ ∃ rest, result ++ rest ≡ₚ candidates
            ∧ ∀ a b, a ∈ result → b ∈ rest → key b <= key a.
Proof.
  intros Hlimit result. subst result. unfold slice0.
  replace (limit <? 0) with false by (symmetry; apply Z.ltb_ge; lia).
  split; [|split].
  - rewrite length_take. pose proof (sortDescBy_Permutation candidates) as Hp.
    apply Permutation_length in Hp. lia.
  - pose proof (sortDescBy_sorted candidates) as Hsorted.
    rewrite <-(take_drop (Z.to_nat limit) (sortDescBy key candidates)) in Hsorted.
    by apply StronglySorted_app_1_l in Hsorted.
  - exists (drop (Z.to_nat limit) (sortDescBy key candidates)). split.
    + rewrite take_drop. apply sortDescBy_Permutation.
    + intros a b Ha Hb.
      apply (StronglySorted_take_drop atLeast (sortDescBy key candidates)
               (Z.to_nat limit) a b); [apply sortDescBy_sorted|done|done].
Qed.

Lemma insertDescBy_ties (k : Z) x l :
  filter (λ p, key p = k) (insertDescBy key x l)
  = filter (λ p, key p = k) (x :: l).
Proof.
  induction l as [|y l IH]; cbn [insertDescBy]; [done|].
  destruct (key y <=? key x) eqn:Hle; [done|]. apply Z.leb_gt in Hle.
  destruct (decide (key y = k)) as [Hy|Hy].
  - rewrite filter_cons_True, IH by done.
    rewrite (filter_cons_False _ x) by lia.
    rewrite (filter_cons_False _ x) by lia.
    by rewrite filter_cons_True.
  - rewrite filter_cons_False, IH by done.
    destruct (decide (key x = k)) as [Hx|Hx].
    + rewrite !(filter_cons_True _ x) by done. by rewrite filter_cons_False.
    + rewrite !(filter_cons_False _ x) by done. by rewrite filter_cons_False.
Qed.

(** The sort is stable: entries with one key keep their order. *)
Lemma sortDescBy_ties (k : Z) l :
  filter (λ p, key p = k) (sortDescBy key l) = filter (λ p, key p = k) l.
Proof.
  unfold sortDescBy. induction l as [|x l IH]; cbn [foldr]; [done|].
  rewrite insertDescBy_ties.
  destruct (decide (key x = k)) as [Hx|Hx].
  - by rewrite !(filter_cons_True _ x), IH.
  - by rewrite !(filter_cons_False _ x), IH.
Qed.

Lemma filter_take_prefix (P : A → Prop) `{!∀ x, Decision (P x)} n (l : list A) :
  filter P (take n l) `prefix_of` filter P l.
Proof.
  exists (filter P (drop n l)). by rewrite <-filter_app, take_drop.
Qed.

Lemma slice0_ties (k : Z) (limit : Z) l :
  filter (λ p, key p = k) (slice0 limit (sortDescBy key l))
  `prefix_of` filter (λ p, key p = k) l.
Proof.
  rewrite <-(sortDescBy_ties k l). unfold slice0.
  destruct (limit <? 0); apply filter_take_prefix.
Qed.

End Ranking.

(** The candidates of the ranking by lines changed: the projects of the
    configuration with a positive number of changed lines. *)
Definition changedProjects (configProjects : list (string * ProjectMetrics.t))
  : list ByLinesChanged :=
  filter (λ p, 0 < bl_total p)
    ((λ '(path, metrics),
        let added := ProjectMetrics.lastLinesAdded metrics in
        let removed := ProjectMetrics.lastLinesRemoved metrics in
        mkByLinesChanged path added removed (added + removed))
     <$> configProjects).

(** X20. For a limit that is not negative, the ranking by lines changed
    returns the top of the list: as many projects as the limit allows, in
    descending order of their totals, each with a positive total that is
    the sum of its added and removed lines, and no project left out has a
    larger total than a project returned. *)
Theorem X20_top_projects_by_lines_changed
    (configProjects : list (string * ProjectMetrics.t)) (limit : Z) :
  0 <= limit →
  let result := getTopProjectsByLinesChanged configProjects limit in
  length result = Nat.min (Z.to_nat limit) (length (changedProjects configProjects))
  ∧ StronglySorted (λ a b, bl_total b <= bl_total a) result
  ∧ (∀ p, p ∈ result →
          0 < bl_total p ∧ bl_total p = bl_linesAdded p + bl_linesRemoved p)
  ∧ ∃ rest, result ++ rest ≡ₚ changedProjects configProjects
            ∧ ∀ a b, a ∈ result → b ∈ rest → bl_total b <= bl_total a.
Proof.
  intros Hlimit result.
  destruct (top_of_ranking bl_total (changedProjects configProjects) limit Hlimit)
    as (Hlen & Hsorted & rest & Hperm & Htop).
  fold (getTopProjectsByLinesChanged configProjects limit) in Hlen, Hsorted, Hperm, Htop.
  fold result in Hlen, Hsorted, Hperm, Htop.
  split; [done|]. split; [done|]. split; [|by exists rest].
  intros p Hp.
  assert (p ∈ changedProjects configProjects) as Hin.
  { rewrite <-Hperm. apply elem_of_app. by left. }
  apply list_elem_of_filter in Hin as [Hpos Hin]. split; [done|].
  apply list_elem_of_fmap in Hin as ([path metrics] & -> & _). done.
Qed.

Lemma X20_top_projects_by_lines_changed_witness :
  length (getTopProjectsByLinesChanged
            [("/a", ProjectMetrics.mk 0 0 0 5 1 0 0 0 0);
             ("/b", ProjectMetrics.mk 0 0 0 0 0 0 0 0 0);
             ("/c", ProjectMetrics.mk 0 0 0 20 2 0 0 0 0);
             ("/d", ProjectMetrics.mk 0 0 0 3 3 0 0 0 0)] 2)
  = 2%nat.
Proof.
  destruct (X20_top_projects_by_lines_changed
              [("/a", ProjectMetrics.mk 0 0 0 5 1 0 0 0 0);
               ("/b", ProjectMetrics.mk 0 0 0 0 0 0 0 0 0);
               ("/c", ProjectMetrics.mk 0 0 0 20 2 0 0 0 0);
               ("/d", ProjectMetrics.mk 0 0 0 3 3 0 0 0 0)] 2)
    as (Hlen & _).
  - lia.
  - exact Hlen.
Defined.

(** The candidates of the ranking by duration. *)
Definition timedProjects (configProjects : list (string * ProjectMetrics.t))
  : list ByDuration :=
  filter (λ p, 0 < bd_duration p)
    ((λ '(path, metrics),
        mkByDuration path (ProjectMetrics.lastDuration metrics))
     <$> configProjects).

Lemma length_timedProjects configProjects :
  (length (timedProjects configProjects) <= length configProjects)%nat.
Proof.
  unfold timedProjects.
  etransitivity; [apply length_filter|]. by rewrite length_fmap.
Qed.

(** The whole ranking by duration: what a limit that drops nothing gives. *)
Lemma ranking_by_duration configProjects :
  getTopProjectsByDuration configProjects (Z.of_nat (length configProjects))
  = sortDescBy bd_duration (timedProjects configProjects).
Proof.
  unfold getTopProjectsByDuration, slice0. fold (timedProjects configProjects).
  replace (Z.of_nat (length configProjects) <? 0) with false
    by (symmetry; apply Z.ltb_ge; lia).
  apply take_ge. rewrite Nat2Z.id.
  pose proof (sortDescBy_Permutation bd_duration (timedProjects configProjects))
    as Hp.
  apply Permutation_length in Hp. rewrite Hp. apply length_timedProjects.
Qed.

(** X21. In the ranking by duration, projects with equal durations stay in
    the order of the configuration, whatever the limit; and a negative limit
    neither means "no limit" nor "nothing": the result is the whole ranking
    with that many projects dropped from its end.  The whole ranking holds
    exactly the projects with a positive duration, in descending order of
    duration; a limit that is not negative gives its first [limit] entries. *)
Theorem X21_duration_ranking_ties_and_negative_limit
    (configProjects : list (string * ProjectMetrics.t)) (limit : Z) :
  let result := getTopProjectsByDuration configProjects limit in
  let ranking :=
    getTopProjectsByDuration configProjects (Z.of_nat (length configProjects)) in
  (ranking ≡ₚ timedProjects configProjects
   ∧ StronglySorted (λ a b, bd_duration b <= bd_duration a) ranking
   ∧ ∀ k, filter (λ p, bd_duration p = k) ranking
          = filter (λ p, bd_duration p = k) (timedProjects configProjects))
  ∧ (∀ k, filter (λ p, bd_duration p = k) result
          `prefix_of` filter (λ p, bd_duration p = k) (timedProjects configProjects))
  ∧ (limit < 0 →
     ∃ dropped,
       ranking = result ++ dropped
       ∧ length dropped = Nat.min (Z.to_nat (- limit)) (length ranking)
       ∧ length result
         = Z.to_nat (Z.of_nat (length (timedProjects configProjects)) + limit))
  ∧ (0 <= limit → result = take (Z.to_nat limit) ranking).
Proof.
  intros result ranking. subst ranking. rewrite ranking_by_duration.
  pose proof (sortDescBy_Permutation bd_duration (timedProjects configProjects))
    as Hperm.
  pose proof (Permutation_length Hperm) as Hlen.
  split; [|split; [|split]].
  - split; [done|]. split; [apply sortDescBy_sorted|].
    intros k. apply sortDescBy_ties.
  - intros k. apply slice0_ties.
  - intros Hneg. subst result. unfold getTopProjectsByDuration, slice0.
    fold (timedProjects configProjects).
    replace (limit <? 0) with true by (symmetry; apply Z.ltb_lt; lia).
    rewrite Hlen.
    exists (drop (Z.to_nat (Z.of_nat (length (timedProjects configProjects)) + limit))
              (sortDescBy bd_duration (timedProjects configProjects))).
    split; [by rewrite take_drop|].
    rewrite length_drop, length_take, Hlen. lia.
  - intros Hpos. subst result. unfold getTopProjectsByDuration, slice0.
    fold (timedProjects configProjects).
    by replace (limit <? 0) with false by (symmetry; apply Z.ltb_ge; lia).
Qed.

Lemma X21_duration_ranking_ties_and_negative_limit_witness :
  ∃ dropped,
    getTopProjectsByDuration
      [("/a", ProjectMetrics.mk 0 0 500 0 0 0 0 0 0);
       ("/b", ProjectMetrics.mk 0 0 900 0 0 0 0 0 0);
       ("/c", ProjectMetrics.mk 0 0 500 0 0 0 0 0 0)] 3
    = [mkByDuration "/b" 900; mkByDuration "/a" 500] ++ dropped
    ∧ length dropped = 1%nat.
Proof.
  destruct (X21_duration_ranking_ties_and_negative_limit
              [("/a", ProjectMetrics.mk 0 0 500 0 0 0 0 0 0);
               ("/b", ProjectMetrics.mk 0 0 900 0 0 0 0 0 0);
               ("/c", ProjectMetrics.mk 0 0 500 0 0 0 0 0 0)] (-1))
    as (_ & _ & Hneg & _).
  destruct Hneg as (dropped & Hsplit & Hlen & _); [lia|].
  exists dropped. split; [exact Hsplit|exact Hlen].
Defined.

End ProjectParserFacts.

(** ** Achievement identifiers *)

Module AchievementIdFacts.
Import Schema SqlDates Achievements AchievementFacts.

Lemma emittedIds_app a b : emittedIds (a ++ b) = emittedIds a ++ emittedIds b.
Proof. unfold emittedIds, achievedOf. by rewrite bind_app, fmap_app. Qed.

Lemma emittedIds_bind_sublist {X} (f : X → list AchievementCheck)
    (idOf : X → string) (ms : list X) :
  (∀ m, emittedIds (f m) = [] ∨ emittedIds (f m) = [idOf m]) →
  emittedIds (ms ≫= f) `sublist_of` (idOf <$> ms).
Proof.
  intros Hf. induction ms as [|m ms IH]; [apply sublist_nil_l|].
  rewrite bind_cons, emittedIds_app, fmap_cons.
  destruct (Hf m) as [-> | ->]; cbn [app];
    [by apply sublist_cons|by apply sublist_skip].
Qed.

(** The first two characters of an identifier tell its family. *)
Definition idPrefix (s : string) : string := String.substring 0 2 s.

Definition milestoneId (family : string) (m : Z * string * string) : string :=
  family +:+ pretty m.1.1.

Definition calendarId (m : Z * string * string) : string :=
  "milestone_" +:+ pretty m.1.1 +:+ "_days".

Lemma streakCheck_ids now currentStreak m :
  emittedIds (streakCheck now currentStreak m) = []
  ∨ emittedIds (streakCheck now currentStreak m) = [milestoneId "streak_" m].
Proof.
  destruct m as [[d t] i]. unfold streakCheck, milestoneId. cbn [fst].
  destruct (d <=? currentStreak).
  - by right.
  - destruct (d - 2 <=? currentStreak); by left.
Qed.

Lemma sessionCountCheck_ids now count m :
  emittedIds (sessionCountCheck now count m) = []
  ∨ emittedIds (sessionCountCheck now count m) = [milestoneId "sessions_" m].
Proof.
  destruct m as [[d t] i]. unfold sessionCountCheck, milestoneId. cbn [fst].
  destruct (d <=? count); [by right|by left].
Qed.

Lemma promptCountCheck_ids now count m :
  emittedIds (promptCountCheck now count m) = []
  ∨ emittedIds (promptCountCheck now count m) = [milestoneId "prompts_" m].
Proof.
  destruct m as [[d t] i]. unfold promptCountCheck, milestoneId. cbn [fst].
  destruct (d <=? count); [by right|by left].
Qed.

Lemma timeCheck_ids now daysSinceStart m :
  emittedIds (timeCheck now daysSinceStart m) = []
  ∨ emittedIds (timeCheck now daysSinceStart m) = [calendarId m].
Proof.
  destruct m as [[d t] i]. unfold timeCheck, calendarId. cbn [fst].
  destruct (d <=? daysSinceStart); [by right|by left].
Qed.

(** A family of identifiers: duplicate-free, all with one prefix. *)
Definition family (t : string) (ids : list string) : Prop :=
  NoDup ids ∧ Forall (λ x, idPrefix x = t) ids.

Lemma family_sublist t l ids : l `sublist_of` ids → family t ids → family t l.
Proof.
  intros Hsub [Hnd Htag]. split.
  - by eapply sublist_NoDup.
  - rewrite Forall_forall in Htag. apply Forall_forall. intros x Hx.
    apply Htag. by eapply sublist_subseteq.
Qed.

Lemma family_milestones t (ids : list string) :
  bool_decide (NoDup ids) = true →
  forallb (λ x, bool_decide (idPrefix x = t)) ids = true →
  family t ids.
Proof.
  intros Hnd Htag. split; [by apply bool_decide_eq_true in Hnd|].
  apply Forall_forall. intros x Hx. rewrite forallb_forall in Htag.
  apply list_elem_of_In in Hx. specialize (Htag x Hx).
  by apply bool_decide_eq_true in Htag.
Qed.

Lemma family_streak db now :
  family "st" (emittedIds (checkStreakAchievements db now)).
Proof.
  apply (family_sublist _ _ (milestoneId "streak_" <$> streakMilestones)).
  - apply emittedIds_bind_sublist. intros m. apply streakCheck_ids.
  - apply family_milestones; vm_compute; reflexivity.
Qed.

Lemma family_sessions now count :
  family "se" (emittedIds (sessionMilestones ≫= sessionCountCheck now count)).
Proof.
  apply (family_sublist _ _ (milestoneId "sessions_" <$> sessionMilestones)).
  - apply emittedIds_bind_sublist. intros m. apply sessionCountCheck_ids.
  - apply family_milestones; vm_compute; reflexivity.
Qed.

Lemma family_prompts now count :
  family "pr" (emittedIds (promptMilestones ≫= promptCountCheck now count)).
Proof.
  apply (family_sublist _ _ (milestoneId "prompts_" <$> promptMilestones)).
  - apply emittedIds_bind_sublist. intros m. apply promptCountCheck_ids.
  - apply family_milestones; vm_compute; reflexivity.
Qed.

Lemma family_time now daysSinceStart :
  family "mi" (emittedIds (timeMilestones ≫= timeCheck now daysSinceStart)).
Proof.
  apply (family_sublist _ _ (calendarId <$> timeMilestones)).
  - apply emittedIds_bind_sublist. intros m. apply timeCheck_ids.
  - apply family_milestones; vm_compute; reflexivity.
Qed.

Lemma family_nil t : family t [].
Proof. split; constructor. Qed.

Lemma family_cost db now :
  family "ca" (emittedIds (checkCostAchievements db now)).
Proof.
  unfold checkCostAchievements. cbv zeta.
  repeat case_match; try apply family_nil;
    (split; [apply NoDup_singleton|by repeat constructor]).
Qed.

(** *** Skill identifiers *)

Definition slugOf (s : SkillProficiency) : string := skillSlug (sp_skill s).

Lemma skillCheck_ids now s :
  emittedIds (skillCheck now s)
  = match sp_level s with
    | SkillProficiency.expert => ["skill_expert_" +:+ slugOf s]
    | SkillProficiency.advanced => ["skill_advanced_" +:+ slugOf s]
    | _ => []
    end.
Proof. unfold skillCheck. by destruct (sp_level s). Qed.

Lemma elem_of_skill_ids now skills x :
  x ∈ emittedIds (skills ≫= skillCheck now) →
  ∃ s, s ∈ skills
       ∧ (x = "skill_expert_" +:+ slugOf s ∨ x = "skill_advanced_" +:+ slugOf s).
Proof.
  induction skills as [|s skills IH]; [by intros ?%elem_of_nil|].
  rewrite bind_cons, emittedIds_app, skillCheck_ids.
  intros [Hx|Hx]%elem_of_app.
  - exists s. split; [left|].
    destruct (sp_level s); try (by apply elem_of_nil in Hx);
      apply list_elem_of_singleton in Hx; auto.
  - destruct (IH Hx) as (s' & Hs' & Hid). exists s'. split; [by right|done].
Qed.

Lemma skill_id_slug a b :
  ("skill_expert_" +:+ a = "skill_expert_" +:+ b
   ∨ "skill_advanced_" +:+ a = "skill_advanced_" +:+ b
   ∨ "skill_expert_" +:+ a = "skill_advanced_" +:+ b
   ∨ "skill_advanced_" +:+ a = "skill_expert_" +:+ b) →
  a = b.
Proof.
  intros [H|[H|[H|H]]]; cbn in H; by simplify_eq.
Qed.

Lemma family_skills now skills :
  NoDup (slugOf <$> skills) →
  family "sk" (emittedIds (skills ≫= skillCheck now)).
Proof.
  intros Hnd. split.
  - induction skills as [|s skills IH]; [constructor|].
    rewrite fmap_cons in Hnd. apply NoDup_cons in Hnd as [Hs Hnd].
    rewrite bind_cons, emittedIds_app, skillCheck_ids.
    assert (∀ x, (x = "skill_expert_" +:+ slugOf s
                  ∨ x = "skill_advanced_" +:+ slugOf s) →
                 x ∉ emittedIds (skills ≫= skillCheck now)) as Hfresh.
    { intros x Hx Hin.
      destruct (elem_of_skill_ids now skills x Hin) as (s' & Hs' & Hx').
      apply Hs. apply list_elem_of_fmap. exists s'. split; [|done].
      apply skill_id_slug.
      destruct Hx as [->| ->], Hx' as [Hx'|Hx']; auto. }
    destruct (sp_level s); cbn [app]; try (by apply IH);
      (apply NoDup_cons; split; [apply Hfresh; auto|by apply IH]).
  - apply Forall_forall. intros x Hx.
    destruct (elem_of_skill_ids now skills x Hx) as (s & _ & [->| ->]);
      reflexivity.
Qed.

(** Families with different prefixes do not meet. *)
Lemma NoDup_families (groups : list (string * list string)) :
  NoDup groups.*1 →
  Forall (λ g, family g.1 g.2) groups →
  NoDup (mjoin groups.*2).
Proof.
  induction groups as [|[t ids] groups IH]; [constructor|].
  rewrite !fmap_cons. cbn [fst snd].
  change (mjoin (ids :: groups.*2)) with (ids ++ mjoin groups.*2).
  intros [Ht Hnd]%NoDup_cons [[Hids Htag] Hall]%Forall_cons_1.
  cbn [fst snd] in *.
  apply NoDup_app. split; [done|]. split; [|by apply IH].
  intros x Hx Hin. rewrite Forall_forall in Htag. specialize (Htag x Hx).
  apply list_elem_of_join in Hin as (ids' & Hx' & Hids').
  apply list_elem_of_fmap in Hids' as ([t' ids''] & -> & Hg).
  rewrite Forall_forall in Hall. destruct (Hall _ Hg) as [_ Htag'].
  cbn [fst snd] in *. rewrite Forall_forall in Htag'. specialize (Htag' x Hx').
  apply Ht. apply list_elem_of_fmap. exists (t', ids''). split; [|done].
  cbn [fst]. congruence.
Qed.

Section WithCollaborators.
Variable differenceInDays : Z → Z → Z.
Variable analyzeSkillProficiency :
  gmap string SessionRow.t → Z → list SkillProficiency.

Lemma emittedIds_NoDup db now :
  NoDup (slugOf <$> analyzeSkillProficiency (sessions db) now) →
  NoDup (emittedIds (allChecks differenceInDays analyzeSkillProficiency db now)).
Proof.
  intros Hslugs.
  pose proof (NoDup_families
    [ ("st", emittedIds (checkStreakAchievements db now));
      ("sk", emittedIds (checkSkillAchievements analyzeSkillProficiency db now));
      ("ca", emittedIds (checkCostAchievements db now));
      ("se", emittedIds (sessionMilestones
                          ≫= sessionCountCheck now (Z.of_nat (size (sessions db)))));
      ("pr", emittedIds (promptMilestones
                          ≫= promptCountCheck now (totalPromptCount db)));
      ("mi", emittedIds (match firstSession db with
                         | Some first =>
                             timeMilestones
                               ≫= timeCheck now (differenceInDays now first)
                         | None => []
                         end));
      ("we", emittedIds (if 10 <=? weekendSessions db
                         then [ mkCheck true
                                  (Some (Achievement.mk "weekend_warrior"
                                           Achievement.milestone
                                           "Weekend Warrior"
                                           "Completed 10+ weekend coding sessions!"
                                           "🏖️" now
                                           (Some [("weekendCount",
                                                   Metadata.MInt (weekendSessions db))])))
                                  None ]
                         else [])) ]) as Hjoin.
  unfold allChecks, checkProductivityAchievements, checkMilestoneAchievements.
  cbv zeta. rewrite !emittedIds_app.
  cbn [fmap list_fmap fst snd mjoin list_join] in Hjoin.
  rewrite app_nil_r in Hjoin. rewrite <-!app_assoc.
  apply Hjoin.
  - apply (bool_decide_unpack _). vm_compute. exact I.
  - repeat (apply Forall_cons; split); [..|constructor]; cbn [fst snd].
    + apply family_streak.
    + by apply family_skills.
    + apply family_cost.
    + apply family_sessions.
    + apply family_prompts.
    + destruct (firstSession db); [apply family_time|apply family_nil].
    + destruct (10 <=? weekendSessions db); [|apply family_nil].
      split; [apply NoDup_singleton|by repeat constructor].
Qed.

End WithCollaborators.

(** X22. When the skill analysis lists no two skills with the same slug,
    the achievements [getNewAchievements] returns have pairwise different
    identifiers, none of them stored yet; so saving them all adds exactly
    one row each to the achievements table. *)
Theorem X22_new_achievements_have_fresh_distinct_ids
    (differenceInDays : Z → Z → Z)
    (analyzeSkillProficiency : gmap string SessionRow.t → Z → list SkillProficiency)
    (db : Database) (now : Z) :
  NoDup ((λ s, skillSlug (sp_skill s)) <$> analyzeSkillProficiency (sessions db) now) →
  let checked := getNewAchievements differenceInDays analyzeSkillProficiency db now in
  NoDup (Achievement.id <$> checked.2)
  ∧ (∀ a, a ∈ checked.2 → Achievement.id a ∉ unlockedIds db)
  ∧ size (unlockedIds (foldl saveAchievement checked.1 checked.2))
    = (size (unlockedIds db) + length checked.2)%nat.
Proof.
  intros Hslugs checked.
  assert (NoDup (Achievement.id <$> checked.2)) as Hnd.
  { subst checked. rewrite getNew_spec. cbn [snd].
    eapply sublist_NoDup;
      [exact (emittedIds_NoDup differenceInDays analyzeSkillProficiency db now Hslugs)|].
    apply fmap_sublist, sublist_filter. }
  assert (∀ a, a ∈ checked.2 → Achievement.id a ∉ unlockedIds db) as Hfresh.
  { intros a Ha. by apply getNew_not_unlocked in Ha. }
  split; [done|]. split; [done|].
  rewrite unlockedIds_foldl_saveAchievement.
  assert (unlockedIds checked.1 = unlockedIds db) as ->.
  { subst checked. rewrite getNew_spec. cbn [fst]. apply unlockedIds_ensure. }
  rewrite size_union.
  - rewrite size_list_to_set by done. rewrite length_fmap. lia.
  - intros x Hx Hin. apply elem_of_list_to_set in Hx.
    apply list_elem_of_fmap in Hx as (a & -> & Ha). by apply (Hfresh a).
Qed.

Lemma X22_new_achievements_have_fresh_distinct_ids_witness :
  NoDup (Achievement.id
         <$> (getNewAchievements AchievementClaims.wholeDays
                AchievementClaims.oneExpert AchievementClaims.storeWithHistory
                AchievementClaims.tenDaysOn).2).
Proof.
  destruct (X22_new_achievements_have_fresh_distinct_ids
              AchievementClaims.wholeDays AchievementClaims.oneExpert
              AchievementClaims.storeWithHistory AchievementClaims.tenDaysOn)
    as (Hnd & _ & _).
  - apply (bool_decide_unpack _). vm_compute. exact I.
  - exact Hnd.
Defined.

End AchievementIdFacts.

(** ** Synthesized session identifiers across syncs *)

Module AutoIdExtras.
Import HistoryParser Schema Sync SortFacts GroupFacts Scenarios SessionExtras.
Import SessionClaims SyncExtras SyncScenario.

(** Every returned session holds at least one event. *)
Lemma session_has_entry entries gap k s :
  groupIntoSessions entries gap !! k = Some s →
  ∃ i e, sortByTimestamp entries !! i = Some e
         ∧ placements entries gap !! i = Some k.
Proof.
  intros Hs.
  pose proof (groupIntoSessions_wf entries gap) as Hwf.
  rewrite Forall_forall in Hwf.
  destruct (Hwf s (list_elem_of_lookup_2 _ _ _ Hs)) as (_ & Hcount & _).
  rewrite (placement_count entries gap k s Hs) in Hcount. unfold placedAt in Hcount.
  destruct (filter (λ p, p = k) (placements entries gap)) as [|p ps] eqn:Hf;
    [cbn [length] in Hcount; lia|].
  assert (p ∈ filter (λ p, p = k) (placements entries gap)) as Hp
    by (rewrite Hf; left).
  apply list_elem_of_filter in Hp as [-> Hp].
  apply list_elem_of_lookup in Hp as [i Hi].
  pose proof (lookup_lt_Some _ _ _ Hi) as Hlt.
  unfold placements in Hlt. rewrite placementsFrom_length in Hlt.
  destruct (lookup_lt_is_Some_2 _ _ Hlt) as [e He].
  by exists i, e.
Qed.

Lemma auto_session_id entries gap k s :
  (∀ e, e ∈ entries → noExplicitId e) →
  groupIntoSessions entries gap !! k = Some s →
  Session.sessionId s = autoId k.
Proof.
  intros Hnone Hs.
  destruct (session_has_entry entries gap k s Hs) as (i & e & He & Hk).
  destruct (placement_session entries gap i e k He Hk) as (s' & Hs' & Hid & _).
  rewrite Hs in Hs'. injection Hs' as <-. rewrite Hid.
  apply sessionIdOr_noExplicitId, Hnone.
  rewrite <-(sortByTimestamp_Permutation entries).
  by eapply list_elem_of_lookup_2.
Qed.

(** X23. When no event of the log carries an explicit identifier, the
    sessions returned are named by their position: the session at index [k]
    has the identifier "auto-k", counted from 0 in every call. *)
Theorem X23_synthesized_ids_number_from_zero (entries : list HistoryEntry.t)
    (sessionGapMs : Z) (k : nat) (s : Session.t) :
  (∀ e, e ∈ entries →
        HistoryEntry.sessionId e = None ∨ HistoryEntry.sessionId e = Some "") →
  groupIntoSessions entries sessionGapMs !! k = Some s →
  Session.sessionId s = "auto-" +:+ pretty k.
Proof. apply auto_session_id. Qed.

Lemma X23_synthesized_ids_number_from_zero_witness :
  Session.sessionId
    (Session.mk "auto-1" "/p" 3000000 3000000 1 0 "prompt@3000000" "prompt@3000000")
  = "auto-" +:+ pretty 1%nat.
Proof.
  apply (X23_synthesized_ids_number_from_zero
           [ev (minutes 50) "/p" None; ev 0 "/p" None; ev (minutes 10) "/p" None]
           defaultSessionGapMs 1).
  - intros e He.
    repeat (apply elem_of_cons in He as [->|He]; [by left|]).
    by apply elem_of_nil in He.
  - rewrite three_events. reflexivity.
Defined.

Lemma foldl_upsertSession_lookup_ne now l db k :
  k ∉ Session.sessionId <$> l →
  sessions (foldl (upsertSession now) db l) !! k = sessions db !! k.
Proof.
  revert db. induction l as [|s l IH]; intros db Hk; [done|].
  rewrite fmap_cons, not_elem_of_cons in Hk. destruct Hk as [Hne Hk].
  cbn [foldl]. rewrite IH by done.
  unfold upsertSession. cbn [sessions]. by rewrite lookup_insert_ne.
Qed.

Lemma upsertSession_row now db db' s :
  sessions db' !! Session.sessionId s = sessions db !! Session.sessionId s →
  sessions (upsertSession now db' s) !! Session.sessionId s
  = sessions (upsertSession now db s) !! Session.sessionId s.
Proof.
  intros Heq. unfold upsertSession. cbn [sessions].
  by rewrite !lookup_insert_eq, Heq.
Qed.

Lemma foldl_upsertSession_lookup now ss :
  ∀ db k s,
    NoDup (Session.sessionId <$> ss) →
    ss !! k = Some s →
    sessions (foldl (upsertSession now) db ss) !! Session.sessionId s
    = sessions (upsertSession now db s) !! Session.sessionId s.
Proof.
  induction ss as [|s0 ss IH]; intros db k s Hnd Hs; [done|].
  rewrite fmap_cons in Hnd. apply NoDup_cons in Hnd as [Hs0 Hnd].
  cbn [foldl]. destruct k as [|k]; cbn [lookup list_lookup] in Hs.
  - injection Hs as ->. by rewrite foldl_upsertSession_lookup_ne.
  - rewrite (IH _ k s Hnd Hs). apply upsertSession_row.
    unfold upsertSession. cbn [sessions]. rewrite lookup_insert_ne; [done|].
    intros Heq. apply Hs0. rewrite Heq.
    apply list_elem_of_fmap. exists s. split; [done|].
    by eapply list_elem_of_lookup_2.
Qed.

Lemma auto_ids_NoDup entries gap :
  (∀ e, e ∈ entries → noExplicitId e) →
  NoDup (Session.sessionId <$> groupIntoSessions entries gap).
Proof.
  intros Hnone. apply NoDup_alt. intros i j x Hi Hj.
  rewrite list_lookup_fmap in Hi, Hj.
  destruct (groupIntoSessions entries gap !! i) as [si|] eqn:Hsi; [|done].
  destruct (groupIntoSessions entries gap !! j) as [sj|] eqn:Hsj; [|done].
  cbn in Hi, Hj. injection Hi as <-. injection Hj as Hj.
  rewrite (auto_session_id entries gap i si Hnone Hsi) in Hj.
  rewrite (auto_session_id entries gap j sj Hnone Hsj) in Hj.
  symmetry. by apply autoId_inj.
Qed.

(** X24. The synthesized identifiers collide across syncs.  When the events
    a sync processes carry no explicit identifier and the store already
    holds a row "auto-k" (as an earlier sync of such events leaves), the
    [k]-th session of the run does not get a row of its own: the sync
    overwrites the end time, prompt count, duration and last prompt of the
    old row and keeps the old row's project, start time and first prompt. *)
Theorem X24_auto_ids_collide_across_syncs (db : Database)
    (historyEntries : list HistoryEntry.t)
    (configProjects : list (string * ProjectMetrics.t)) (now : Z)
    (k : nat) (s : Session.t) (old : SessionRow.t) :
  (∀ e, e ∈ entriesToProcess db historyEntries →
        HistoryEntry.sessionId e = None ∨ HistoryEntry.sessionId e = Some "") →
  runSessions db historyEntries !! k = Some s →
  sessions db !! ("auto-" +:+ pretty k) = Some old →
  sessions (syncData db historyEntries configProjects now).1 !! ("auto-" +:+ pretty k)
  = Some (SessionRow.mk
            (SessionRow.project old)
            (SessionRow.start_time old)
            (Session.endTime s)
            (Z.of_nat (Session.promptCount s))
            (Session.duration s)
            (SessionRow.first_prompt old)
            (Some (Session.lastPrompt s))
            (SessionRow.created_at old)).
Proof.
  intros Hnone Hs Hold. unfold runSessions in Hs.
  pose proof (auto_session_id _ _ k s Hnone Hs) as Hid. unfold autoId in Hid.
  destruct (syncData_tables db historyEntries configProjects now) as (-> & _).
  rewrite <-Hid.
  rewrite (foldl_upsertSession_lookup now _ db k s (auto_ids_NoDup _ _ Hnone) Hs).
  unfold upsertSession. cbn [sessions].
  by rewrite lookup_insert_eq, Hid, Hold.
Qed.

(** The log of the sync scenario with one later event, of another project. *)
Definition laterHistory : list HistoryEntry.t :=
  history ++ [ev 200000 "/q" None].

Lemma X24_auto_ids_collide_across_syncs_witness :
  sessions (syncData afterFirst laterHistory config 300000).1 !! ("auto-" +:+ pretty 0%nat)
  = Some (SessionRow.mk "/p" 1000 200000 1 0 (Some "prompt@1000")
            (Some "prompt@200000") 100000).
Proof.
  apply (X24_auto_ids_collide_across_syncs afterFirst laterHistory config 300000
           0%nat
           (Session.mk "auto-0" "/q" 200000 200000 1 0 "prompt@200000" "prompt@200000")
           (SessionRow.mk "/p" 1000 61000 2 60000 (Some "prompt@1000")
              (Some "prompt@61000") 100000)).
  - intros e He. vm_compute in He.
    apply elem_of_cons in He as [->|He]; [by left|by apply elem_of_nil in He].
  - vm_compute. reflexivity.
  - vm_compute. reflexivity.
Defined.

End AutoIdExtras.

(** ** Habit patterns *)

Module HabitPatternFacts.
Import Schema SqlDates HabitPatterns.
Import SpecFloat FloatOps FloatAxioms.
Local Set Warnings "-inexact-float".

(** A count of zero passes no positive threshold, whatever the total: the
    quotient is a zero, or NaN when the total is zero too. *)
Lemma zero_ratio_fails (threshold y : float) m e :
  Prim2SF threshold = S754_finite false m e →
  (threshold <? ofZ 0 / y)%float = false.
Proof.
  intros Hc. rewrite ltb_spec, div_spec, Hc.
  change (Prim2SF (ofZ 0)) with (S754_zero false).
  by destruct (Prim2SF y) as [sy|sy| |sy my ey].
Qed.

Lemma Math_min_cap (x : float) :
  (95 <? SkillProficiency.Math_min 95 x)%float = false.
Proof.
  unfold SkillProficiency.Math_min.
  change (PrimFloat.is_nan 95) with false. cbn [orb].
  destruct (PrimFloat.is_nan x); [reflexivity|].
  destruct (95 <? x)%float eqn:Hlt; [reflexivity|].
  destruct (x <? 95)%float; [exact Hlt|].
  change (PrimFloat.get_sign 95) with false. exact Hlt.
Qed.

Lemma insertByConfidence_Permutation {A} (confidence : A → float) x l :
  insertByConfidence confidence x l ≡ₚ x :: l.
Proof.
  induction l as [|y l IH]; cbn [insertByConfidence]; [done|].
  case_match; [|done]. rewrite IH. apply Permutation_swap.
Qed.

Lemma sortByConfidence_Permutation {A} (confidence : A → float) l :
  sortByConfidence confidence l ≡ₚ l.
Proof.
  unfold sortByConfidence. induction l as [|x l IH]; cbn [foldr]; [done|].
  by rewrite insertByConfidence_Permutation, IH.
Qed.

Lemma countWhere_bounds passes starts :
  0 <= countWhere passes starts <= Z.of_nat (length starts).
Proof.
  unfold countWhere.
  pose proof (length_filter (λ t, passes t = true) starts). lia.
Qed.

(** The thresholds of the pattern tests. *)
Definition positiveThreshold (threshold : float) : Prop :=
  ∀ y : float, (threshold <? ofZ 0 / y)%float = false.

Lemma thresholds_positive :
  positiveThreshold 0.2 ∧ positiveThreshold 0.3
  ∧ positiveThreshold 0.35 ∧ positiveThreshold 0.6.
Proof.
  repeat split; intros y; eapply zero_ratio_fails; vm_compute; reflexivity.
Qed.

Lemma timePattern_elem name description hourRange threshold passes starts p :
  p ∈ timePattern name description hourRange threshold
        (countWhere passes starts) (Z.of_nat (length starts)) →
  positiveThreshold threshold →
  1 <= tp_frequency p <= Z.of_nat (length starts)
  ∧ (95 <? tp_confidence p)%float = false.
Proof.
  intros Hp Hc. revert Hp. unfold timePattern.
  destruct (threshold <? _)%float eqn:Hpass; [|by intros ?%elem_of_nil].
  intros ->%list_elem_of_singleton. cbn [tp_frequency tp_confidence].
  split; [|apply Math_min_cap].
  pose proof (countWhere_bounds passes starts) as Hb.
  destruct (decide (countWhere passes starts = 0)) as [Hz|Hnz]; [|lia].
  rewrite Hz, Hc in Hpass. done.
Qed.

(** X25. [detectTimePatterns] reports nothing when no session started in the
    last 30 days (the quotients are then NaN and pass no threshold); every
    pattern it reports is backed by at least one session of the window, by
    no more sessions than the window holds, and never has a confidence above
    95; and it reports at most four patterns. *)
Theorem X25_time_patterns_are_backed_and_capped (db : Database) (now : Z) :
  (recentStarts db now = [] → detectTimePatterns db now = [])
  ∧ (∀ p, p ∈ detectTimePatterns db now →
       1 <= tp_frequency p <= Z.of_nat (length (recentStarts db now))
       ∧ (95 <? tp_confidence p)%float = false)
  ∧ (length (detectTimePatterns db now) <= 4)%nat.
Proof.
  destruct thresholds_positive as (H02 & H03 & _ & _).
  unfold detectTimePatterns. cbv zeta.
  set (starts := recentStarts db now).
  split; [|split].
  - intros Hnone. subst starts. rewrite Hnone. unfold timePattern, countWhere.
    cbn [filter list_filter length Z.of_nat].
    by rewrite (H03 _), (H02 _).
  - intros p Hp. rewrite sortByConfidence_Permutation in Hp.
    repeat (apply elem_of_app in Hp as [Hp|Hp]);
      by apply timePattern_elem in Hp.
  - rewrite sortByConfidence_Permutation, !length_app. unfold timePattern.
    repeat case_match; cbn [length]; lia.
Qed.

(** X26. [detectDayPatterns] reports nothing when no session started in the
    last 30 days; a pattern it reports is either Weekend Warrior, with the
    number of window sessions started on a Saturday or Sunday as frequency,
    or Weekday Grinder, with the number started Monday to Friday; that
    number is at least 1 and the confidence is never above 95. *)
Theorem X26_day_patterns_are_backed_and_capped (db : Database) (now : Z) :
  (recentStarts db now = [] → detectDayPatterns db now = [])
  ∧ (∀ p, p ∈ detectDayPatterns db now →
       ((dp_name p = "Weekend Warrior" ∧ dp_days p = [0; 6]
         ∧ dp_frequency p
           = countWhere (λ t, (weekday t =? 0) || (weekday t =? 6))
               (recentStarts db now))
        ∨ (dp_name p = "Weekday Grinder" ∧ dp_days p = [1; 2; 3; 4; 5]
           ∧ dp_frequency p
             = countWhere (λ t, (1 <=? weekday t) && (weekday t <=? 5))
                 (recentStarts db now)))
       ∧ 1 <= dp_frequency p <= Z.of_nat (length (recentStarts db now))
       ∧ (95 <? dp_confidence p)%float = false).
Proof.
  destruct thresholds_positive as (_ & _ & H035 & H06).
  unfold detectDayPatterns. cbv zeta.
  set (starts := recentStarts db now).
  split.
  - intros Hnone. subst starts. rewrite Hnone. unfold countWhere.
    cbn [filter list_filter length Z.of_nat].
    by rewrite (H035 _), (H06 _).
  - intros p Hp. rewrite sortByConfidence_Permutation in Hp.
    apply elem_of_app in Hp as [Hp|Hp].
    + destruct (0.35 <? _)%float eqn:Hpass; [|by apply elem_of_nil in Hp].
      apply list_elem_of_singleton in Hp as ->.
      cbn [dp_name dp_days dp_frequency dp_confidence].
      split; [by left|]. split; [|apply Math_min_cap].
      pose proof (countWhere_bounds
                    (λ t, (weekday t =? 0) || (weekday t =? 6)) starts) as Hb.
      destruct (decide (countWhere (λ t, (weekday t =? 0) || (weekday t =? 6))
                          starts = 0)) as [Hz|Hnz]; [|lia].
      rewrite Hz, (H035 _) in Hpass. done.
    + destruct (0.6 <? _)%float eqn:Hpass; [|by apply elem_of_nil in Hp].
      apply list_elem_of_singleton in Hp as ->.
      cbn [dp_name dp_days dp_frequency dp_confidence].
      split; [by right|]. split; [|apply Math_min_cap].
      pose proof (countWhere_bounds
                    (λ t, (1 <=? weekday t) && (weekday t <=? 5)) starts) as Hb.
      destruct (decide (countWhere (λ t, (1 <=? weekday t) && (weekday t <=? 5))
                          starts = 0)) as [Hz|Hnz]; [|lia].
      rewrite Hz, (H06 _) in Hpass. done.
Qed.

(** On the store of the streak scenario all five sessions of the window
    started on weekdays, in the first hours of the day. *)
Example streakStore_day_patterns :
  detectDayPatterns HabitDetectorFacts.streakStore (20000 * msPerDay + 3600000)
  = [ mkDayPattern "Weekday Grinder" "Consistent weekday productivity"
        [1; 2; 3; 4; 5] 5 95 ].
Proof. vm_compute. reflexivity. Qed.

Example streakStore_time_patterns :
  detectTimePatterns HabitDetectorFacts.streakStore (20000 * msPerDay + 3600000)
  = [ mkTimePattern "Night Owl" "Codes late into the night (10pm-6am)"
        (22, 6) 5 95 ].
Proof. vm_compute. reflexivity. Qed.

End HabitPatternFacts.
